(** * MarketLensMobile: asynchronous research jobs and chat sessions

    A shallow embedding of the orchestration code of the client
    ([api.js], [state.js], [research.js], [chat.js]) together with the
    properties its specification states about it.

    Conventions of the embedding:
    - JavaScript strings are [string]s; a character is one code unit in
      the range 0..255.
    - [Date.now()] is an argument of every function that reads the clock
      (milliseconds, in [Z]).
    - An [await] is resolved by an answer of the environment that the
      caller supplies: [Returned v] when the promise resolves with [v],
      [Threw msg] when it rejects.
    - Emitting an event, writing to [localStorage], arming a timer and
      calling the network are recorded in logs carried by the state. *)

From Stdlib Require Import ZArith Ascii String List Bool Lia.
From stdpp Require Import base option list strings gmap.

Open Scope string_scope.
Open Scope list_scope.

(** ** JavaScript primitives used by the sources *)

Module Js.

(** The result of an awaited promise, or of a call that may throw. *)
Inductive Outcome (A : Type) : Type :=
| Returned (a : A)
| Threw (msg : string).
Global Arguments Returned {A} a.
Global Arguments Threw {A} msg.

(** A property that may be [undefined] is an [option]; the only falsy
    string is the empty one. *)
Definition truthy (v : option string) : bool :=
  match v with
  | Some s => negb (String.eqb s "")
  | None => false
  end.

(** [a || b] on such values. *)
Definition or_else (a b : option string) : option string :=
  if truthy a then a else b.

Definition code (c : ascii) : N := N_of_ascii c.

(** White space as [\s] and [String.prototype.trim] see it, among the
    code units below 256: TAB, LF, VT, FF, CR, SPACE and NBSP. *)
Definition is_space (c : ascii) : bool :=
  let n := code c in
  ((9 <=? n) && (n <=? 13) || (n =? 32) || (n =? 160))%N.

(** [\d] *)
Definition is_digit (c : ascii) : bool :=
  let n := code c in ((48 <=? n) && (n <=? 57))%N.

(** [toLowerCase] on one code unit below 256: the ASCII capitals and
    the capitals of Latin-1. *)
Definition lower (c : ascii) : ascii :=
  let n := code c in
  if ((65 <=? n) && (n <=? 90)
      || (192 <=? n) && (n <=? 222) && negb (n =? 215))%N
  then ascii_of_N (n + 32) else c.

Fixpoint toLowerCase (s : string) : string :=
  match s with
  | EmptyString => EmptyString
  | String c r => String (lower c) (toLowerCase r)
  end.

(** [s.startsWith(p)] *)
Fixpoint startsWith (p s : string) : bool :=
  match p, s with
  | EmptyString, _ => true
  | String a p', String b s' => Ascii.eqb a b && startsWith p' s'
  | String _ _, EmptyString => false
  end.

(** [s.includes(p)] *)
Fixpoint includes (p s : string) : bool :=
  startsWith p s ||
  match s with
  | EmptyString => false
  | String _ s' => includes p s'
  end.

(** [s.slice(n)] for [0 <= n]. *)
Fixpoint slice_from (n : nat) (s : string) : string :=
  match n, s with
  | O, _ => s
  | S n', String _ r => slice_from n' r
  | S _, EmptyString => EmptyString
  end.

Fixpoint trimStart (s : string) : string :=
  match s with
  | EmptyString => EmptyString
  | String c r => if is_space c then trimStart r else s
  end.

Fixpoint trimEnd (s : string) : string :=
  match s with
  | EmptyString => EmptyString
  | String c r =>
      match trimEnd r with
      | EmptyString => if is_space c then EmptyString else String c EmptyString
      | r' => String c r'
      end
  end.

(** [s.trim()] *)
Definition trim (s : string) : string := trimEnd (trimStart s).

Definition newline : ascii := ascii_of_N 10.

(** [s.split('\n')]: never empty; the last element is what follows the
    last newline. *)
Fixpoint split_nl (s : string) : list string :=
  match s with
  | EmptyString => [EmptyString]
  | String c r =>
      if Ascii.eqb c newline then EmptyString :: split_nl r
      else match split_nl r with
           | h :: t => String c h :: t
           | [] => [String c EmptyString]
           end
  end.

(** [arr.join('\n')] *)
Fixpoint join_nl (l : list string) : string :=
  match l with
  | [] => EmptyString
  | [x] => x
  | x :: r => x +:+ String newline (join_nl r)
  end.

(** [arr.slice(-n)]: the last [n] elements. *)
Definition slice_last {A} (n : nat) (l : list A) : list A :=
  drop (length l - n) l.

(** [arr.slice(-n, -1)]: the last [n] elements without the last one. *)
Definition slice_last_but_one {A} (n : nat) (l : list A) : list A :=
  take (length l - 1 - (length l - n)) (drop (length l - n) l).

(** [arr.find(p)] *)
Fixpoint find {A} (p : A -> bool) (l : list A) : option A :=
  match l with
  | [] => None
  | x :: r => if p x then Some x else find p r
  end.

(** *** Plain objects read by name

    [state.collectionMembers] and [state.notes] are plain objects that
    the program reads as [obj[key]]: a name that the object does not
    carry itself is looked up on its prototype. *)

(** The names that [Object.prototype] carries (ECMAScript 2023 with
    the accessors of its Annex B). The value under each of them is a
    function, and under [__proto__] the prototype itself: all are
    truthy, and none has a method [map]. *)
Definition OBJECT_PROTOTYPE : list string :=
  ["constructor"; "hasOwnProperty"; "isPrototypeOf"; "propertyIsEnumerable";
   "toLocaleString"; "toString"; "valueOf"; "__proto__";
   "__defineGetter__"; "__defineSetter__"; "__lookupGetter__";
   "__lookupSetter__"].

(** The names that [Array.prototype] carries besides [length]
    (ECMAScript 2023); the value under each of them is a function. *)
Definition ARRAY_PROTOTYPE : list string :=
  ["at"; "concat"; "constructor"; "copyWithin"; "entries"; "every"; "fill";
   "filter"; "find"; "findIndex"; "findLast"; "findLastIndex"; "flat";
   "flatMap"; "forEach"; "includes"; "indexOf"; "join"; "keys";
   "lastIndexOf"; "map"; "pop"; "push"; "reduce"; "reduceRight"; "reverse";
   "shift"; "slice"; "some"; "sort"; "splice"; "toLocaleString";
   "toReversed"; "toSorted"; "toSpliced"; "toString"; "unshift"; "values";
   "with"].

Definition on_object_prototype (key : string) : bool :=
  existsb (String.eqb key) OBJECT_PROTOTYPE.

Definition on_array_prototype (key : string) : bool :=
  existsb (String.eqb key) ARRAY_PROTOTYPE.

Fixpoint decimal (acc : N) (s : string) : option N :=
  match s with
  | EmptyString => Some acc
  | String c r =>
      if is_digit c then decimal (10 * acc + (code c - 48))%N r else None
  end.

(** The array index that a property name denotes: a decimal numeral
    without a leading zero. *)
Definition array_index (key : string) : option N :=
  match key with
  | EmptyString => None
  | String c r =>
      if Ascii.eqb c "0" then (if String.eqb r "" then Some 0%N else None)
      else decimal 0 key
  end.

End Js.
(** ** api.js: the token cache and the streaming decoder *)

Module Api.
Import Js.

(** Requests that leave the client. [call] attaches a token first, so
    each of the endpoint calls stands for the token lookup and the
    request itself. *)
Inductive NetCall : Type :=
| NetAuth
| NetLoadAllObjects
| NetGetCollectionMembers (collectionId : string)
| NetExecuteResearch (prompt : string)
| NetStream (workflowId runId : string)
| NetGetRunStatus (workflowId runId : string).

(** The fields of [class VertesiaAPI]. *)
Record VertesiaAPI : Type := mkApi {
  apiKey : string;
  envId : string;
  jwt : option string;
  jwtExpiry : Z;
}.

(** [constructor(apiKey, envId)] *)
Definition new_api (key env : string) : VertesiaAPI :=
  {| apiKey := key; envId := env; jwt := None; jwtExpiry := 0 |}.

(** The body of the credential exchange response: the token may come
    under any of three names. *)
Record AuthData : Type := mkAuthData {
  data_token : option string;
  data_jwt : option string;
  data_access_token : option string;
}.

Record AuthResponse : Type := mkAuthResponse {
  auth_ok : bool;
  auth_data : AuthData;
}.

Definition SKEW : Z := 60000.
Definition ASSUMED_LIFETIME : Z := 3500000.

(** [data.token || data.jwt || data.access_token] *)
Definition token_of (data : AuthData) : option string :=
  or_else (or_else (data_token data) (data_jwt data)) (data_access_token data).

(** What one call of [getAuthToken] did: the client afterwards, the
    requests it sent and what the caller got. *)
Record AuthResult : Type := mkAuthResult {
  ar_api : VertesiaAPI;
  ar_net : list NetCall;
  ar_value : Outcome (option string);
}.

(** [getAuthToken()]. [now] is the clock when the cache is examined,
    [resp] the answer to the exchange request should one be sent, and
    [now'] the clock when that answer is stored. *)
Definition getAuthToken (api : VertesiaAPI) (now : Z)
    (resp : Outcome AuthResponse) (now' : Z) : AuthResult :=
  if truthy (jwt api) && (now <? jwtExpiry api - SKEW)%Z then
    {| ar_api := api; ar_net := []; ar_value := Returned (jwt api) |}
  else
    match resp with
    | Threw msg =>
        {| ar_api := api; ar_net := [NetAuth]; ar_value := Threw msg |}
    | Returned res =>
        if negb (auth_ok res) then
          {| ar_api := api; ar_net := [NetAuth];
             ar_value := Threw "Auth failed" |}
        else
          let tok := token_of (auth_data res) in
          let api' := {| apiKey := apiKey api; envId := envId api;
                         jwt := tok;
                         jwtExpiry := (now' + ASSUMED_LIFETIME)%Z |} in
          {| ar_api := api'; ar_net := [NetAuth]; ar_value := Returned tok |}
    end.

(** The answer of [fetch] to the stream request: the [ok] flag and the
    body as the reader hands it out, chunk by chunk (already decoded;
    the decoder runs in streaming mode, and no byte of a split
    character is a newline). The body ends normally, or a [read()]
    rejects after the chunks. *)
Record StreamBody : Type := mkStreamBody {
  res_ok : bool;
  res_chunks : list string;
  res_failure : option string;
}.

Section Streaming.
(** [JSON.parse] restricted to whether it returns a value or throws. *)
Context {J : Type} (parse : string -> option J).

(** The body of the [for] loop: what one line hands to [onEvent]. *)
Definition decode_line (line : string) : option J :=
  if negb (startsWith "data:" line) then None
  else parse (trim (slice_from 5 line)).

(** [lines.pop()]: the array without its last element, and that
    element. *)
Definition pop (lines : list string) : list string * string :=
  (removelast lines, List.last lines EmptyString).

(** The [while (true)] loop over the chunks the reader returns; the
    result collects the arguments of the [onEvent] calls in order. *)
Fixpoint read_loop (buffer : string) (chunks : list string) : list J :=
  match chunks with
  | [] => []
  | value :: rest =>
      let buffer1 := buffer +:+ value in
      let '(lines, buffer2) := pop (split_nl buffer1) in
      omap decode_line lines ++ read_loop buffer2 rest
  end.

(** What one call of [streamResponse] did. *)
Record StreamResult : Type := mkStreamResult {
  sr_events : list J;
  sr_value : Outcome unit;
}.

(** [streamResponse(workflowId, runId, onEvent)], after the token:
    [tok] is what [getAuthToken] gave and [res] the answer of
    [fetch]. *)
Definition streamResponse (tok : Outcome (option string))
    (res : Outcome StreamBody) : StreamResult :=
  match tok with
  | Threw msg => {| sr_events := []; sr_value := Threw msg |}
  | Returned _ =>
      match res with
      | Threw msg => {| sr_events := []; sr_value := Threw msg |}
      | Returned body =>
          if negb (res_ok body) then
            {| sr_events := []; sr_value := Returned tt |}
          else
            {| sr_events := read_loop EmptyString (res_chunks body);
               sr_value := match res_failure body with
                           | Some msg => Threw msg
                           | None => Returned tt
                           end |}
      end
  end.

End Streaming.

End Api.

(** ** state.js: the application state, its event bus and the job list *)

Module State.
Import Js.

(** A job of the list kept under [state.jobs]. *)
Record Job : Type := mkJob {
  job_id : nat;
  job_name : string;
  job_status : string;
  job_workspaceId : option string;
  job_workflowId : option string;
  job_runId : option string;
  job_isLive : bool;
  job_startedAt : Z;
  job_completedAt : option Z;
  job_docId : option string;
  job_statusText : string;
}.

(** The object literals handed to [updateJob]: a field that is absent
    leaves the job's field as it is. *)
Record JobUpdates : Type := mkUpdates {
  u_status : option string;
  u_completedAt : option Z;
  u_statusText : option string;
}.

(** [Object.assign(job, updates)] *)
Definition assign (job : Job) (u : JobUpdates) : Job :=
  {| job_id := job_id job;
     job_name := job_name job;
     job_status := default (job_status job) (u_status u);
     job_workspaceId := job_workspaceId job;
     job_workflowId := job_workflowId job;
     job_runId := job_runId job;
     job_isLive := job_isLive job;
     job_startedAt := job_startedAt job;
     job_completedAt := match u_completedAt u with
                        | Some t => Some t
                        | None => job_completedAt job
                        end;
     job_docId := job_docId job;
     job_statusText := default (job_statusText job) (u_statusText u) |}.

(** A document of the catalog, as [mapDoc] builds it; the fields that
    only the views read (type, date, parent) are left out. *)
Record Doc : Type := mkDoc {
  doc_id : string;
  doc_title : string;
  doc_source : option string;
}.

Record Workspace : Type := mkWorkspace {
  ws_id : string;
  ws_name : string;
}.

(** Callbacks armed with [setTimeout]. *)
Inductive TimerAction : Type :=
| CompleteJobLater (jobId : nat)
| DemoAnswerLater (contextKey answer : string).

Record Timer : Type := mkTimer {
  timer_due : Z;
  timer_action : TimerAction;
}.

(** One [events.emit(topic, payload)]; a payload that is an object of
    the state is recorded as it is at the time of the call. *)
Inductive Event : Type :=
| JobsChanged (jobs : list Job)
| DocumentsChanged (docs : list Doc)
| WorkspaceMembers (wsId : string) (memberIds : list string)
| ResearchCompleted (jobId : nat)
| ChatUserMessage (contextKey question : string)
| ChatThinking (contextKey : string)
| ChatResponse (contextKey answer : string)
| ChatError (contextKey error : string).

(** The [state] object with what the program does to its surroundings:
    events emitted (oldest first), values written under
    [STORAGE_KEYS.JOBS], requests sent and timers armed. *)
Record World : Type := mkWorld {
  liveMode : bool;
  api : option Api.VertesiaAPI;
  workspaces : list Workspace;
  allDocuments : list Doc;
  collectionMembers : gmap string (list string);
  jobs : list Job;
  emitted : list Event;
  savedJobs : list (list Job);
  net : list Api.NetCall;
  timers : list Timer;
}.

Definition emit (e : Event) (w : World) : World :=
  {| liveMode := liveMode w; api := api w; workspaces := workspaces w;
     allDocuments := allDocuments w;
     collectionMembers := collectionMembers w; jobs := jobs w;
     emitted := emitted w ++ [e]; savedJobs := savedJobs w;
     net := net w; timers := timers w |}.

Definition request (c : Api.NetCall) (w : World) : World :=
  {| liveMode := liveMode w; api := api w; workspaces := workspaces w;
     allDocuments := allDocuments w;
     collectionMembers := collectionMembers w; jobs := jobs w;
     emitted := emitted w; savedJobs := savedJobs w;
     net := net w ++ [c]; timers := timers w |}.

(** [setTimeout(action, delay)] called when the clock reads [now]. *)
Definition setTimeout (now delay : Z) (a : TimerAction) (w : World) : World :=
  {| liveMode := liveMode w; api := api w; workspaces := workspaces w;
     allDocuments := allDocuments w;
     collectionMembers := collectionMembers w; jobs := jobs w;
     emitted := emitted w; savedJobs := savedJobs w; net := net w;
     timers := timers w ++ [{| timer_due := (now + delay)%Z;
                               timer_action := a |}] |}.

Definition set_jobs (js : list Job) (w : World) : World :=
  {| liveMode := liveMode w; api := api w; workspaces := workspaces w;
     allDocuments := allDocuments w;
     collectionMembers := collectionMembers w; jobs := js;
     emitted := emitted w; savedJobs := savedJobs w; net := net w;
     timers := timers w |}.

(** [_saveJobs()] *)
Definition saveJobs (w : World) : World :=
  {| liveMode := liveMode w; api := api w; workspaces := workspaces w;
     allDocuments := allDocuments w;
     collectionMembers := collectionMembers w; jobs := jobs w;
     emitted := emitted w; savedJobs := savedJobs w ++ [jobs w];
     net := net w; timers := timers w |}.

(** [setDocuments(docs)] *)
Definition setDocuments (docs : list Doc) (w : World) : World :=
  emit (DocumentsChanged docs)
    {| liveMode := liveMode w; api := api w; workspaces := workspaces w;
       allDocuments := docs;
       collectionMembers := collectionMembers w; jobs := jobs w;
       emitted := emitted w; savedJobs := savedJobs w; net := net w;
       timers := timers w |}.

(** [setCollectionMembers(wsId, memberIds)] *)
Definition setCollectionMembers (wsId : string) (memberIds : list string)
    (w : World) : World :=
  emit (WorkspaceMembers wsId memberIds)
    {| liveMode := liveMode w; api := api w; workspaces := workspaces w;
       allDocuments := allDocuments w;
       collectionMembers := <[wsId := memberIds]> (collectionMembers w);
       jobs := jobs w;
       emitted := emitted w; savedJobs := savedJobs w; net := net w;
       timers := timers w |}.

(** What [this.collectionMembers[wsId]] evaluates to: a list of
    member ids, a falsy value ([undefined], an empty text, zero), or
    a truthy value that is no array and has no method [map]. *)
Inductive Members : Type :=
| MemberIds (memberIds : list string)
| NoMembers
| NotAList.

(** [collectionMembers[wsId]]. The object starts as [{}] and is
    written by [setCollectionMembers] only, so what it carries itself
    are the entries of the map under every name but [__proto__]; the
    assignment under [__proto__] runs the setter of
    [Object.prototype] and makes the array the prototype of the
    object, which the map records as its entry under [__proto__].
    A name that the object does not carry is then looked up on that
    array (its elements by index, its [length], the names of
    [Array.prototype]) and on [Object.prototype]. *)
Definition members_of (wsId : string) (m : gmap string (list string))
    : Members :=
  match m !! wsId with
  | Some memberIds => MemberIds memberIds
  | None =>
      if String.eqb wsId "__proto__" then NotAList
      else
        match m !! "__proto__" with
        | Some proto =>
            match array_index wsId with
            | Some i =>
                if (i <? N.of_nat (length proto))%N
                then (if String.eqb (nth (N.to_nat i) proto "") ""
                      then NoMembers else NotAList)
                else NoMembers
            | None =>
                if String.eqb wsId "length"
                then (if Nat.eqb (length proto) 0 then NoMembers else NotAList)
                else if on_array_prototype wsId || on_object_prototype wsId
                     then NotAList
                     else NoMembers
            end
        | None => if on_object_prototype wsId then NotAList else NoMembers
        end
  end.

(** The message of the [TypeError] for a call of [memberIds.map] on a
    value without that method, in the wording of V8. *)
Definition NOT_A_FUNCTION : string := "memberIds.map is not a function".

(** [workspaceDocs(wsId)] *)
Definition workspaceDocs (wsId : string) (w : World) : Outcome (list Doc) :=
  match members_of wsId (collectionMembers w) with
  | MemberIds memberIds =>
      Returned
        (omap (fun i => find (fun d => String.eqb (doc_id d) i)
                             (allDocuments w))
              memberIds)
  | NoMembers => Returned []
  | NotAList => Threw NOT_A_FUNCTION
  end.

Definition has_id (jobId : nat) (j : Job) : bool := Nat.eqb (job_id j) jobId.

(** [addJob(job)] *)
Definition addJob (job : Job) (w : World) : World :=
  let w1 := saveJobs (set_jobs (job :: jobs w) w) in
  emit (JobsChanged (jobs w1)) w1.

(** The job list after [Object.assign] on the first job with that id:
    the job that [find] returns is the one that changes. *)
Fixpoint assign_first (jobId : nat) (u : JobUpdates) (js : list Job)
    : list Job :=
  match js with
  | [] => []
  | j :: r => if has_id jobId j then assign j u :: r
              else j :: assign_first jobId u r
  end.

(** [updateJob(jobId, updates)] *)
Definition updateJob (jobId : nat) (u : JobUpdates) (w : World) : World :=
  match find (has_id jobId) (jobs w) with
  | Some _ =>
      let w1 := saveJobs (set_jobs (assign_first jobId u (jobs w)) w) in
      emit (JobsChanged (jobs w1)) w1
  | None => w
  end.

(** [removeJob(jobId)] *)
Definition removeJob (jobId : nat) (w : World) : World :=
  let w1 := saveJobs
              (set_jobs (List.filter (fun j => negb (has_id jobId j)) (jobs w)) w) in
  emit (JobsChanged (jobs w1)) w1.

End State.

(** ** research.js: the job lifecycle *)

Module Research.
Import Js State.

(** An object of the catalog as the service lists it, with the
    properties that [completeJob] and [mapDoc] read. *)
Record ApiObject : Type := mkApiObject {
  obj_id : string;
  obj_name : option string;
  obj_content_source : option string;
}.

(** [mapDoc(obj)] *)
Definition mapDoc (o : ApiObject) : Doc :=
  {| doc_id := obj_id o;
     doc_title := if truthy (obj_name o) then default "" (obj_name o)
                  else "Untitled";
     doc_source := obj_content_source o |}.

(** [bucketStatus(message)]; [None] is the [null] result. *)
Definition bucketStatus (message : string) : option string :=
  let msg := toLowerCase message in
  if includes "search" msg || includes "finding" msg || includes "looking" msg
  then Some "Researching..."
  else if includes "writ" msg || includes "compil" msg
          || includes "generat" msg || includes "upload" msg
  then Some "Finalizing..."
  else if includes "start" msg || includes "initializ" msg || includes "plan" msg
  then Some "Starting..."
  else None.

(** What the environment answers while [completeJob] runs: the clock,
    the catalog and the ids of the members of the job's workspace. *)
Record Completion : Type := mkCompletion {
  c_now : Z;
  c_objects : Outcome (list ApiObject);
  c_members : Outcome (list string);
}.

(** The object literal that [completeJob] hands to [updateJob]. *)
Definition completion_updates (env : Completion) : JobUpdates :=
  {| u_status := Some "completed";
     u_completedAt := Some (c_now env);
     u_statusText := Some "Complete" |}.

(** The block of [completeJob] under [if (state.api)]: the catalog is
    loaded again and, for a job of a workspace, the members of that
    workspace; a failure of either request ends the block. *)
Definition reload_catalog (jobId : nat) (env : Completion) (w : World) : World :=
  match api w with
  | None => w
  | Some _ =>
      let w1 := request Api.NetLoadAllObjects w in
      match c_objects env with
      | Threw _ => w1
      | Returned objects =>
          let docs :=
            map mapDoc
                (List.filter (fun o => truthy (obj_content_source o)) objects) in
          let w2 := setDocuments docs w1 in
          match find (has_id jobId) (jobs w2) with
          | Some job =>
              if truthy (job_workspaceId job) then
                let wsId := default "" (job_workspaceId job) in
                let w3 := request (Api.NetGetCollectionMembers wsId) w2 in
                match c_members env with
                | Threw _ => w3
                | Returned members => setCollectionMembers wsId members w3
                end
              else w2
          | None => w2
          end
      end
  end.

(** [completeJob(jobId)]. No test of the job's status comes first. *)
Definition completeJob (jobId : nat) (env : Completion) (w : World) : World :=
  emit (ResearchCompleted jobId)
    (reload_catalog jobId env (updateJob jobId (completion_updates env) w)).

Definition MAX_ATTEMPTS : nat := 120.
Definition POLL_INTERVAL : Z := 5000.
Definition DEMO_DELAY : Z := 8000.

(** The variables that one call of [pollForCompletion] closes over. *)
Record Poller : Type := mkPoller {
  p_workflowId : string;
  p_runId : string;
  attempts : nat;
  intervalActive : bool;
}.

(** The module's variables next to the world: [_nextJobId] and the
    pollers that are alive, by job id. *)
Record Tracker : Type := mkTracker {
  world : World;
  nextJobId : nat;
  pollers : gmap nat Poller;
}.

Definition with_world (f : World -> World) (t : Tracker) : Tracker :=
  {| world := f (world t); nextJobId := nextJobId t; pollers := pollers t |}.

Definition set_poller (jobId : nat) (p : Poller) (t : Tracker) : Tracker :=
  {| world := world t; nextJobId := nextJobId t;
     pollers := <[jobId := p]> (pollers t) |}.

Definition clearInterval (jobId : nat) (p : Poller) (t : Tracker) : Tracker :=
  set_poller jobId
    {| p_workflowId := p_workflowId p; p_runId := p_runId p;
       attempts := attempts p; intervalActive := false |} t.

(** A request through [state.api]: with no client the property access
    throws before anything is sent. *)
Definition request_via_api (c : Api.NetCall) (w : World) : World :=
  match api w with
  | Some _ => request c w
  | None => w
  end.

(** [pollForCompletion(jobId, workflowId, runId)] up to its first
    suspension: the stream is opened and the interval armed. *)
Definition pollForCompletion (jobId : nat) (workflowId runId : string)
    (t : Tracker) : Tracker :=
  set_poller jobId
    {| p_workflowId := workflowId; p_runId := runId;
       attempts := 0; intervalActive := true |}
    (with_world (request_via_api (Api.NetStream workflowId runId)) t).

(** The argument of [createJob]. *)
Record JobParams : Type := mkJobParams {
  jp_name : string;
  jp_workspaceId : option string;
  jp_workflowId : option string;
  jp_runId : option string;
  jp_isLive : bool;
}.

(** [x || null] *)
Definition or_null (v : option string) : option string :=
  if truthy v then v else None.

(** [createJob({ name, workspaceId, workflowId, runId, isLive })]; the
    result is the new job's id. *)
Definition createJob (p : JobParams) (now : Z) (t : Tracker) : nat * Tracker :=
  let n := S (nextJobId t) in
  let job :=
    {| job_id := n;
       job_name := jp_name p;
       job_status := "running";
       job_workspaceId := or_null (jp_workspaceId p);
       job_workflowId := or_null (jp_workflowId p);
       job_runId := or_null (jp_runId p);
       job_isLive := jp_isLive p;
       job_startedAt := now;
       job_completedAt := None;
       job_docId := None;
       job_statusText := "Starting..." |} in
  let t1 := {| world := addJob job (world t); nextJobId := n;
               pollers := pollers t |} in
  let t2 :=
    if jp_isLive p && truthy (jp_workflowId p) && truthy (jp_runId p) then
      pollForCompletion n (default "" (jp_workflowId p))
                        (default "" (jp_runId p)) t1
    else if negb (jp_isLive p) then
      with_world (setTimeout now DEMO_DELAY (CompleteJobLater n)) t1
    else t1 in
  (n, t2).

(** The body of a run status answer: [status], [result.status] and
    [result.message]. *)
Record Run : Type := mkRun {
  run_status : option string;
  run_result_status : option string;
  run_result_message : option string;
}.

(** The event objects of the stream, with the two properties that the
    callbacks read. *)
Record StreamData : Type := mkStreamData {
  data_type : option string;
  data_message : option string;
}.

Definition is_type (ty : string) (d : StreamData) : bool :=
  match data_type d with
  | Some s => String.eqb s ty
  | None => false
  end.

(** What can happen to the tracker after a job was created: the
    interval of a job's poller fires, the status request of an earlier
    tick is answered, the job's stream delivers an event, or a timer
    comes due. *)
Inductive Signal : Type :=
| Tick (jobId : nat)
| Reply (jobId : nat) (run : Outcome (option Run)) (env : Completion)
| StreamEvent (jobId : nat) (data : StreamData) (env : Completion)
| TimerFired (jobId : nat) (env : Completion).

(** The callback of [setInterval] up to its [await]. *)
Definition on_tick (jobId : nat) (t : Tracker) : Tracker :=
  match pollers t !! jobId with
  | Some p =>
      if intervalActive p then
        let p1 := {| p_workflowId := p_workflowId p; p_runId := p_runId p;
                     attempts := S (attempts p);
                     intervalActive := intervalActive p |} in
        let t1 := set_poller jobId p1 t in
        if Nat.ltb MAX_ATTEMPTS (attempts p1) then
          with_world
            (updateJob jobId {| u_status := Some "failed";
                                u_completedAt := None;
                                u_statusText := Some "Timed out" |})
            (clearInterval jobId p1 t1)
        else
          with_world
            (request_via_api
               (Api.NetGetRunStatus (p_workflowId p) (p_runId p))) t1
      else t
  | None => t
  end.

(** [run?.status || run?.result?.status] *)
Definition status_of (run : option Run) : option string :=
  match run with
  | Some r => or_else (run_status r) (run_result_status r)
  | None => None
  end.

Definition status_is (s : string) (v : option string) : bool :=
  match v with
  | Some x => String.eqb x s
  | None => false
  end.

(** The callback of [setInterval] after its [await]. *)
Definition on_reply (jobId : nat) (run : Outcome (option Run))
    (env : Completion) (t : Tracker) : Tracker :=
  match pollers t !! jobId with
  | Some p =>
      match run with
      | Threw _ => t
      | Returned r =>
          let status := status_of r in
          if status_is "completed" status || status_is "succeeded" status then
            with_world (completeJob jobId env) (clearInterval jobId p t)
          else if status_is "failed" status || status_is "error" status then
            with_world
              (updateJob jobId {| u_status := Some "failed";
                                  u_completedAt := None;
                                  u_statusText := Some "Research failed" |})
              (clearInterval jobId p t)
          else t
      end
  | None => t
  end.

(** The callback that [streamJobStatus] hands to [streamResponse]. *)
Definition on_stream_event (jobId : nat) (data : StreamData)
    (env : Completion) (t : Tracker) : Tracker :=
  match pollers t !! jobId with
  | Some _ =>
      let t1 :=
        if is_type "update" data && truthy (data_message data) then
          match bucketStatus (default "" (data_message data)) with
          | Some bucket =>
              with_world
                (updateJob jobId {| u_status := None; u_completedAt := None;
                                    u_statusText := Some bucket |}) t
          | None => t
          end
        else t in
      if is_type "answer" data
      then with_world (completeJob jobId env) t1
      else t1
  | None => t
  end.

Definition is_due (now : Z) (jobId : nat) (tm : Timer) : bool :=
  match timer_action tm with
  | CompleteJobLater j => Nat.eqb j jobId && (timer_due tm <=? now)%Z
  | DemoAnswerLater _ _ => false
  end.

(** The first timer of the job that is due leaves the list. *)
Fixpoint disarm (now : Z) (jobId : nat) (l : list Timer) : list Timer :=
  match l with
  | [] => []
  | tm :: r => if is_due now jobId tm then r else tm :: disarm now jobId r
  end.

Definition set_timers (l : list Timer) (w : World) : World :=
  {| liveMode := liveMode w; api := api w; workspaces := workspaces w;
     allDocuments := allDocuments w;
     collectionMembers := collectionMembers w; jobs := jobs w;
     emitted := emitted w; savedJobs := savedJobs w; net := net w;
     timers := l |}.

(** The timer that [createJob] armed for a demo job runs
    [completeJob] once its delay has passed. *)
Definition on_timer (jobId : nat) (env : Completion) (t : Tracker) : Tracker :=
  if existsb (is_due (c_now env) jobId) (timers (world t)) then
    with_world
      (fun w => completeJob jobId env
                  (set_timers (disarm (c_now env) jobId (timers w)) w)) t
  else t.

Definition step (s : Signal) (t : Tracker) : Tracker :=
  match s with
  | Tick j => on_tick j t
  | Reply j run env => on_reply j run env t
  | StreamEvent j data env => on_stream_event j data env t
  | TimerFired j env => on_timer j env t
  end.

(** The signals of a trace, handled one after the other. *)
Definition run (trace : list Signal) (t : Tracker) : Tracker :=
  fold_left (fun acc s => step s acc) trace t.

End Research.

(** ** chat.js: histories per context and chat turns *)

Module Chat.
Import Js State.

Record ChatMessage : Type := mkMessage {
  role : string;
  content : string;
  time : Z;
}.

(** The module's variables next to the world: [_histories] and
    [_activeStream]. Context keys are built by the two send functions
    and start with [doc:] or [ws:], so none of them names a property
    that every object inherits. *)
Record Session : Type := mkSession {
  world : World;
  histories : gmap string (list ChatMessage);
  activeStream : option (string * string);
}.

Definition with_world (f : World -> World) (s : Session) : Session :=
  {| world := f (world s); histories := histories s;
     activeStream := activeStream s |}.

Definition set_active (a : option (string * string)) (s : Session) : Session :=
  {| world := world s; histories := histories s; activeStream := a |}.

Definition HISTORY_LIMIT : nat := 20.

(** [getHistory(contextKey)] on the map of histories. *)
Definition history_of (contextKey : string)
    (h : gmap string (list ChatMessage)) : list ChatMessage :=
  default [] (h !! contextKey).

(** [addMessage(contextKey, role, content)] on the map of histories. *)
Definition push_message (contextKey : string) (m : ChatMessage)
    (h : gmap string (list ChatMessage)) : gmap string (list ChatMessage) :=
  let pushed := history_of contextKey h ++ [m] in
  <[contextKey :=
      if Nat.ltb HISTORY_LIMIT (length pushed)
      then slice_last HISTORY_LIMIT pushed
      else pushed]> h.

Definition getHistory (contextKey : string) (s : Session) : list ChatMessage :=
  history_of contextKey (histories s).

Definition addMessage (contextKey role content : string) (now : Z)
    (s : Session) : Session :=
  {| world := world s;
     histories := push_message contextKey
                    {| role := role; content := content; time := now |}
                    (histories s);
     activeStream := activeStream s |}.

(** [clearHistory(contextKey)] *)
Definition clearHistory (contextKey : string) (s : Session) : Session :=
  {| world := world s; histories := delete contextKey (histories s);
     activeStream := activeStream s |}.

(** [cancelActiveStream()] *)
Definition cancelActiveStream (s : Session) : Session := set_active None s.

(** *** The regular expression of [extractAnswer]

    [/\*\*3\.\s*Agent Answer:\*\*\s*([\s\S]*?)(?=\*\*\d+\.|$)/i].
    The pattern holds ASCII characters only, so a code unit matches
    one of its letters, case ignored, when both have the same lower
    case, and matches another of its characters when it is that
    character. *)

(** A literal of the pattern at the head of [s], case ignored: what
    follows it. *)
Fixpoint after_literal (lit s : string) : option string :=
  match lit, s with
  | EmptyString, _ => Some s
  | String a lit', String b s' =>
      if Ascii.eqb (lower a) (lower b) then after_literal lit' s' else None
  | String _ _, EmptyString => None
  end.

(** [\*\*3\.\s*Agent Answer:\*\*] at the head of [s]: what follows it. *)
Definition after_marker (s : string) : option string :=
  match after_literal "**3." s with
  | Some r => after_literal "Agent Answer:**" (trimStart r)
  | None => None
  end.

(** [\d*\.] at the head of [s]. *)
Fixpoint digits_dot (s : string) : bool :=
  match s with
  | EmptyString => false
  | String c r => if is_digit c then digits_dot r else Ascii.eqb c "."
  end.

(** The alternative [\*\*\d+\.] of the lookahead, at the head of [s]. *)
Definition at_section (s : string) : bool :=
  match s with
  | String a (String b (String d r)) =>
      Ascii.eqb a "*" && Ascii.eqb b "*" && is_digit d && digits_dot r
  | _ => false
  end.

(** [([\s\S]*?)(?=\*\*\d+\.|$)]: the shortest prefix of [s] that a
    section marker or the end of the text follows. *)
Fixpoint capture (s : string) : string :=
  if at_section s then EmptyString
  else match s with
       | EmptyString => EmptyString
       | String c r => String c (capture r)
       end.

(** [fullMessage.match(...)]: the first group of the leftmost match. *)
Fixpoint regex_match (s : string) : option string :=
  match after_marker s with
  | Some r => Some (capture (trimStart r))
  | None =>
      match s with
      | EmptyString => None
      | String _ r => regex_match r
      end
  end.

(** [extractAnswer(fullMessage)] *)
Definition extractAnswer (fullMessage : string) : string :=
  match regex_match fullMessage with
  | Some group => trim group
  | None => fullMessage
  end.

(** *** Chat turns *)

Definition nl : string := String newline EmptyString.
Definition dquote : string := String (ascii_of_N 34) EmptyString.

(** One line of the [Previous conversation] block. *)
Definition history_line (m : ChatMessage) : string :=
  (if String.eqb (role m) "user" then "User" else "Assistant")
    +:+ ": " +:+ content m.

(** The block of earlier turns that both send functions add to the
    task when the history has more than two messages. *)
Definition history_block (history : list ChatMessage) : string :=
  if Nat.ltb 2 (length history) then
    "Previous conversation:" +:+ nl
      +:+ join_nl (map history_line (slice_last_but_one 10 history))
      +:+ nl +:+ nl
  else EmptyString.

Definition doc_task (docId docTitle question : string)
    (history : list ChatMessage) : string :=
  "DOCUMENT CONTEXT: Analyze document ID " +:+ docId +:+ " (" +:+ docTitle
    +:+ ")" +:+ nl +:+ nl +:+ history_block history
    +:+ "Current question: " +:+ question.

Definition doc_line (d : Doc) : string :=
  "- " +:+ doc_title d +:+ " (ID: " +:+ doc_id d +:+ ")".

Definition workspace_task (wsName question : string) (docs : list Doc)
    (history : list ChatMessage) : string :=
  "WORKSPACE CONTEXT: " +:+ dquote +:+ wsName +:+ dquote +:+ nl
    +:+ "Documents in workspace:" +:+ nl
    +:+ join_nl (map doc_line docs) +:+ nl +:+ nl
    +:+ history_block history +:+ "Question: " +:+ question.

Definition doc_demo_answer (docTitle : string) : string :=
  "This is a demo response about " +:+ dquote +:+ docTitle +:+ dquote
    +:+ ". In live mode, Scout would analyze the document and provide insights based on your question.".

Definition workspace_demo_answer (wsName : string) : string :=
  "Demo response for workspace " +:+ dquote +:+ wsName +:+ dquote
    +:+ ". In live mode, Scout would analyze all documents in this workspace.".

Definition DEMO_DELAY : Z := 1500.

(** What the environment does during one live turn: the clock when the
    question is appended, the answer to the execute request, the events
    that the stream hands to the callback (each with the clock at that
    moment), how the stream ends, whether the marker of the active
    stream was cleared from outside while the stream was read, and the
    answer to the status request with the clock after it. *)
Record Turn : Type := mkTurn {
  turn_now : Z;
  turn_execute : Outcome (string * string);
  turn_events : list (Z * Research.StreamData);
  turn_stream_end : Outcome unit;
  turn_cancelled : bool;
  turn_status : Outcome (option Research.Run);
  turn_status_now : Z;
}.

(** An answer reaches the user: appended to the history, then
    announced. *)
Definition deliver (contextKey message : string) (now : Z) (s : Session)
    : Session :=
  let answer := extractAnswer message in
  with_world (emit (ChatResponse contextKey answer))
             (addMessage contextKey "assistant" answer now s).

Definition is_answer (data : Research.StreamData) : bool :=
  Research.is_type "answer" data && truthy (Research.data_message data).

(** The stream callback of [sendDocChat]. *)
Definition on_doc_event (contextKey : string) (s : Session)
    (ev : Z * Research.StreamData) : Session :=
  if is_answer (snd ev) then
    set_active None
      (deliver contextKey (default "" (Research.data_message (snd ev)))
               (fst ev) s)
  else s.

(** The stream callback of [sendWorkspaceChat]. *)
Definition on_workspace_event (contextKey : string) (s : Session)
    (ev : Z * Research.StreamData) : Session :=
  if is_answer (snd ev) then
    deliver contextKey (default "" (Research.data_message (snd ev)))
            (fst ev) s
  else s.

Definition fail (contextKey error : string) (s : Session) : Session :=
  with_world (emit (ChatError contextKey error)) s.

Definition is_live (s : Session) : bool :=
  liveMode (world s) && bool_decide (is_Some (api (world s))).

(** [sendDocChat(docId, docTitle, question)] *)
Definition sendDocChat (docId docTitle question : string) (env : Turn)
    (s : Session) : Session :=
  let contextKey := "doc:" +:+ docId in
  let s1 := with_world (emit (ChatUserMessage contextKey question))
              (addMessage contextKey "user" question (turn_now env) s) in
  if negb (is_live s1) then
    with_world (setTimeout (turn_now env) DEMO_DELAY
                  (DemoAnswerLater contextKey (doc_demo_answer docTitle))) s1
  else
    let s2 := with_world (emit (ChatThinking contextKey)) s1 in
    let task := doc_task docId docTitle question (getHistory contextKey s2) in
    let s3 := with_world (request (Api.NetExecuteResearch task)) s2 in
    match turn_execute env with
    | Threw msg => set_active None (fail contextKey msg s3)
    | Returned (workflowId, runId) =>
        let s4 := with_world (request (Api.NetStream workflowId runId))
                    (set_active (Some (workflowId, runId)) s3) in
        let s5 := fold_left (on_doc_event contextKey) (turn_events env) s4 in
        let s6 := if turn_cancelled env then cancelActiveStream s5 else s5 in
        match turn_stream_end env with
        | Threw msg => set_active None (fail contextKey msg s6)
        | Returned _ =>
            match activeStream s6 with
            | None => s6
            | Some _ =>
                let s7 := with_world
                            (request (Api.NetGetRunStatus workflowId runId))
                            s6 in
                match turn_status env with
                | Threw msg => set_active None (fail contextKey msg s7)
                | Returned run =>
                    let message :=
                      match run with
                      | Some r => Research.run_result_message r
                      | None => None
                      end in
                    set_active None
                      (if truthy message
                       then deliver contextKey (default "" message)
                                    (turn_status_now env) s7
                       else fail contextKey "No response received" s7)
                end
            end
        end
    end.

(** [sendWorkspaceChat(wsId, wsName, question)] *)
Definition sendWorkspaceChat (wsId wsName question : string) (env : Turn)
    (s : Session) : Session :=
  let contextKey := "ws:" +:+ wsId in
  let s1 := with_world (emit (ChatUserMessage contextKey question))
              (addMessage contextKey "user" question (turn_now env) s) in
  if negb (is_live s1) then
    with_world (setTimeout (turn_now env) DEMO_DELAY
                  (DemoAnswerLater contextKey (workspace_demo_answer wsName)))
               s1
  else
    let s2 := with_world (emit (ChatThinking contextKey)) s1 in
    match workspaceDocs wsId (world s2) with
    | Threw msg => fail contextKey msg s2
    | Returned docs =>
        let task := workspace_task wsName question docs
                      (getHistory contextKey s2) in
        let s3 := with_world (request (Api.NetExecuteResearch task)) s2 in
        match turn_execute env with
        | Threw msg => fail contextKey msg s3
        | Returned (workflowId, runId) =>
            let s4 := with_world (request (Api.NetStream workflowId runId))
                        s3 in
            let s5 := fold_left (on_workspace_event contextKey)
                                (turn_events env) s4 in
            match turn_stream_end env with
            | Threw msg => fail contextKey msg s5
            | Returned _ => s5
            end
        end
    end.

End Chat.

(** ** Notions of the specification *)

Module Spec.
Import Js.

(** A text without a newline. *)
Fixpoint no_newline (s : string) : bool :=
  match s with
  | EmptyString => true
  | String c r => negb (Ascii.eqb c newline) && no_newline r
  end.

(** The text made of the given lines, each closed by a newline. *)
Fixpoint unlines (lines : list string) : string :=
  match lines with
  | [] => EmptyString
  | l :: r => l +:+ String newline (unlines r)
  end.

(** The text that a sequence of chunks carries. *)
Fixpoint concat_chunks (chunks : list string) : string :=
  match chunks with
  | [] => EmptyString
  | c :: r => c +:+ concat_chunks r
  end.

(** A well-formed frame: the prefix [data:] and then, white space
    around it aside, a text that parses as JSON. Every other line that
    starts with [data:] is malformed. *)
Definition well_formed {J} (parse : string -> option J) (line : string) : bool :=
  startsWith "data:" line
    && bool_decide (is_Some (parse (trim (slice_from 5 line)))).

Definition malformed {J} (parse : string -> option J) (line : string) : bool :=
  startsWith "data:" line
    && negb (bool_decide (is_Some (parse (trim (slice_from 5 line))))).

(** How often [research:completed] was emitted for a job. *)
Definition is_completed_event (jobId : nat) (e : State.Event) : bool :=
  match e with
  | State.ResearchCompleted j => Nat.eqb j jobId
  | _ => false
  end.

Definition completed_events (jobId : nat) (l : list State.Event) : nat :=
  length (List.filter (is_completed_event jobId) l).

(** How often the catalog was requested. *)
Definition is_reload (c : Api.NetCall) : bool :=
  match c with
  | Api.NetLoadAllObjects => true
  | _ => false
  end.

Definition reloads (l : list Api.NetCall) : nat :=
  length (List.filter is_reload l).

(** The service statuses that end the polling. *)
Definition reports_success (run : Outcome (option Research.Run)) : bool :=
  match run with
  | Returned r =>
      let st := Research.status_of r in
      Research.status_is "completed" st || Research.status_is "succeeded" st
  | Threw _ => false
  end.

Definition reports_failure (run : Outcome (option Research.Run)) : bool :=
  match run with
  | Returned r =>
      let st := Research.status_of r in
      Research.status_is "failed" st || Research.status_is "error" st
  | Threw _ => false
  end.

(** A signal that tells one of the observers of a job that the job is
    complete: an [answer] event of its stream, or a status answer that
    reports success. *)
Definition is_completion_signal (jobId : nat) (s : Research.Signal) : bool :=
  match s with
  | Research.StreamEvent j data _ =>
      Nat.eqb j jobId && Research.is_type "answer" data
  | Research.Reply j run _ => Nat.eqb j jobId && reports_success run
  | _ => false
  end.

Definition completion_signals (jobId : nat) (trace : list Research.Signal) : nat :=
  length (List.filter (is_completion_signal jobId) trace).

(** The signal is a firing of the job's interval. *)
Definition is_tick (jobId : nat) (s : Research.Signal) : bool :=
  match s with
  | Research.Tick j => Nat.eqb j jobId
  | _ => false
  end.

Definition ticks (jobId : nat) (trace : list Research.Signal) : nat :=
  length (List.filter (is_tick jobId) trace).

(** A signal that brings no verdict on the job: not an [answer] of its
    stream, not a terminal status for it, not its demo timer. Signals
    of other jobs are of this kind. *)
Definition no_verdict (jobId : nat) (s : Research.Signal) : bool :=
  match s with
  | Research.Tick _ => true
  | Research.Reply j run _ =>
      negb (Nat.eqb j jobId) || negb (reports_success run || reports_failure run)
  | Research.StreamEvent j data _ =>
      negb (Nat.eqb j jobId) || negb (Research.is_type "answer" data)
  | Research.TimerFired j _ => negb (Nat.eqb j jobId)
  end.

(** The signal belongs to the job. *)
Definition for_job (jobId : nat) (s : Research.Signal) : bool :=
  match s with
  | Research.Tick j | Research.Reply j _ _
  | Research.StreamEvent j _ _ | Research.TimerFired j _ => Nat.eqb j jobId
  end.

(** No timer is armed to complete the job. *)
Definition no_timer_for (jobId : nat) (l : list State.Timer) : bool :=
  forallb (fun tm => match State.timer_action tm with
                     | State.CompleteJobLater j => negb (Nat.eqb j jobId)
                     | State.DemoAnswerLater _ _ => true
                     end) l.

(** A job that has a poller and no demo timer: a job with a live
    handle. *)
Definition observed (j : nat) (t : Research.Tracker) : Prop :=
  is_Some (Research.pollers t !! j)
  /\ no_timer_for j (State.timers (Research.world t)) = true.

(** The interval of the job is armed and has fired [a] times. *)
Definition polling (j a : nat) (t : Research.Tracker) : Prop :=
  exists p, Research.pollers t !! j = Some p
            /\ Research.attempts p = a
            /\ Research.intervalActive p = true.

(** One call of [addMessage]. *)
Record Append : Type := mkAppend {
  a_key : string;
  a_role : string;
  a_content : string;
  a_now : Z;
}.

Definition append (s : Chat.Session) (c : Append) : Chat.Session :=
  Chat.addMessage (a_key c) (a_role c) (a_content c) (a_now c) s.

(** A sequence of calls of [addMessage], in order. *)
Definition append_all (calls : list Append) (s : Chat.Session) : Chat.Session :=
  fold_left append calls s.

(** The messages that the calls add to one context, in order. *)
Definition appended (contextKey : string) (calls : list Append)
    : list Chat.ChatMessage :=
  map (fun c => {| Chat.role := a_role c; Chat.content := a_content c;
                   Chat.time := a_now c |})
      (List.filter (fun c => String.eqb (a_key c) contextKey) calls).

(** The text is a marker of the answer section: two asterisks, [3.],
    white space or none, [Agent Answer:] in any case of letters, two
    asterisks. *)
Definition is_marker (m : string) : bool :=
  startsWith "**3." m
    && String.eqb (toLowerCase (trimStart (slice_from 4 m))) "agent answer:**".

(** The text begins with such a marker. *)
Definition starts_with_marker (x : string) : bool :=
  startsWith "**3." x
    && startsWith "agent answer:**" (toLowerCase (trimStart (slice_from 4 x))).

(** No marker begins at a position of [pre] in the text [pre +:+ rest]. *)
Fixpoint no_marker_before (pre rest : string) : bool :=
  match pre with
  | EmptyString => true
  | String c pre' =>
      negb (starts_with_marker (pre +:+ rest)) && no_marker_before pre' rest
  end.

Fixpoint skip_digits (s : string) : string :=
  match s with
  | EmptyString => EmptyString
  | String c r => if is_digit c then skip_digits r else s
  end.

(** The text begins with the marker of a numbered section: two
    asterisks, one digit or more, a dot. *)
Definition starts_with_section (x : string) : bool :=
  match x with
  | String a (String b (String d r)) =>
      Ascii.eqb a "*" && Ascii.eqb b "*" && is_digit d
        && startsWith "." (skip_digits r)
  | _ => false
  end.

(** No section marker begins at a position of [body] in the text
    [body +:+ post]. *)
Fixpoint no_section_before (body post : string) : bool :=
  match body with
  | EmptyString => true
  | String c body' =>
      negb (starts_with_section (body +:+ post)) && no_section_before body' post
  end.

(** What may follow an answer: the end of the text, or the marker of
    the next section. *)
Definition ends_answer (post : string) : bool :=
  String.eqb post "" || starts_with_section post.

(** The events that end a chat turn for its context: the response or
    an error. *)
Definition is_report (contextKey : string) (e : State.Event) : bool :=
  match e with
  | State.ChatResponse k _ | State.ChatError k _ => String.eqb k contextKey
  | _ => false
  end.

Definition reports (contextKey : string) (l : list State.Event) : nat :=
  length (List.filter (is_report contextKey) l).

(** A JSON reader for the examples: a text that opens with a brace
    parses, to itself. *)
Definition braces_parse (s : string) : option string :=
  if startsWith "{" s then Some s else None.

End Spec.

(** ** Concrete worlds for the examples *)

Module Examples.
Import Js State Research.

Definition client : Api.VertesiaAPI := Api.new_api "key" "env".

Definition empty_world (live : bool) (c : option Api.VertesiaAPI) : World :=
  {| liveMode := live; api := c; workspaces := []; allDocuments := [];
     collectionMembers := ∅; jobs := []; emitted := []; savedJobs := [];
     net := []; timers := [] |}.

(** The tracker when the page has loaded. *)
Definition fresh (live : bool) (c : option Api.VertesiaAPI) : Tracker :=
  {| world := empty_world live c; nextJobId := 0; pollers := ∅ |}.

Definition live_params : JobParams :=
  {| jp_name := "SWOT Analysis"; jp_workspaceId := None;
     jp_workflowId := Some "wf-1"; jp_runId := Some "run-1";
     jp_isLive := true |}.


Definition at_time (now : Z) : Completion :=
  {| c_now := now; c_objects := Returned []; c_members := Returned [] |}.

Definition succeeded : Outcome (option Run) :=
  Returned (Some {| run_status := Some "succeeded";
                    run_result_status := None;
                    run_result_message := None |}).

Definition answer : StreamData :=
  {| data_type := Some "answer"; data_message := Some "done" |}.

(** A live job with a handle, just created at time 1000. *)
Definition live_job : Tracker := snd (createJob live_params 1000 (fresh true (Some client))).

Definition live_poller : Poller :=
  {| p_workflowId := "wf-1"; p_runId := "run-1"; attempts := 0;
     intervalActive := true |}.

Definition live_record : Job :=
  {| job_id := 1; job_name := "SWOT Analysis"; job_status := "running";
     job_workspaceId := None; job_workflowId := Some "wf-1";
     job_runId := Some "run-1"; job_isLive := true; job_startedAt := 1000;
     job_completedAt := None; job_docId := None;
     job_statusText := "Starting..." |}.

Definition empty_session (live : bool) (c : option Api.VertesiaAPI)
    : Chat.Session :=
  {| Chat.world := empty_world live c; Chat.histories := ∅;
     Chat.activeStream := None |}.

(** [n] questions put to one document. *)
Definition questions (n : nat) : list Spec.Append :=
  map (fun i => {| Spec.a_key := "doc:d1"; Spec.a_role := "user";
                   Spec.a_content := "why?"; Spec.a_now := Z.of_nat i |})
      (seq 0 n).

(** A turn whose stream narrates progress and ends without an
    [answer]; the run itself has a result by then. *)
Definition turn_without_answer : Chat.Turn :=
  {| Chat.turn_now := 1000;
     Chat.turn_execute := Returned ("wf-1", "run-1");
     Chat.turn_events :=
       [(1500%Z, {| data_type := Some "update";
                    data_message := Some "Searching filings" |})];
     Chat.turn_stream_end := Returned tt;
     Chat.turn_cancelled := false;
     Chat.turn_status :=
       Returned (Some {| run_status := Some "completed";
                         run_result_status := None;
                         run_result_message :=
                           Some "**3. Agent Answer:** Margins fell." |});
     Chat.turn_status_now := 3000 |}.

End Examples.

(** ** api.js: authenticated requests *)

From stdpp Require Import pretty.

Module Http.
Import Js Api.

(** The [options] handed to [call], as far as the callers set them. *)
Record Options : Type := mkOptions {
  opt_method : option string;
  opt_body : option string;
}.

(** The answer of [fetch] to an endpoint request. *)
Record Response : Type := mkResponse {
  http_ok : bool;
  http_status : N;
  http_text : string;
}.

(** The requests that one [call] sends: the credential exchange, and
    the endpoint request with its [Authorization] header. *)
Inductive Request : Type :=
| AuthRequest
| EndpointRequest (endpoint : string) (options : Options)
                  (authorization : string).

(** The template literal around a token; [undefined] is printed as
    such. *)
Definition bearer (token : option string) : string :=
  "Bearer " +:+ default "undefined" token.

Section Call.
(** [JSON.parse]: a value, or the error it throws. *)
Context {J : Type} (parse : string -> Outcome J).

(** What one [call] did: the client afterwards, the requests sent in
    order, and the result ([None] is [null]). *)
Record CallResult : Type := mkCallResult {
  cr_api : VertesiaAPI;
  cr_requests : list Request;
  cr_value : Outcome (option J);
}.

(** [call(endpoint, options)]. [now], [auth] and [now'] are for
    [getAuthToken]; [res] is the answer to the endpoint request. *)
Definition call (api : VertesiaAPI) (endpoint : string) (options : Options)
    (now : Z) (auth : Outcome AuthResponse) (now' : Z)
    (res : Outcome Response) : CallResult :=
  let a := getAuthToken api now auth now' in
  let sent := map (fun _ => AuthRequest) (ar_net a) in
  match ar_value a with
  | Threw msg =>
      {| cr_api := ar_api a; cr_requests := sent; cr_value := Threw msg |}
  | Returned token =>
      let sent' := sent ++ [EndpointRequest endpoint options (bearer token)] in
      match res with
      | Threw msg =>
          {| cr_api := ar_api a; cr_requests := sent'; cr_value := Threw msg |}
      | Returned r =>
          if negb (http_ok r) then
            {| cr_api := ar_api a; cr_requests := sent';
               cr_value := Threw ("API " +:+ pretty (http_status r)
                                    +:+ ": " +:+ endpoint) |}
          else if String.eqb (http_text r) "" then
            {| cr_api := ar_api a; cr_requests := sent';
               cr_value := Returned None |}
          else
            {| cr_api := ar_api a; cr_requests := sent';
               cr_value := match parse (http_text r) with
                           | Returned v => Returned (Some v)
                           | Threw msg => Threw msg
                           end |}
      end
  end.

End Call.

End Http.

(** ** state.js: the user's preferences *)

Module Prefs.
Import Js State.

Inductive PrefEvent : Type :=
| StarredChanged (docId : string) (starred : bool)
| PinnedChanged (wsId : string) (pinned : bool)
| CompletedChanged (wsId : string) (completed : bool)
| NotesChanged (docId : string).

(** What [saveSet] and [saveJSON] write: the key and the value at that
    moment (of a set, its elements). *)
Inductive Saved : Type :=
| SavedSet (key : string) (elements : gset string)
| SavedNotes (key : string) (notes : gmap string string).

(** The persisted preferences of [state], with the events emitted and
    the values written for them. *)
Record Prefs : Type := mkPrefs {
  starred : gset string;
  pinned : gset string;
  completed : gset string;
  notes : gmap string string;
  pref_emitted : list PrefEvent;
  pref_saved : list Saved;
}.

(** [set.has(x) ? set.delete(x) : set.add(x)] *)
Definition toggle (x : string) (s : gset string) : gset string :=
  if bool_decide (x ∈ s) then s ∖ {[x]} else s ∪ {[x]}.

(** [isStarred(docId)], [isPinned(wsId)], [isCompleted(wsId)] *)
Definition isStarred (docId : string) (p : Prefs) : bool :=
  bool_decide (docId ∈ starred p).
Definition isPinned (wsId : string) (p : Prefs) : bool :=
  bool_decide (wsId ∈ pinned p).
Definition isCompleted (wsId : string) (p : Prefs) : bool :=
  bool_decide (wsId ∈ completed p).

(** [toggleStar(docId)] *)
Definition toggleStar (docId : string) (p : Prefs) : Prefs :=
  let s := toggle docId (starred p) in
  {| starred := s; pinned := pinned p; completed := completed p;
     notes := notes p;
     pref_emitted := pref_emitted p
                       ++ [StarredChanged docId (bool_decide (docId ∈ s))];
     pref_saved := pref_saved p ++ [SavedSet "ml_starred" s] |}.

(** [togglePin(wsId)] *)
Definition togglePin (wsId : string) (p : Prefs) : Prefs :=
  let s := toggle wsId (pinned p) in
  {| starred := starred p; pinned := s; completed := completed p;
     notes := notes p;
     pref_emitted := pref_emitted p
                       ++ [PinnedChanged wsId (bool_decide (wsId ∈ s))];
     pref_saved := pref_saved p ++ [SavedSet "ml_pinned" s] |}.

(** [toggleComplete(wsId)] *)
Definition toggleComplete (wsId : string) (p : Prefs) : Prefs :=
  let s := toggle wsId (completed p) in
  {| starred := starred p; pinned := pinned p; completed := s;
     notes := notes p;
     pref_emitted := pref_emitted p
                       ++ [CompletedChanged wsId (bool_decide (wsId ∈ s))];
     pref_saved := pref_saved p ++ [SavedSet "ml_completed" s] |}.

(** What [this.notes[docId]] can be: a text, or the function or
    object that [Object.prototype] carries under that name. *)
Inductive Note : Type :=
| NoteText (text : string)
| NoteInherited (name : string).

(** [setNote(docId, text)]. [notes] is the object that [JSON.parse]
    made of the stored text, or [{}]; the map holds what the object
    carries itself. The assignment under [__proto__], when the
    object carries no such name, runs the setter of
    [Object.prototype], which ignores a text; [delete] takes away
    what the object carries itself. *)
Definition setNote (docId text : string) (p : Prefs) : Prefs :=
  let n := if negb (String.eqb (trim text) "")
           then if String.eqb docId "__proto__"
                   && negb (bool_decide (is_Some (notes p !! docId)))
                then notes p
                else <[docId := text]> (notes p)
           else delete docId (notes p) in
  {| starred := starred p; pinned := pinned p; completed := completed p;
     notes := n;
     pref_emitted := pref_emitted p ++ [NotesChanged docId];
     pref_saved := pref_saved p ++ [SavedNotes "ml_notes" n] |}.

(** [getNote(docId)]: [this.notes[docId] || '']. *)
Definition getNote (docId : string) (p : Prefs) : Note :=
  match notes p !! docId with
  | Some v => NoteText v
  | None => if on_object_prototype docId then NoteInherited docId
            else NoteText ""
  end.

(** The comparator of [sortedWorkspaces]: negative when [a] goes
    first, positive when [b] does. *)
Definition compare_workspaces (p : Prefs) (a b : Workspace) : Z :=
  let aPinned := isPinned (ws_id a) p in
  let bPinned := isPinned (ws_id b) p in
  if negb (Bool.eqb aPinned bPinned) then (if aPinned then -1 else 1)%Z
  else
    let aComplete := isCompleted (ws_id a) p in
    let bComplete := isCompleted (ws_id b) p in
    if negb (Bool.eqb aComplete bComplete)
    then (if aComplete then 1 else -1)%Z
    else 0%Z.

(** [Array.prototype.sort] is stable: elements that compare equal keep
    their order. With a comparator that is an ordering its result is
    that of this insertion sort. *)
Fixpoint insert_by {A} (cmp : A -> A -> Z) (x : A) (l : list A) : list A :=
  match l with
  | [] => [x]
  | y :: r => if (0 <? cmp x y)%Z then y :: insert_by cmp x r else x :: l
  end.

Fixpoint sort_by {A} (cmp : A -> A -> Z) (l : list A) : list A :=
  match l with
  | [] => []
  | x :: r => insert_by cmp x (sort_by cmp r)
  end.

(** [sortedWorkspaces] *)
Definition sortedWorkspaces (p : Prefs) (w : World) : list Workspace :=
  sort_by (compare_workspaces p) (workspaces w).

End Prefs.

(** ** router.js: tabs, view stacks, reader and sheets *)

Module Router.
Import Js.

Definition TABS : list string :=
  ["feed"; "library"; "research"; "workspaces"; "settings"].

(** The events of the router; the payload of a view is left out. *)
Inductive RouterEvent : Type :=
| TabChanged (tab : string)
| ViewPush (tab viewId : string)
| ViewPop (tab popped : string)
| ReaderOpen
| ReaderClose
| SheetOpen (sheetId : string)
| SheetClose (sheetId : string).

(** The module's variables, the number of entries pushed on the
    browser history and the events emitted. A stack lists its views
    from the root to the current one. What the functions do to the
    elements of the page is left out. *)
Record Router : Type := mkRouter {
  currentTab : string;
  stacks : gmap string (list string);
  readerOpen : bool;
  activeSheet : option string;
  pushedStates : nat;
  router_emitted : list RouterEvent;
}.

Definition initial : Router :=
  {| currentTab := "feed";
     stacks := list_to_map (map (fun t => (t, [t])) TABS);
     readerOpen := false; activeSheet := None; pushedStates := 0;
     router_emitted := [] |}.

Definition emit (e : RouterEvent) (r : Router) : Router :=
  {| currentTab := currentTab r; stacks := stacks r;
     readerOpen := readerOpen r; activeSheet := activeSheet r;
     pushedStates := pushedStates r;
     router_emitted := router_emitted r ++ [e] |}.

(** [closeReader()] *)
Definition closeReader (r : Router) : Router :=
  emit ReaderClose
    {| currentTab := currentTab r; stacks := stacks r; readerOpen := false;
       activeSheet := activeSheet r; pushedStates := pushedStates r;
       router_emitted := router_emitted r |}.

(** [openReader(docData)] *)
Definition openReader (r : Router) : Router :=
  emit ReaderOpen
    {| currentTab := currentTab r; stacks := stacks r; readerOpen := true;
       activeSheet := activeSheet r; pushedStates := S (pushedStates r);
       router_emitted := router_emitted r |}.

(** [TABS.includes(tab)] *)
Definition is_tab (tab : string) : bool :=
  existsb (String.eqb tab) TABS.

(** [switchTab(tab)] *)
Definition switchTab (tab : string) (r : Router) : Router :=
  if negb (is_tab tab) then r
  else
    let r1 := if readerOpen r then closeReader r else r in
    emit (TabChanged tab)
      {| currentTab := tab; stacks := stacks r1; readerOpen := readerOpen r1;
         activeSheet := activeSheet r1; pushedStates := pushedStates r1;
         router_emitted := router_emitted r1 |}.

(** [push(viewId, data)]; without a stack for the current tab the
    call throws before it has done anything. *)
Definition push (viewId : string) (r : Router) : Router :=
  match stacks r !! currentTab r with
  | Some stack =>
      emit (ViewPush (currentTab r) viewId)
        {| currentTab := currentTab r;
           stacks := <[currentTab r := stack ++ [viewId]]> (stacks r);
           readerOpen := readerOpen r; activeSheet := activeSheet r;
           pushedStates := S (pushedStates r);
           router_emitted := router_emitted r |}
  | None => r
  end.

(** [pop()] *)
Definition pop (r : Router) : Router :=
  match stacks r !! currentTab r with
  | Some stack =>
      if Nat.leb (length stack) 1 then r
      else
        emit (ViewPop (currentTab r) (List.last stack ""))
          {| currentTab := currentTab r;
             stacks := <[currentTab r := removelast stack]> (stacks r);
             readerOpen := readerOpen r; activeSheet := activeSheet r;
             pushedStates := pushedStates r;
             router_emitted := router_emitted r |}
  | None => r
  end.

(** [resetStack(tab)] *)
Definition resetStack (tab : string) (r : Router) : Router :=
  {| currentTab := currentTab r; stacks := <[tab := [tab]]> (stacks r);
     readerOpen := readerOpen r; activeSheet := activeSheet r;
     pushedStates := pushedStates r; router_emitted := router_emitted r |}.

(** The listener of [popstate] that [init] installs: the back button. *)
Definition on_popstate (r : Router) : Router :=
  if readerOpen r then closeReader r else pop r.

(** [closeSheet()] *)
Definition closeSheet (r : Router) : Router :=
  if negb (truthy (activeSheet r)) then r
  else
    emit (SheetClose (default "" (activeSheet r)))
      {| currentTab := currentTab r; stacks := stacks r;
         readerOpen := readerOpen r; activeSheet := None;
         pushedStates := pushedStates r;
         router_emitted := router_emitted r |}.

(** [openSheet(sheetId)] *)
Definition openSheet (sheetId : string) (r : Router) : Router :=
  let r1 := closeSheet r in
  emit (SheetOpen sheetId)
    {| currentTab := currentTab r1; stacks := stacks r1;
       readerOpen := readerOpen r1; activeSheet := Some sheetId;
       pushedStates := pushedStates r1;
       router_emitted := router_emitted r1 |}.

(** [getCurrentView()] and [getStackDepth()]; [None] where the source
    reads a stack that is not there. *)
Definition getCurrentView (r : Router) : option string :=
  match stacks r !! currentTab r with
  | Some stack => List.last (map Some stack) None
  | None => None
  end.

Definition getStackDepth (r : Router) : option nat :=
  length <$> stacks r !! currentTab r.

(** What the page can ask of the router. *)
Inductive Op : Type :=
| SwitchTab (tab : string)
| Push (viewId : string)
| Pop
| ResetStack (tab : string)
| OpenReader
| CloseReader
| Back
| OpenSheet (sheetId : string)
| CloseSheet.

Definition apply (r : Router) (o : Op) : Router :=
  match o with
  | SwitchTab tab => switchTab tab r
  | Push v => push v r
  | Pop => pop r
  | ResetStack tab => resetStack tab r
  | OpenReader => openReader r
  | CloseReader => closeReader r
  | Back => on_popstate r
  | OpenSheet s => openSheet s r
  | CloseSheet => closeSheet r
  end.

(** [init()] and then the operations, one after the other. *)
Definition run (ops : list Op) : Router :=
  fold_left apply ops (switchTab "feed" initial).

End Router.

(** ** research.js: validation, prompts and the start of a job *)

Module Start.
Import Js State Research.

(** [\w] *)
Definition is_word (c : ascii) : bool :=
  let n := code c in
  ((48 <=? n) && (n <=? 57) || (65 <=? n) && (n <=? 90)
   || (97 <=? n) && (n <=? 122) || (n =? 95))%N.

(** [BLOCKED_PATTERNS]: each pattern is [\b(w1|w2|...)\b] with the
    flag [i]; it is given by its words. *)
Definition BLOCKED_PATTERNS : list (list string) :=
  [ ["underwear"; "naked"; "nude"; "sex"; "porn"; "xxx"];
    ["kill"; "murder"; "bomb"; "weapon"; "drug"];
    ["hack"; "crack"; "pirate"; "steal"] ].

(** [\b] before a word: the character before, if any, is not of a
    word. *)
Definition boundary_before (prev : option ascii) : bool :=
  match prev with
  | None => true
  | Some c => negb (is_word c)
  end.

(** [\b] after a word: the character after, if any, is not of a word. *)
Definition boundary_after (rest : string) : bool :=
  match rest with
  | EmptyString => true
  | String c _ => negb (is_word c)
  end.

(** The pattern matches at the head of [s], which [prev] precedes. *)
Definition matches_here (words : list string) (prev : option ascii)
    (s : string) : bool :=
  boundary_before prev
    && existsb (fun w => match Chat.after_literal w s with
                         | Some rest => boundary_after rest
                         | None => false
                         end) words.

(** The pattern matches somewhere in [s]. *)
Fixpoint test_from (words : list string) (prev : option ascii) (s : string)
    : bool :=
  matches_here words prev s
    || match s with
       | EmptyString => false
       | String c r => test_from words (Some c) r
       end.

(** [p.test(text)] *)
Definition test (words : list string) (text : string) : bool :=
  test_from words None text.

Record Validation : Type := mkValidation {
  valid : bool;
  reason : option string;
}.

(** [validateContext(text)] *)
Definition validateContext (text : option string) : Validation :=
  if negb (truthy text) then {| valid := true; reason := None |}
  else if existsb (fun p => test p (default "" text)) BLOCKED_PATTERNS
  then {| valid := false;
          reason := Some "Please enter a financial services topic." |}
  else {| valid := true; reason := None |}.



Definition nl : string := Chat.nl.
Definition dquote : string := Chat.dquote.











Definition is_live (w : World) : bool :=
  liveMode w && bool_decide (is_Some (api w)).


End Start.

(** ** chat.js: the timer of the demo answers *)

Module DemoChat.
Import Js State Chat.



End DemoChat.

(** ** Further notions *)

Module Notions.
Import Js.

(** A text of white space only. *)
Fixpoint all_space (s : string) : bool :=
  match s with
  | EmptyString => true
  | String c r => is_space c && all_space r
  end.

(** A text of word characters only. *)
Fixpoint all_word (s : string) : bool :=
  match s with
  | EmptyString => true
  | String c r => Start.is_word c && all_word r
  end.

(** The last character of a text. *)
Fixpoint last_char (s : string) : option ascii :=
  match s with
  | EmptyString => None
  | String c EmptyString => Some c
  | String _ r => last_char r
  end.

(** The character before the position that follows [pre], when
    [prev] is the character before [pre]. *)
Definition before (prev : option ascii) (pre : string) : option ascii :=
  match last_char pre with
  | Some c => Some c
  | None => prev
  end.

(** The words of all blocked patterns. *)
Definition blocked_words : list string := concat Start.BLOCKED_PATTERNS.

(** What was written last under the key of the jobs is the job list. *)
Definition in_sync (w : State.World) : Prop :=
  last (State.savedJobs w) = Some (State.jobs w).

(** The rank of a workspace in the sorted list: pinned before the
    others, and in each of the two groups the completed last. *)
Definition rank (p : Prefs.Prefs) (w : State.Workspace) : nat :=
  (if Prefs.isPinned (State.ws_id w) p then 0 else 2)
  + (if Prefs.isCompleted (State.ws_id w) p then 1 else 0).

Definition of_rank (p : Prefs.Prefs) (k : nat) (l : list State.Workspace)
    : list State.Workspace :=
  List.filter (fun w => Nat.eqb (rank p w) k) l.

(** How often a chat response was emitted for a context. *)
Definition is_response (contextKey : string) (e : State.Event) : bool :=
  match e with
  | State.ChatResponse k _ => String.eqb k contextKey
  | _ => false
  end.

Definition responses (contextKey : string) (l : list State.Event) : nat :=
  length (List.filter (is_response contextKey) l).

Definition is_error (contextKey : string) (e : State.Event) : bool :=
  match e with
  | State.ChatError k _ => String.eqb k contextKey
  | _ => false
  end.

Definition errors (contextKey : string) (l : list State.Event) : nat :=
  length (List.filter (is_error contextKey) l).

(** The [answer] events of a stream that carry a message. *)
Definition answers (events : list (Z * Research.StreamData)) : nat :=
  length (List.filter (fun ev => Chat.is_answer (snd ev)) events).

Definition is_status_request (c : Api.NetCall) : bool :=
  match c with
  | Api.NetGetRunStatus _ _ => true
  | _ => false
  end.

(** The router has a tab of its list as current tab, and for every
    tab of the list a stack that begins with the root view of the
    tab. *)
Definition rooted (r : Router.Router) : Prop :=
  Router.is_tab (Router.currentTab r) = true
  /\ forall tab, Router.is_tab tab = true ->
       exists rest, Router.stacks r !! tab = Some (tab :: rest).




(** The verdict that a signal brings on a job, as the update of the
    job's record: completion for an [answer] of its stream and for a
    status answer that reports success, failure for a status answer
    that reports it. *)
Definition verdict (jobId : nat) (s : Research.Signal)
    : option State.JobUpdates :=
  match s with
  | Research.StreamEvent j data env =>
      if Nat.eqb j jobId && Research.is_type "answer" data
      then Some {| State.u_status := Some "completed";
                   State.u_completedAt := Some (Research.c_now env);
                   State.u_statusText := Some "Complete" |}
      else None
  | Research.Reply j run env =>
      if negb (Nat.eqb j jobId) then None
      else if Spec.reports_success run
      then Some {| State.u_status := Some "completed";
                   State.u_completedAt := Some (Research.c_now env);
                   State.u_statusText := Some "Complete" |}
      else if Spec.reports_failure run
      then Some {| State.u_status := Some "failed";
                   State.u_completedAt := None;
                   State.u_statusText := Some "Research failed" |}
      else None
  | _ => None
  end.


(** A job that no observer and no timer will ever touch. *)
Definition unobserved (j : nat) (t : Research.Tracker) : Prop :=
  Research.pollers t !! j = None
  /\ Spec.no_timer_for j (State.timers (Research.world t)) = true.

(** A JSON reader for the examples of [call]. *)
Definition braces_outcome (s : string) : Outcome string :=
  if startsWith "{" s then Returned s else Threw "SyntaxError".

End Notions.


(** ** Further concrete values for the examples *)

Module Cases.
Import Js State Research.

(** A live job for which [executeResearch] gave no handle. *)
Definition bare_params : JobParams :=
  {| jp_name := "SWOT Analysis"; jp_workspaceId := None;
     jp_workflowId := None; jp_runId := None; jp_isLive := true |}.

Definition failed : Outcome (option Run) :=
  Returned (Some {| run_status := Some "failed";
                    run_result_status := None;
                    run_result_message := None |}).

Definition progress : StreamData :=
  {| data_type := Some "update"; data_message := Some "Searching filings" |}.

Definition one_object : ApiObject :=
  {| obj_id := "o1"; obj_name := Some "Chips 2025";
     obj_content_source := Some "store/o1.md" |}.

Definition with_catalog (now : Z) : Completion :=
  {| c_now := now; c_objects := Returned [one_object];
     c_members := Returned [] |}.

(** A document turn that the user leaves while the stream, which
    carries no [answer], is still open. *)
Definition cancelled_turn : Chat.Turn :=
  {| Chat.turn_now := 1000;
     Chat.turn_execute := Returned ("wf-1", "run-1");
     Chat.turn_events := [(1500%Z, progress)];
     Chat.turn_stream_end := Returned tt;
     Chat.turn_cancelled := true;
     Chat.turn_status := Returned None;
     Chat.turn_status_now := 3000 |}.

(** A turn whose stream delivers the answer and then breaks. *)
Definition broken_turn : Chat.Turn :=
  {| Chat.turn_now := 1000;
     Chat.turn_execute := Returned ("wf-1", "run-1");
     Chat.turn_events := [(1500%Z, Examples.answer)];
     Chat.turn_stream_end := Threw "network error";
     Chat.turn_cancelled := false;
     Chat.turn_status := Returned None;
     Chat.turn_status_now := 3000 |}.

(** The preferences of a user who has set none. *)
Definition no_prefs : Prefs.Prefs :=
  {| Prefs.starred := ∅; Prefs.pinned := ∅; Prefs.completed := ∅;
     Prefs.notes := ∅; Prefs.pref_emitted := []; Prefs.pref_saved := [] |}.

(** The router after [init]. *)
Definition at_feed : Router.Router := Router.switchTab "feed" Router.initial.

End Cases.
(** * Properties *)

(** ** Strings *)

Section StringFacts.
Import Js.

Lemma string_app_nil_l (s : string) : "" +:+ s = s.
Proof. reflexivity. Qed.

Lemma string_app_cons (c : ascii) (a b : string) :
  String c a +:+ b = String c (a +:+ b).
Proof. reflexivity. Qed.

Lemma string_app_nil_r (s : string) : s +:+ "" = s.
Proof.
  induction s as [|c s IH]; [reflexivity|].
  rewrite string_app_cons, IH. reflexivity.
Qed.

Lemma string_app_assoc (a b c : string) : (a +:+ b) +:+ c = a +:+ (b +:+ c).
Proof.
  induction a as [|x a IH]; [reflexivity|].
  rewrite !string_app_cons, IH. reflexivity.
Qed.

Lemma split_nl_nonempty (s : string) : split_nl s <> [].
Proof.
  induction s as [|c s IH]; simpl; [discriminate|].
  destruct (Ascii.eqb c newline); [discriminate|].
  destruct (split_nl s); discriminate.
Qed.

(** Splitting a text in two pieces splits its lines: the piece after
    the last newline of the first part is continued by the second. *)
Lemma split_nl_app (a b : string) :
  split_nl (a +:+ b)
  = removelast (split_nl a) ++ split_nl (List.last (split_nl a) "" +:+ b).
Proof.
  induction a as [|c a IH]; [reflexivity|].
  rewrite string_app_cons. simpl.
  destruct (Ascii.eqb c newline) eqn:E.
  - rewrite IH. pose proof (split_nl_nonempty a) as Hne.
    destruct (split_nl a) as [|h t]; [congruence|]. reflexivity.
  - rewrite IH. pose proof (split_nl_nonempty a) as Hne.
    destruct (split_nl a) as [|h t]; [congruence|].
    destruct t as [|h' t'].
    + simpl. rewrite E.
      pose proof (split_nl_nonempty (h +:+ b)) as Hne'.
      destruct (split_nl (h +:+ b)); [congruence|]. reflexivity.
    + reflexivity.
Qed.

Lemma split_nl_no_newline (s : string) :
  Spec.no_newline s = true -> split_nl s = [s].
Proof.
  induction s as [|c s IH]; simpl; [reflexivity|].
  intros H. apply andb_prop in H as [Hc Hs].
  apply negb_true_iff in Hc. rewrite Hc, (IH Hs). reflexivity.
Qed.

Lemma split_nl_line (l rest : string) :
  Spec.no_newline l = true ->
  split_nl (l +:+ String newline rest) = l :: split_nl rest.
Proof.
  induction l as [|c l IH]; rewrite ?string_app_cons, ?string_app_nil_l; simpl.
  - intros _. rewrite ?Ascii.eqb_refl. reflexivity.
  - intros H. apply andb_prop in H as [Hc Hl].
    apply negb_true_iff in Hc. rewrite Hc, (IH Hl). reflexivity.
Qed.

Lemma split_nl_unlines (lines : list string) (rest : string) :
  forallb Spec.no_newline lines = true ->
  Spec.no_newline rest = true ->
  split_nl (Spec.unlines lines +:+ rest) = lines ++ [rest].
Proof.
  induction lines as [|l lines IH]; simpl; intros Hl Hr.
  - apply split_nl_no_newline, Hr.
  - apply andb_prop in Hl as [H1 H2].
    rewrite string_app_assoc, string_app_cons.
    rewrite split_nl_line by assumption. rewrite IH by assumption.
    reflexivity.
Qed.

End StringFacts.

(** ** The token cache *)

Section TokenCache.
Import Js Api.

Lemma getAuthToken_stale (api : VertesiaAPI) (now : Z)
    (resp : Outcome AuthResponse) (now' : Z) :
  (jwtExpiry api - SKEW <= now)%Z ->
  getAuthToken api now resp now'
  = match resp with
    | Threw msg => {| ar_api := api; ar_net := [NetAuth]; ar_value := Threw msg |}
    | Returned res =>
        if auth_ok res then
          {| ar_api := {| apiKey := apiKey api; envId := envId api;
                          jwt := token_of (auth_data res);
                          jwtExpiry := (now' + ASSUMED_LIFETIME)%Z |};
             ar_net := [NetAuth];
             ar_value := Returned (token_of (auth_data res)) |}
        else {| ar_api := api; ar_net := [NetAuth];
                ar_value := Threw "Auth failed" |}
    end.
Proof.
  intros H. unfold getAuthToken.
  replace (now <? jwtExpiry api - SKEW)%Z with false
    by (symmetry; apply Z.ltb_ge; exact H).
  rewrite andb_false_r. destruct resp as [res|msg]; [|reflexivity].
  destruct (auth_ok res); reflexivity.
Qed.




End TokenCache.

(** ** The streaming decoder *)

Section Decoder.
Import Js Api.
Context {J : Type} (parse : string -> option J).

Lemma last_split_nl_no_newline (s : string) :
  Spec.no_newline (List.last (split_nl s) "") = true.
Proof.
  induction s as [|c s IH]; [reflexivity|]. simpl split_nl.
  pose proof (split_nl_nonempty s) as Hne.
  destruct (Ascii.eqb c newline) eqn:E.
  - destruct (split_nl s) as [|h t]; [congruence|]. exact IH.
  - destruct (split_nl s) as [|h t]; [congruence|].
    destruct t as [|h' t']; [|exact IH].
    simpl in *. rewrite E, IH. reflexivity.
Qed.

(** The loop hands over the lines that a newline closes, whatever the
    cut of the text into chunks, and keeps the rest in its buffer. *)
Lemma read_loop_lines (chunks : list string) (buffer : string) :
  Spec.no_newline buffer = true ->
  read_loop parse buffer chunks
  = omap (decode_line parse)
         (removelast (split_nl (buffer +:+ Spec.concat_chunks chunks))).
Proof.
  revert buffer. induction chunks as [|v rest IH]; intros buffer Hb.
  - simpl. rewrite string_app_nil_r, split_nl_no_newline by assumption.
    reflexivity.
  - simpl read_loop. unfold pop.
    rewrite IH by apply last_split_nl_no_newline.
    simpl Spec.concat_chunks.
    rewrite <- (string_app_assoc buffer v), (split_nl_app (buffer +:+ v)).
    rewrite removelast_app by apply split_nl_nonempty.
    rewrite omap_app. reflexivity.
Qed.

Lemma decode_line_well_formed (line : string) :
  Spec.well_formed parse line = true ->
  decode_line parse line = parse (trim (slice_from 5 line))
  /\ is_Some (decode_line parse line).
Proof.
  unfold Spec.well_formed, decode_line.
  intros H. apply andb_prop in H as [Hp Hj]. rewrite Hp. simpl.
  split; [reflexivity|]. apply bool_decide_eq_true in Hj. exact Hj.
Qed.

Lemma decode_line_not_well_formed (line : string) :
  Spec.well_formed parse line = false -> decode_line parse line = None.
Proof.
  unfold Spec.well_formed, decode_line.
  destruct (startsWith "data:" line); simpl; [|reflexivity].
  intros H. apply bool_decide_eq_false in H.
  destruct (parse _) as [v|]; [|reflexivity].
  exfalso. apply H. eexists; reflexivity.
Qed.

(** The events decoded from a list of lines are the payloads of its
    well-formed lines, in the same order. *)
Lemma omap_decode_lines (lines : list string) :
  Forall2 (fun ev line => parse (trim (slice_from 5 line)) = Some ev)
          (omap (decode_line parse) lines)
          (List.filter (Spec.well_formed parse) lines).
Proof.
  induction lines as [|l lines IH]; simpl; [constructor|].
  destruct (Spec.well_formed parse l) eqn:E.
  - destruct (decode_line_well_formed l E) as [Heq [v Hv]].
    rewrite Hv. constructor; [|exact IH].
    transitivity (decode_line parse l); [symmetry; exact Heq | exact Hv].
  - rewrite (decode_line_not_well_formed l E). exact IH.
Qed.

(** Every text is some lines, each closed by a newline, and an open
    rest. *)
Lemma text_has_lines (s : string) :
  exists lines rest,
    forallb Spec.no_newline lines = true
    /\ Spec.no_newline rest = true
    /\ s = Spec.unlines lines +:+ rest.
Proof.
  induction s as [|c s (lines & rest & Hl & Hr & Hs)].
  - exists [], "". repeat split.
  - destruct (Ascii.eqb c newline) eqn:E.
    + apply Ascii.eqb_eq in E. subst c.
      exists ("" :: lines), rest.
      split; [exact Hl|]. split; [exact Hr|]. rewrite Hs. reflexivity.
    + destruct lines as [|l lines].
      * exists [], (String c rest).
        split; [reflexivity|]. split; [|rewrite Hs; reflexivity].
        simpl. rewrite E, Hr. reflexivity.
      * exists (String c l :: lines), rest.
        split; [|split; [exact Hr|rewrite Hs; reflexivity]].
        simpl in *. rewrite E. exact Hl.
Qed.

(** C2. Let the chunks of a stream carry, put end to end, the lines
    [lines], each closed by a newline, and then an open rest. Whatever
    the cut into chunks, a malformed line among them, or a failing
    read after the chunks, [onEvent] is called once for each
    well-formed [data:] line and for nothing else, in the order of the
    lines, with the parsed payload of the line. *)
Theorem streamResponse_delivers_each_well_formed_line
    (tok : option string) (chunks : list string) (failure : option string)
    (lines : list string) (rest : string) :
  forallb Spec.no_newline lines = true ->
  Spec.no_newline rest = true ->
  Spec.concat_chunks chunks = Spec.unlines lines +:+ rest ->
  let r := streamResponse parse (Returned tok)
             (Returned {| res_ok := true; res_chunks := chunks;
                          res_failure := failure |}) in
  Forall2 (fun ev line => parse (trim (slice_from 5 line)) = Some ev)
          (sr_events r) (List.filter (Spec.well_formed parse) lines)
  /\ length (sr_events r)
     = length (List.filter (Spec.well_formed parse) lines)
  /\ sr_events r = omap (decode_line parse) lines.
Proof.
  intros Hl Hr Hcat. cbv zeta. simpl sr_events.
  rewrite read_loop_lines by reflexivity.
  rewrite string_app_nil_l, Hcat, split_nl_unlines by assumption.
  rewrite removelast_last.
  pose proof (omap_decode_lines lines) as HF.
  split; [exact HF|]. split; [|reflexivity].
  eapply Forall2_length; exact HF.
Qed.

(** C9. When the answer to the stream request is not a success,
    [streamResponse] returns normally and has not called [onEvent]. *)
Theorem streamResponse_swallows_failed_open
    (tok : option string) (body : StreamBody) :
  res_ok body = false ->
  streamResponse parse (Returned tok) (Returned body)
  = {| sr_events := []; sr_value := Returned tt |}.
Proof. intros H. unfold streamResponse. rewrite H. reflexivity. Qed.

End Decoder.

Lemma streamResponse_delivers_each_well_formed_line_witness :
  Api.sr_events
    (Api.streamResponse Spec.braces_parse (Js.Returned (Some "t"))
       (Js.Returned
          {| Api.res_ok := true;
             Api.res_chunks :=
               ["da"; "ta: {a}" +:+ Chat.nl +:+ "data: oops" +:+ Chat.nl +:+ "dat";
                "a:{b} " +:+ Chat.nl +:+ "data: {c}"];
             Api.res_failure := None |}))
  = ["{a}"; "{b}"].
Proof.
  exact (proj2 (proj2
    (streamResponse_delivers_each_well_formed_line Spec.braces_parse
       (Some "t")
       ["da"; "ta: {a}" +:+ Chat.nl +:+ "data: oops" +:+ Chat.nl +:+ "dat";
        "a:{b} " +:+ Chat.nl +:+ "data: {c}"]
       None ["data: {a}"; "data: oops"; "data:{b} "] "data: {c}"
       eq_refl eq_refl eq_refl))).
Defined.

Lemma streamResponse_swallows_failed_open_witness :
  Api.streamResponse Spec.braces_parse (Js.Returned (Some "t"))
    (Js.Returned {| Api.res_ok := false; Api.res_chunks := ["data: {a}" +:+ Chat.nl];
                    Api.res_failure := None |})
  = {| Api.sr_events := []; Api.sr_value := Js.Returned tt |}.
Proof.
  apply (streamResponse_swallows_failed_open Spec.braces_parse); reflexivity.
Defined.

(** ** The job list *)

Section JobList.
Import Js State.

Lemma find_none_of_no_match (jobId : nat) (js : list Job) :
  Forall (fun j => job_id j <> jobId) js -> find (has_id jobId) js = None.
Proof.
  induction 1 as [|j js Hj _ IH]; [reflexivity|]. simpl.
  unfold has_id at 1. apply Nat.eqb_neq in Hj. rewrite Hj. exact IH.
Qed.

(** C10. [updateJob] with an id that no job of the list carries
    changes nothing: the list is the same, nothing is saved and
    [jobs:changed] is not emitted. *)
Theorem updateJob_unknown_id_is_noop (jobId : nat) (u : JobUpdates) (w : World) :
  Forall (fun j => job_id j <> jobId) (jobs w) ->
  updateJob jobId u w = w
  /\ jobs (updateJob jobId u w) = jobs w
  /\ savedJobs (updateJob jobId u w) = savedJobs w
  /\ emitted (updateJob jobId u w) = emitted w.
Proof.
  intros H. unfold updateJob. rewrite (find_none_of_no_match jobId _ H).
  repeat split; reflexivity.
Qed.

Lemma assign_id (j : Job) (u : JobUpdates) : job_id (assign j u) = job_id j.
Proof. reflexivity. Qed.

(** Looking a job up after an update of the first job with id [k]. *)
Lemma find_assign_first (jobId k : nat) (u : JobUpdates) (js : list Job) :
  find (has_id jobId) (assign_first k u js)
  = if Nat.eqb k jobId
    then option_map (fun j => assign j u) (find (has_id jobId) js)
    else find (has_id jobId) js.
Proof.
  induction js as [|j js IH]; simpl.
  - destruct (Nat.eqb k jobId); reflexivity.
  - destruct (has_id k j) eqn:Ek; simpl.
    + unfold has_id in *. rewrite assign_id.
      apply Nat.eqb_eq in Ek. subst k.
      destruct (Nat.eqb (job_id j) jobId) eqn:Ej; reflexivity.
    + rewrite IH. unfold has_id in *.
      destruct (Nat.eqb (job_id j) jobId) eqn:Ej; [|reflexivity].
      apply Nat.eqb_eq in Ej. subst jobId. rewrite Nat.eqb_sym, Ek.
      reflexivity.
Qed.

Lemma find_updateJob (jobId k : nat) (u : JobUpdates) (w : World) :
  find (has_id jobId) (jobs (updateJob k u w))
  = if Nat.eqb k jobId
    then option_map (fun j => assign j u) (find (has_id jobId) (jobs w))
    else find (has_id jobId) (jobs w).
Proof.
  unfold updateJob. destruct (find (has_id k) (jobs w)) eqn:E; simpl.
  - apply find_assign_first.
  - destruct (Nat.eqb k jobId) eqn:Ek; [|reflexivity].
    apply Nat.eqb_eq in Ek. subst k. rewrite E. reflexivity.
Qed.

(** What [updateJob] leaves alone, and what it emits. *)
Lemma updateJob_frame (k : nat) (u : JobUpdates) (w : World) :
  api (updateJob k u w) = api w
  /\ net (updateJob k u w) = net w
  /\ timers (updateJob k u w) = timers w
  /\ exists js, emitted (updateJob k u w) = emitted w ++ map JobsChanged js.
Proof.
  unfold updateJob. destruct (find (has_id k) (jobs w)); simpl.
  - repeat split. eexists [_]. reflexivity.
  - repeat split. exists []. simpl. rewrite app_nil_r. reflexivity.
Qed.

End JobList.

Lemma updateJob_unknown_id_is_noop_witness :
  let w := {| State.liveMode := false; State.api := None; State.workspaces := [];
              State.allDocuments := []; State.collectionMembers := ∅;
              State.jobs := [{| State.job_id := 1; State.job_name := "SWOT Analysis";
                                State.job_status := "running";
                                State.job_workspaceId := None;
                                State.job_workflowId := None;
                                State.job_runId := None; State.job_isLive := false;
                                State.job_startedAt := 0;
                                State.job_completedAt := None;
                                State.job_docId := None;
                                State.job_statusText := "Starting..." |}];
              State.emitted := []; State.savedJobs := []; State.net := [];
              State.timers := [] |} in
  State.updateJob 7 {| State.u_status := Some "failed"; State.u_completedAt := None;
                       State.u_statusText := Some "Timed out" |} w = w.
Proof.
  cbv zeta.
  refine (proj1 (updateJob_unknown_id_is_noop 7 _ _ _)).
  repeat constructor; simpl; lia.
Defined.

(** ** The job lifecycle *)

Section Completion.
Import Js State Research.

Lemma completed_events_app (j : nat) (a b : list Event) :
  Spec.completed_events j (a ++ b)
  = Spec.completed_events j a + Spec.completed_events j b.
Proof.
  unfold Spec.completed_events. rewrite List.filter_app, length_app.
  reflexivity.
Qed.

Lemma completed_events_jobs_changed (j : nat) (js : list (list Job)) :
  Spec.completed_events j (map JobsChanged js) = 0.
Proof. induction js as [|x js IH]; [reflexivity|exact IH]. Qed.

Lemma reloads_app (a b : list Api.NetCall) :
  Spec.reloads (a ++ b) = Spec.reloads a + Spec.reloads b.
Proof.
  unfold Spec.reloads. rewrite List.filter_app, length_app. reflexivity.
Qed.

Lemma completed_events_updateJob (j k : nat) (u : JobUpdates) (w : World) :
  Spec.completed_events j (emitted (updateJob k u w))
  = Spec.completed_events j (emitted w).
Proof.
  destruct (updateJob_frame k u w) as (_ & _ & _ & js & ->).
  rewrite completed_events_app, completed_events_jobs_changed. lia.
Qed.

Ltac frame_leaf :=
  simpl; repeat split; try reflexivity; try assumption;
  first
    [ intros; discriminate
    | intros _; eexists; split;
      [rewrite <- ?app_assoc; reflexivity | reflexivity]
    | intros j; unfold Spec.completed_events;
      rewrite ?List.filter_app, ?length_app; simpl; lia ].

(** Loading the catalog again touches neither the job list nor the
    timers and emits no [research:completed]; it sends requests only
    through a client, the first of them for the catalog. *)
Lemma reload_catalog_frame (k : nat) (env : Completion) (w : World) :
  jobs (reload_catalog k env w) = jobs w
  /\ api (reload_catalog k env w) = api w
  /\ timers (reload_catalog k env w) = timers w
  /\ (forall j, Spec.completed_events j (emitted (reload_catalog k env w))
                = Spec.completed_events j (emitted w))
  /\ (api w = None -> net (reload_catalog k env w) = net w)
  /\ (is_Some (api w) ->
      exists more, net (reload_catalog k env w)
                   = net w ++ Api.NetLoadAllObjects :: more
                   /\ Spec.reloads more = 0).
Proof.
  unfold reload_catalog. destruct (api w) as [a|] eqn:Ea.
  - destruct (c_objects env) as [objects|msg]; [|frame_leaf].
    simpl jobs. destruct (find (has_id k) (jobs w)) as [job|]; [|frame_leaf].
    destruct (truthy (job_workspaceId job)); [|frame_leaf].
    destruct (c_members env) as [members|msg]; frame_leaf.
  - repeat split; try reflexivity; try assumption.
    intros [a Ha]. discriminate.
Qed.

Lemma completeJob_frame (k : nat) (env : Completion) (w : World) :
  api (completeJob k env w) = api w
  /\ timers (completeJob k env w) = timers w
  /\ jobs (completeJob k env w) = jobs (updateJob k (completion_updates env) w)
  /\ (forall j, Spec.completed_events j (emitted (completeJob k env w))
                = Spec.completed_events j (emitted w)
                  + (if Nat.eqb k j then 1 else 0))
  /\ (api w = None -> net (completeJob k env w) = net w)
  /\ (is_Some (api w) ->
      Spec.reloads (net (completeJob k env w)) = S (Spec.reloads (net w))).
Proof.
  unfold completeJob.
  set (w1 := updateJob k (completion_updates env) w).
  destruct (updateJob_frame k (completion_updates env) w)
    as (Hapi & Hnet & Htm & _). fold w1 in Hapi, Hnet, Htm.
  destruct (reload_catalog_frame k env w1) as (Rj & Ra & Rt & Re & Rn & Rs).
  simpl. repeat split.
  - congruence.
  - congruence.
  - exact Rj.
  - intros j. rewrite completed_events_app, Re.
    unfold w1. rewrite completed_events_updateJob.
    unfold Spec.completed_events. simpl. destruct (Nat.eqb k j); simpl; lia.
  - intros Hn. rewrite Rn by congruence. exact Hnet.
  - intros Hs. rewrite <- Hapi in Hs. destruct (Rs Hs) as (more & -> & Hm).
    rewrite reloads_app, Hnet. unfold Spec.reloads in *. simpl. lia.
Qed.

End Completion.
Section Tracker.
Import Js State Research.

Lemma lookup_set_poller (k j : nat) (p : Poller) (t : Tracker) :
  pollers (set_poller k p t) !! j
  = if Nat.eqb k j then Some p else pollers t !! j.
Proof.
  unfold set_poller. simpl. destruct (Nat.eqb k j) eqn:E.
  - apply Nat.eqb_eq in E. subst. apply lookup_insert_eq.
  - apply Nat.eqb_neq in E. apply lookup_insert_ne. exact E.
Qed.

Lemma request_via_api_frame (c : Api.NetCall) (w : World) :
  api (request_via_api c w) = api w
  /\ timers (request_via_api c w) = timers w
  /\ jobs (request_via_api c w) = jobs w
  /\ emitted (request_via_api c w) = emitted w
  /\ (api w = None -> net (request_via_api c w) = net w)
  /\ net (request_via_api c w)
     = net w ++ (if bool_decide (is_Some (api w)) then [c] else []).
Proof.
  unfold request_via_api. destruct (api w) eqn:E; simpl; rewrite ?E;
    repeat split; try reflexivity; try discriminate.
  rewrite app_nil_r. reflexivity.
Qed.

Lemma no_timer_not_due (j : nat) (now : Z) (l : list Timer) :
  Spec.no_timer_for j l = true -> existsb (is_due now j) l = false.
Proof.
  induction l as [|tm l IH]; simpl; [reflexivity|].
  intros H. apply andb_prop in H as [H1 H2]. rewrite (IH H2).
  unfold is_due. destruct (timer_action tm) as [k|]; [|reflexivity].
  apply negb_true_iff in H1. rewrite H1. reflexivity.
Qed.

Lemma no_timer_disarm (j k : nat) (now : Z) (l : list Timer) :
  Spec.no_timer_for j l = true -> Spec.no_timer_for j (disarm now k l) = true.
Proof.
  induction l as [|tm l IH]; simpl; [reflexivity|].
  intros H. apply andb_prop in H as [H1 H2].
  destruct (is_due now k tm); [exact H2|]. simpl. rewrite H1. exact (IH H2).
Qed.

Ltac tsimpl :=
  cbn [with_world clearInterval set_poller world pollers nextJobId step
       attempts intervalActive p_workflowId p_runId].

(** One signal: the client stays, the job stays Spec.observed, and
    [research:completed] is emitted for the job once exactly when the
    signal is a completion signal for it. *)
Lemma step_frame (j : nat) (s : Signal) (t : Tracker) :
  Spec.observed j t ->
  api (world (step s t)) = api (world t)
  /\ Spec.observed j (step s t)
  /\ Spec.completed_events j (emitted (world (step s t)))
     = Spec.completed_events j (emitted (world t))
       + (if Spec.is_completion_signal j s then 1 else 0).
Proof.
  intros [Hp Ht]. unfold Spec.observed.
  destruct s as [k|k run env|k data env|k env]; tsimpl;
    unfold Spec.is_completion_signal.
  - (* the interval fires *)
    unfold on_tick. destruct (pollers t !! k) as [p|] eqn:Ek;
      [|rewrite Nat.add_0_r; auto].
    destruct (intervalActive p); [|rewrite Nat.add_0_r; auto].
    destruct (Nat.ltb MAX_ATTEMPTS _); tsimpl.
    + destruct (updateJob_frame k
                  {| u_status := Some "failed"; u_completedAt := None;
                     u_statusText := Some "Timed out" |} (world t))
        as (Ha & _ & Htm & _).
      rewrite Ha, Htm, completed_events_updateJob, Nat.add_0_r.
      repeat split; try assumption.
      rewrite insert_insert_eq.
      destruct (Nat.eqb k j) eqn:E.
      * apply Nat.eqb_eq in E. subst. rewrite lookup_insert_eq. eauto.
      * apply Nat.eqb_neq in E. rewrite lookup_insert_ne; assumption.
    + destruct (request_via_api_frame
                  (Api.NetGetRunStatus (p_workflowId p) (p_runId p)) (world t))
        as (Ha & Htm & _ & He & _).
      rewrite Ha, Htm, He, Nat.add_0_r. repeat split; try assumption.
      destruct (Nat.eqb k j) eqn:E.
      * apply Nat.eqb_eq in E. subst. rewrite lookup_insert_eq. eauto.
      * apply Nat.eqb_neq in E. rewrite lookup_insert_ne; assumption.
  - (* a status answer *)
    unfold on_reply, Spec.reports_success.
    destruct (pollers t !! k) as [p|] eqn:Ek.
    + destruct run as [r|msg]; [|rewrite andb_false_r, Nat.add_0_r; auto].
      destruct (status_is "completed" (status_of r)
                || status_is "succeeded" (status_of r)); tsimpl.
      * destruct (completeJob_frame k env (world t))
          as (Ha & Htm & _ & He & _).
        rewrite Ha, Htm, He, andb_true_r. repeat split; try assumption.
        destruct (Nat.eqb k j) eqn:E.
        -- apply Nat.eqb_eq in E. subst. rewrite lookup_insert_eq. eauto.
        -- apply Nat.eqb_neq in E. rewrite lookup_insert_ne; assumption.
      * rewrite andb_false_r, Nat.add_0_r.
        destruct (status_is "failed" (status_of r)
                  || status_is "error" (status_of r)); tsimpl; [|auto].
        destruct (updateJob_frame k
                    {| u_status := Some "failed"; u_completedAt := None;
                       u_statusText := Some "Research failed" |} (world t))
          as (Ha & _ & Htm & _).
        rewrite Ha, Htm, completed_events_updateJob.
        repeat split; try assumption.
        destruct (Nat.eqb k j) eqn:E.
        -- apply Nat.eqb_eq in E. subst. rewrite lookup_insert_eq. eauto.
        -- apply Nat.eqb_neq in E. rewrite lookup_insert_ne; assumption.
    + destruct (Nat.eqb k j) eqn:E.
      * apply Nat.eqb_eq in E. subst. rewrite Ek in Hp.
        destruct Hp as [? Hp]. discriminate.
      * simpl. rewrite Nat.add_0_r. auto.
  - (* an event of the stream *)
    unfold on_stream_event.
    destruct (pollers t !! k) as [p|] eqn:Ek.
    + set (t1 := if is_type "update" data && truthy (data_message data)
                 then _ else t).
      assert (H1 : api (world t1) = api (world t)
                   /\ timers (world t1) = timers (world t)
                   /\ pollers t1 = pollers t
                   /\ Spec.completed_events j (emitted (world t1))
                      = Spec.completed_events j (emitted (world t))).
      { unfold t1.
        destruct (is_type "update" data && truthy (data_message data));
          [|auto].
        destruct (bucketStatus _) as [bucket|]; [|auto]. tsimpl.
        destruct (updateJob_frame k
                    {| u_status := None; u_completedAt := None;
                       u_statusText := Some bucket |} (world t))
          as (Ha & _ & Htm & _).
        rewrite Ha, Htm, completed_events_updateJob. auto. }
      destruct H1 as (Ha1 & Htm1 & Hp1 & He1).
      destruct (is_type "answer" data); tsimpl.
      * destruct (completeJob_frame k env (world t1))
          as (Ha & Htm & _ & He & _).
        rewrite Ha, Htm, He, Ha1, Htm1, Hp1, He1, andb_true_r. auto.
      * rewrite Ha1, Htm1, Hp1, He1, andb_false_r, Nat.add_0_r. auto.
    + destruct (Nat.eqb k j) eqn:E.
      * apply Nat.eqb_eq in E. subst. rewrite Ek in Hp.
        destruct Hp as [? Hp]. discriminate.
      * simpl. rewrite Nat.add_0_r. auto.
  - (* a demo timer *)
    unfold on_timer. rewrite Nat.add_0_r.
    destruct (existsb (is_due (c_now env) k) (timers (world t))) eqn:Ed;
      [|auto]. tsimpl.
    destruct (completeJob_frame k env
                (set_timers (disarm (c_now env) k (timers (world t))) (world t)))
      as (Ha & Htm & _ & He & _).
    rewrite Ha, Htm, He. cbn [set_timers api timers emitted].
    destruct (Nat.eqb k j) eqn:E.
    + apply Nat.eqb_eq in E. subst.
      rewrite (no_timer_not_due j (c_now env) _ Ht) in Ed. discriminate.
    + rewrite Nat.add_0_r. repeat split; try assumption.
      apply no_timer_disarm. exact Ht.
Qed.

Lemma found_updateJob (j k : nat) (u : JobUpdates) (w : World) :
  is_Some (find (has_id j) (jobs w)) ->
  is_Some (find (has_id j) (jobs (updateJob k u w))).
Proof.
  intros [job Hj]. rewrite find_updateJob, Hj.
  destruct (Nat.eqb k j); simpl; eauto.
Qed.

Lemma found_completeJob (j k : nat) (env : Completion) (w : World) :
  is_Some (find (has_id j) (jobs w)) ->
  is_Some (find (has_id j) (jobs (completeJob k env w))).
Proof.
  intros H. destruct (completeJob_frame k env w) as (_ & _ & -> & _).
  apply found_updateJob, H.
Qed.

(** No signal takes a job off the list. *)
Lemma found_step (j : nat) (s : Signal) (t : Tracker) :
  is_Some (find (has_id j) (jobs (world t))) ->
  is_Some (find (has_id j) (jobs (world (step s t)))).
Proof.
  intros H. destruct s as [k|k run env|k data env|k env]; tsimpl.
  - unfold on_tick. destruct (pollers t !! k) as [p|]; [|exact H].
    destruct (intervalActive p); [|exact H].
    destruct (Nat.ltb MAX_ATTEMPTS _); tsimpl.
    + apply found_updateJob, H.
    + destruct (request_via_api_frame
                  (Api.NetGetRunStatus (p_workflowId p) (p_runId p)) (world t))
        as (_ & _ & -> & _). exact H.
  - unfold on_reply. destruct (pollers t !! k) as [p|]; [|exact H].
    destruct run as [r|msg]; [|exact H].
    destruct (_ || _); tsimpl; [apply found_completeJob, H|].
    destruct (_ || _); tsimpl; [apply found_updateJob, H|exact H].
  - unfold on_stream_event. destruct (pollers t !! k) as [p|]; [|exact H].
    set (t1 := if is_type "update" data && truthy (data_message data)
               then _ else t).
    assert (H1 : is_Some (find (has_id j) (jobs (world t1)))).
    { unfold t1. destruct (_ && _); [|exact H].
      destruct (bucketStatus _); [|exact H]. tsimpl.
      apply found_updateJob, H. }
    destruct (is_type "answer" data); tsimpl; [|exact H1].
    apply found_completeJob, H1.
  - unfold on_timer. destruct (existsb _ _); [|exact H]. tsimpl.
    apply found_completeJob. exact H.
Qed.

(** A signal of another job leaves the poller of this one alone. *)
Lemma poller_step_other (j : nat) (s : Signal) (t : Tracker) :
  Spec.for_job j s = false -> pollers (step s t) !! j = pollers t !! j.
Proof.
  intros H.
  destruct s as [k|k run env|k data env|k env]; simpl in H; tsimpl;
    apply Nat.eqb_neq in H.
  - unfold on_tick. destruct (pollers t !! k) as [p|]; [|reflexivity].
    destruct (intervalActive p); [|reflexivity].
    destruct (Nat.ltb MAX_ATTEMPTS _); tsimpl;
      rewrite ?lookup_insert_ne by exact H; reflexivity.
  - unfold on_reply. destruct (pollers t !! k) as [p|]; [|reflexivity].
    destruct run as [r|msg]; [|reflexivity].
    destruct (_ || _); tsimpl;
      [rewrite lookup_insert_ne by exact H; reflexivity|].
    destruct (_ || _); tsimpl;
      [rewrite lookup_insert_ne by exact H; reflexivity|reflexivity].
  - unfold on_stream_event. destruct (pollers t !! k) as [p|]; [|reflexivity].
    destruct (_ && _); [destruct (bucketStatus _)|];
      destruct (is_type "answer" data); reflexivity.
  - unfold on_timer. destruct (existsb _ _); reflexivity.
Qed.

(** While no verdict arrives and the budget lasts, the interval stays
    armed and counts its firings. *)
Lemma polling_step (j a : nat) (s : Signal) (t : Tracker) :
  Spec.polling j a t ->
  Spec.no_verdict j s = true ->
  a + (if Spec.is_tick j s then 1 else 0) <= MAX_ATTEMPTS ->
  Spec.polling j (a + (if Spec.is_tick j s then 1 else 0)) (step s t).
Proof.
  intros (p & Hp & Ha & Hact) Hq Hle. unfold Spec.polling.
  destruct (Spec.for_job j s) eqn:Hfor.
  2:{ rewrite (poller_step_other j s t Hfor).
      assert (Spec.is_tick j s = false) as ->
        by (destruct s; simpl in *; try reflexivity; exact Hfor).
      rewrite Nat.add_0_r. eauto. }
  destruct s as [k|k run env|k data env|k env]; simpl in Hfor, Hq, Hle;
    apply Nat.eqb_eq in Hfor; subst k; rewrite ?Nat.eqb_refl in *;
    simpl in Hq, Hle; tsimpl; cbn [Spec.is_tick]; rewrite ?Nat.eqb_refl.
  - unfold on_tick. rewrite Hp, Hact. tsimpl.
    assert (Nat.ltb MAX_ATTEMPTS (S (attempts p)) = false) as ->
      by (apply Nat.ltb_ge; lia).
    tsimpl. rewrite lookup_insert_eq. eexists. split; [reflexivity|].
    simpl. split; [lia|reflexivity].
  - rewrite Nat.add_0_r. unfold on_reply. rewrite Hp.
    destruct run as [r|msg]; [|eauto].
    unfold Spec.reports_success, Spec.reports_failure in Hq.
    apply negb_true_iff, orb_false_iff in Hq as [-> ->]. eauto.
  - rewrite Nat.add_0_r. unfold on_stream_event. rewrite Hp.
    apply negb_true_iff in Hq. rewrite Hq.
    destruct (_ && _); [destruct (bucketStatus _)|]; tsimpl; eauto.
  - discriminate.
Qed.

Lemma polling_run (j : nat) (trace : list Signal) (a : nat) (t : Tracker) :
  Spec.polling j a t ->
  forallb (Spec.no_verdict j) trace = true ->
  a + Spec.ticks j trace <= MAX_ATTEMPTS ->
  Spec.polling j (a + Spec.ticks j trace) (run trace t).
Proof.
  revert a t. induction trace as [|s trace IH]; intros a t Hp Hq Hle.
  - unfold Spec.ticks. simpl. rewrite Nat.add_0_r. exact Hp.
  - simpl in Hq. apply andb_prop in Hq as [Hs Hq].
    assert (Hsplit : Spec.ticks j (s :: trace)
                     = (if Spec.is_tick j s then 1 else 0) + Spec.ticks j trace).
    { unfold Spec.ticks. simpl. destruct (Spec.is_tick j s); reflexivity. }
    rewrite Hsplit in *. rewrite Nat.add_assoc. simpl.
    apply IH; [|exact Hq|lia].
    apply polling_step; [exact Hp|exact Hs|lia].
Qed.

Lemma found_run (j : nat) (trace : list Signal) (t : Tracker) :
  is_Some (find (has_id j) (jobs (world t))) ->
  is_Some (find (has_id j) (jobs (world (run trace t)))).
Proof.
  revert t. induction trace as [|s trace IH]; intros t H; [exact H|].
  simpl. apply IH, found_step, H.
Qed.

Lemma run_app (a b : list Signal) (t : Tracker) :
  run (a ++ b) t = run b (run a t).
Proof. unfold run. apply fold_left_app. Qed.

End Tracker.
Section JobTheorems.
Import Js State Research.

Ltac tsimpl :=
  cbn [with_world clearInterval set_poller world pollers nextJobId step
       attempts intervalActive p_workflowId p_runId].

(** One signal of an observed job under a client: the catalog is
    requested once exactly when the signal is a completion signal. *)
Lemma step_reloads (j : nat) (s : Signal) (t : Tracker) :
  Spec.observed j t ->
  is_Some (api (world t)) ->
  Spec.for_job j s = true ->
  Spec.reloads (net (world (step s t)))
  = Spec.reloads (net (world t))
    + (if Spec.is_completion_signal j s then 1 else 0).
Proof.
  intros [[p Hp] Ht] Hapi Hfor.
  destruct s as [k|k run env|k data env|k env]; simpl in Hfor;
    apply Nat.eqb_eq in Hfor; subst k; tsimpl;
    unfold Spec.is_completion_signal; rewrite ?Nat.eqb_refl; simpl andb.
  - rewrite Nat.add_0_r. unfold on_tick. rewrite Hp.
    destruct (intervalActive p); [|reflexivity].
    destruct (Nat.ltb MAX_ATTEMPTS _); tsimpl.
    + destruct (updateJob_frame j
                  {| u_status := Some "failed"; u_completedAt := None;
                     u_statusText := Some "Timed out" |} (world t))
        as (_ & -> & _). reflexivity.
    + destruct (request_via_api_frame
                  (Api.NetGetRunStatus (p_workflowId p) (p_runId p)) (world t))
        as (_ & _ & _ & _ & _ & ->).
      rewrite reloads_app. destruct (bool_decide _); unfold Spec.reloads; simpl; lia.
  - unfold on_reply, Spec.reports_success. rewrite Hp.
    destruct run as [r|msg]; [|lia].
    destruct (_ || _); tsimpl.
    + destruct (completeJob_frame j env (world t)) as (_ & _ & _ & _ & _ & Hr).
      rewrite (Hr Hapi). lia.
    + rewrite Nat.add_0_r. destruct (_ || _); tsimpl; [|reflexivity].
      destruct (updateJob_frame j
                  {| u_status := Some "failed"; u_completedAt := None;
                     u_statusText := Some "Research failed" |} (world t))
        as (_ & -> & _). reflexivity.
  - unfold on_stream_event. rewrite Hp.
    set (t1 := if is_type "update" data && truthy (data_message data)
               then _ else t).
    assert (H1 : api (world t1) = api (world t)
                 /\ net (world t1) = net (world t)).
    { unfold t1. destruct (_ && _); [|auto].
      destruct (bucketStatus _) as [bucket|]; [|auto]. tsimpl.
      destruct (updateJob_frame j
                  {| u_status := None; u_completedAt := None;
                     u_statusText := Some bucket |} (world t))
        as (Ha & Hn & _). auto. }
    destruct H1 as [Ha1 Hn1].
    destruct (is_type "answer" data); tsimpl.
    + destruct (completeJob_frame j env (world t1)) as (_ & _ & _ & _ & _ & Hr).
      rewrite Hr by (rewrite Ha1; exact Hapi). rewrite Hn1. lia.
    + rewrite Hn1. lia.
  - unfold on_timer. rewrite (no_timer_not_due j (c_now env) _ Ht). lia.
Qed.

Lemma completion_signals_cons (j : nat) (s : Signal) (trace : list Signal) :
  Spec.completion_signals j (s :: trace)
  = (if Spec.is_completion_signal j s then 1 else 0)
    + Spec.completion_signals j trace.
Proof.
  unfold Spec.completion_signals. simpl.
  destruct (Spec.is_completion_signal j s); reflexivity.
Qed.

Lemma run_completed_events (j : nat) (trace : list Signal) (t : Tracker) :
  Spec.observed j t ->
  Spec.completed_events j (emitted (world (run trace t)))
  = Spec.completed_events j (emitted (world t))
    + Spec.completion_signals j trace.
Proof.
  revert t. induction trace as [|s trace IH]; intros t Hobs.
  - unfold Spec.completion_signals. simpl. lia.
  - destruct (step_frame j s t Hobs) as (_ & Hobs' & He).
    simpl. rewrite (IH _ Hobs'), He, completion_signals_cons. lia.
Qed.

Lemma run_reloads (j : nat) (trace : list Signal) (t : Tracker) :
  Spec.observed j t ->
  is_Some (api (world t)) ->
  forallb (Spec.for_job j) trace = true ->
  Spec.reloads (net (world (run trace t)))
  = Spec.reloads (net (world t)) + Spec.completion_signals j trace.
Proof.
  revert t. induction trace as [|s trace IH]; intros t Hobs Hapi Hfor.
  - unfold Spec.completion_signals. simpl. lia.
  - simpl in Hfor. apply andb_prop in Hfor as [Hs Hfor].
    destruct (step_frame j s t Hobs) as (Ha & Hobs' & _).
    simpl. rewrite (IH _ Hobs') by (rewrite ?Ha; assumption).
    rewrite (step_reloads j s t Hobs Hapi Hs), completion_signals_cons. lia.
Qed.

Lemma observed_run (j : nat) (trace : list Signal) (t : Tracker) :
  Spec.observed j t -> Spec.observed j (run trace t).
Proof.
  revert t. induction trace as [|s trace IH]; intros t H; [exact H|].
  simpl. apply IH. destruct (step_frame j s t H) as (_ & H' & _). exact H'.
Qed.

Lemma answer_is_no_update (data : StreamData) :
  is_type "answer" data = true -> is_type "update" data = false.
Proof.
  unfold is_type. destruct (data_type data) as [ty|]; [|discriminate].
  intros H. apply String.eqb_eq in H. subst ty. reflexivity.
Qed.

Lemma find_completeJob (j : nat) (env : Completion) (w : World) :
  find (has_id j) (jobs (completeJob j env w))
  = option_map (fun job => assign job (completion_updates env))
               (find (has_id j) (jobs w)).
Proof.
  destruct (completeJob_frame j env w) as (_ & _ & -> & _).
  rewrite find_updateJob, Nat.eqb_refl. reflexivity.
Qed.

(** A signal that brings a verdict on a job with a poller writes that
    verdict into the job's record, whatever the record held. *)
Lemma verdict_step (j : nat) (s : Signal) (u : JobUpdates) (before : Job)
    (t : Tracker) :
  is_Some (pollers t !! j) ->
  find (has_id j) (jobs (world t)) = Some before ->
  Notions.verdict j s = Some u ->
  find (has_id j) (jobs (world (step s t))) = Some (assign before u).
Proof.
  intros [p Hp] Hjob Hv.
  destruct s as [k|k run env|k data env|k env]; cbn [Notions.verdict] in Hv;
    try discriminate Hv.
  - destruct (Nat.eqb k j) eqn:Ek; cbn [negb] in Hv; [|discriminate Hv].
    apply Nat.eqb_eq in Ek. subst k. cbn [step]. unfold on_reply.
    rewrite Hp. unfold Spec.reports_success, Spec.reports_failure in Hv.
    destruct run as [r|msg]; [|discriminate Hv].
    destruct (status_is "completed" (status_of r)
              || status_is "succeeded" (status_of r)).
    + injection Hv as <-. tsimpl. rewrite find_completeJob.
      cbn [clearInterval set_poller world]. rewrite Hjob. reflexivity.
    + destruct (status_is "failed" (status_of r)
                || status_is "error" (status_of r)); [|discriminate Hv].
      injection Hv as <-. tsimpl. rewrite find_updateJob, Nat.eqb_refl.
      cbn [clearInterval set_poller world]. rewrite Hjob. reflexivity.
  - destruct (Nat.eqb k j) eqn:Ek; cbn [andb] in Hv; [|discriminate Hv].
    apply Nat.eqb_eq in Ek. subst k.
    destruct (is_type "answer" data) eqn:Ea; [|discriminate Hv].
    injection Hv as <-. cbn [step]. unfold on_stream_event.
    rewrite Hp, Ea, (answer_is_no_update data Ea). cbn [andb]. tsimpl.
    rewrite find_completeJob, Hjob. reflexivity.
Qed.

Lemma no_verdict_no_completion (j : nat) (trace : list Signal) :
  forallb (Spec.no_verdict j) trace = true ->
  Spec.completion_signals j trace = 0.
Proof.
  induction trace as [|s trace IH]; [reflexivity|].
  simpl. intros H. apply andb_prop in H as [Hs Ht].
  rewrite completion_signals_cons, (IH Ht).
  assert (Spec.is_completion_signal j s = false) as ->; [|reflexivity].
  destruct s as [k|k run env|k data env|k env]; simpl in *; try reflexivity.
  - destruct (Nat.eqb k j); [|reflexivity]. cbn [negb orb andb] in *.
    apply negb_true_iff, orb_false_elim in Hs as [Hs _]. exact Hs.
  - destruct (Nat.eqb k j); [|reflexivity]. cbn [negb orb andb] in *.
    apply negb_true_iff in Hs. exact Hs.
Qed.

(** The 121st firing of an interval that is still armed marks the job
    as timed out. *)
Lemma run_times_out (j : nat) (p : Poller) (job : Job) (pre : list Signal)
    (t : Tracker) :
  pollers t !! j = Some p ->
  attempts p = 0 ->
  intervalActive p = true ->
  find (has_id j) (jobs (world t)) = Some job ->
  forallb (Spec.no_verdict j) pre = true ->
  Spec.ticks j pre = 120 ->
  exists job', find (has_id j) (jobs (world (run (pre ++ [Tick j]) t)))
               = Some job'
               /\ job_status job' = "failed"
               /\ job_statusText job' = "Timed out".
Proof.
  intros Hp Ha Hact Hjob Hq Hticks.
  assert (Hpoll : Spec.polling j (0 + Spec.ticks j pre) (run pre t)).
  { apply polling_run; [exists p; auto|exact Hq|].
    rewrite Hticks. unfold MAX_ATTEMPTS. lia. }
  rewrite Hticks in Hpoll. simpl in Hpoll.
  assert (Hfound : is_Some (find (has_id j) (jobs (world (run pre t)))))
    by (apply found_run; rewrite Hjob; eauto).
  rewrite run_app. set (t1 := run pre t) in *.
  destruct Hpoll as (p1 & Hp1 & Ha1 & Hact1). destruct Hfound as [job1 Hjob1].
  simpl. unfold on_tick. rewrite Hp1, Hact1. tsimpl. rewrite Ha1.
  cbn [Nat.ltb Nat.leb MAX_ATTEMPTS]. tsimpl.
  rewrite find_updateJob, Nat.eqb_refl.
  cbn [clearInterval set_poller world]. rewrite Hjob1. simpl.
  eexists. split; [reflexivity|]. split; reflexivity.
Qed.

(** C1, as the code has it. For a job with a live handle (it is on
    the list, has a poller and no demo timer) nothing is guarded by
    the job's status. [research:completed] is emitted for the job
    once for every completion signal that reaches one of its
    observers (an [answer] event of the stream, a status answer
    reporting success), and under a client the catalog is loaded
    again as often. Every signal that brings a verdict writes it into
    the job's record over what the record held: a completion sets
    [completed], the text [Complete] and the time of that completion,
    a reported failure sets [failed] and [Research failed]. An
    [answer] of the stream leaves the poller as it is, so that the
    polling goes on: after an [answer] and 120 firings without
    verdict the 121st firing turns the completed job into [failed],
    [Timed out]. What stops is the polling: a status answer that
    reports success or failure clears the interval, and after a tick
    on a cleared interval nothing has changed. *)
Theorem completion_effects_once_per_signal
    (j : nat) (p : Poller) (job : Job) (trace : list Signal) (t : Tracker) :
  pollers t !! j = Some p ->
  Spec.no_timer_for j (timers (world t)) = true ->
  find (has_id j) (jobs (world t)) = Some job ->
  Spec.completed_events j (emitted (world (run trace t)))
  = Spec.completed_events j (emitted (world t))
    + Spec.completion_signals j trace
  /\ (is_Some (api (world t)) ->
      forallb (Spec.for_job j) trace = true ->
      Spec.reloads (net (world (run trace t)))
      = Spec.reloads (net (world t)) + Spec.completion_signals j trace)
  /\ (forall s u,
        Notions.verdict j s = Some u ->
        exists before,
          find (has_id j) (jobs (world (run trace t))) = Some before
          /\ find (has_id j) (jobs (world (run (trace ++ [s]) t)))
             = Some (assign before u))
  /\ (forall data env,
        is_type "answer" data = true ->
        pollers (step (StreamEvent j data env) t) = pollers t)
  /\ (forall data env pre,
        is_type "answer" data = true ->
        attempts p = 0 ->
        intervalActive p = true ->
        forallb (Spec.no_verdict j) pre = true ->
        Spec.ticks j pre = 120 ->
        let t' := run (StreamEvent j data env :: pre ++ [Tick j]) t in
        find (has_id j) (jobs (world (step (StreamEvent j data env) t)))
        = Some (assign job {| u_status := Some "completed";
                              u_completedAt := Some (c_now env);
                              u_statusText := Some "Complete" |})
        /\ (exists job', find (has_id j) (jobs (world t')) = Some job'
                         /\ job_status job' = "failed"
                         /\ job_statusText job' = "Timed out")
        /\ Spec.completed_events j (emitted (world t'))
           = S (Spec.completed_events j (emitted (world t))))
  /\ (forall run env,
        Spec.reports_success run || Spec.reports_failure run = true ->
        exists p', pollers (step (Reply j run env) t) !! j = Some p'
                   /\ intervalActive p' = false)
  /\ (intervalActive p = false -> step (Tick j) t = t).
Proof.
  intros Hp Ht Hjob.
  assert (Hobs : Spec.observed j t) by (split; [eauto|exact Ht]).
  split; [apply run_completed_events, Hobs|].
  split; [intros; apply run_reloads; assumption|].
  split.
  { intros s u Hv.
    destruct (found_run j trace t) as [before Hb]; [rewrite Hjob; eauto|].
    exists before. split; [exact Hb|].
    rewrite run_app. simpl.
    apply verdict_step; [|exact Hb|exact Hv].
    apply (observed_run j trace t Hobs). }
  assert (Hanswer : forall data env,
             is_type "answer" data = true ->
             pollers (step (StreamEvent j data env) t) = pollers t).
  { intros data env Ha. cbn [step]. unfold on_stream_event.
    rewrite Hp, Ha, (answer_is_no_update data Ha). reflexivity. }
  split; [exact Hanswer|].
  split.
  { intros data env pre Ha Hzero Hact Hq Hticks. cbv zeta.
    set (t1 := step (StreamEvent j data env) t).
    assert (Hj1 : find (has_id j) (jobs (world t1))
                  = Some (assign job {| u_status := Some "completed";
                                        u_completedAt := Some (c_now env);
                                        u_statusText := Some "Complete" |})).
    { apply (verdict_step j _ _ job t); [eauto|exact Hjob|].
      cbn [Notions.verdict]. rewrite Nat.eqb_refl, Ha. reflexivity. }
    assert (Hp1 : pollers t1 !! j = Some p)
      by (unfold t1; rewrite (Hanswer data env Ha); exact Hp).
    split; [exact Hj1|].
    split.
    { change (run (StreamEvent j data env :: pre ++ [Tick j]) t)
        with (run (pre ++ [Tick j]) t1).
      apply (run_times_out j p _ pre t1 Hp1 Hzero Hact Hj1 Hq Hticks). }
    rewrite (run_completed_events j _ t Hobs).
    rewrite completion_signals_cons.
    unfold Spec.completion_signals. rewrite List.filter_app, length_app.
    fold (Spec.completion_signals j pre).
    rewrite (no_verdict_no_completion j pre Hq).
    cbn [Spec.is_completion_signal]. rewrite Nat.eqb_refl, Ha. simpl. lia. }
  split.
  { intros run env Hv. cbn [step]. unfold on_reply. rewrite Hp.
    unfold Spec.reports_success, Spec.reports_failure in Hv.
    destruct run as [r|msg]; [|discriminate Hv].
    destruct (status_is "completed" (status_of r)
              || status_is "succeeded" (status_of r)); tsimpl.
    - rewrite lookup_insert_eq. eexists. split; reflexivity.
    - cbn [orb] in Hv. rewrite Hv. tsimpl.
      rewrite lookup_insert_eq. eexists. split; reflexivity. }
  intros Hoff. simpl. unfold on_tick. rewrite Hp, Hoff. reflexivity.
Qed.

(** C7. A job whose interval fires a 121st time, after 120 firings
    that brought no verdict (no [answer] on its stream, no terminal
    status, whatever else happened to it or to other jobs), is marked
    [failed] with the text [Timed out], and its polling has stopped:
    the interval is cleared and a further tick changes nothing. After
    the 120 firings the interval was still armed. *)
Theorem poll_times_out_after_max_attempts
    (j : nat) (p : Poller) (job : Job) (pre : list Signal) (t : Tracker) :
  pollers t !! j = Some p ->
  attempts p = 0 ->
  intervalActive p = true ->
  find (has_id j) (jobs (world t)) = Some job ->
  forallb (Spec.no_verdict j) pre = true ->
  Spec.ticks j pre = 120 ->
  let t' := run (pre ++ [Tick j]) t in
  Spec.polling j 120 (run pre t)
  /\ (exists job', find (has_id j) (jobs (world t')) = Some job'
                   /\ job_status job' = "failed"
                   /\ job_statusText job' = "Timed out")
  /\ (exists p', pollers t' !! j = Some p' /\ intervalActive p' = false)
  /\ step (Tick j) t' = t'.
Proof.
  intros Hp Ha Hact Hjob Hq Hticks. cbv zeta.
  assert (Hpoll : Spec.polling j (0 + Spec.ticks j pre) (run pre t)).
  { apply polling_run; [exists p; auto|exact Hq|].
    rewrite Hticks. unfold MAX_ATTEMPTS. lia. }
  rewrite Hticks in Hpoll. simpl in Hpoll.
  split; [exact Hpoll|].
  assert (Hfound : is_Some (find (has_id j) (jobs (world (run pre t)))))
    by (apply found_run; rewrite Hjob; eauto).
  rewrite run_app. set (t1 := run pre t) in *.
  destruct Hpoll as (p1 & Hp1 & Ha1 & Hact1). destruct Hfound as [job1 Hjob1].
  assert (Hstep : run [Tick j] t1
                  = with_world
                      (updateJob j {| u_status := Some "failed";
                                      u_completedAt := None;
                                      u_statusText := Some "Timed out" |})
                      (clearInterval j
                         {| p_workflowId := p_workflowId p1;
                            p_runId := p_runId p1;
                            attempts := S (attempts p1);
                            intervalActive := intervalActive p1 |}
                         (set_poller j
                            {| p_workflowId := p_workflowId p1;
                               p_runId := p_runId p1;
                               attempts := S (attempts p1);
                               intervalActive := intervalActive p1 |} t1))).
  { simpl. unfold on_tick. rewrite Hp1, Hact1. tsimpl. rewrite Ha1.
    reflexivity. }
  rewrite Hstep. tsimpl.
  split; [|split].
  - rewrite find_updateJob, Nat.eqb_refl, Hjob1. simpl.
    eexists. split; [reflexivity|]. split; reflexivity.
  - rewrite lookup_insert_eq. eexists. split; reflexivity.
  - unfold on_tick. tsimpl. rewrite lookup_insert_eq. reflexivity.
Qed.

End JobTheorems.
Section JobExamples.
Import Js State Research Examples.

Lemma completion_effects_once_per_signal_witness :
  Spec.completed_events 1
    (emitted (world (run [Tick 1; StreamEvent 1 answer (at_time 6000)] live_job)))
  = Spec.completed_events 1 (emitted (world live_job))
    + Spec.completion_signals 1 [Tick 1; StreamEvent 1 answer (at_time 6000)].
Proof.
  refine (proj1 (completion_effects_once_per_signal 1 live_poller live_record
                   [Tick 1; StreamEvent 1 answer (at_time 6000)] live_job
                   _ _ _));
    vm_compute; reflexivity.
Defined.

(** The poll observer sees [succeeded] before the stream delivers its
    [answer]: the job is completed twice, with two reloads of the
    catalog and two [research:completed], and the second completion
    rewrites the time of completion. The same happens in the other
    order, the [answer] first and the status answer after it. And
    after an [answer] alone the interval goes on firing: its 121st
    firing leaves the completed job [failed]. *)
Lemma completion_runs_again_for_the_later_signal :
  let poll_first := [Tick 1; Reply 1 succeeded (at_time 6000);
                     StreamEvent 1 answer (at_time 7000)] in
  let stream_first := [StreamEvent 1 answer (at_time 3000); Tick 1;
                       Reply 1 succeeded (at_time 6000)] in
  let t := run poll_first live_job in
  let t' := run stream_first live_job in
  Spec.completed_events 1 (emitted (world t)) = 2
  /\ Spec.reloads (net (world t)) = 2
  /\ option_map job_completedAt
       (find (has_id 1) (jobs (world (run [Tick 1; Reply 1 succeeded (at_time 6000)]
                                          live_job))))
     = Some (Some 6000%Z)
  /\ option_map job_completedAt (find (has_id 1) (jobs (world t)))
     = Some (Some 7000%Z)
  /\ Spec.completed_events 1 (emitted (world t')) = 2
  /\ Spec.reloads (net (world t')) = 2
  /\ option_map job_status
       (find (has_id 1)
             (jobs (world (run (StreamEvent 1 answer (at_time 3000)
                                  :: repeat (Tick 1) 121) live_job))))
     = Some "failed".
Proof. vm_compute. repeat split; reflexivity. Qed.

Lemma poll_times_out_after_max_attempts_witness :
  let t' := run (repeat (Tick 1) 120 ++ [Tick 1]) live_job in
  Spec.polling 1 120 (run (repeat (Tick 1) 120) live_job)
  /\ (exists job', find (has_id 1) (jobs (world t')) = Some job'
                   /\ job_status job' = "failed"
                   /\ job_statusText job' = "Timed out")
  /\ (exists p', pollers t' !! 1 = Some p' /\ intervalActive p' = false)
  /\ step (Tick 1) t' = t'.
Proof.
  apply (poll_times_out_after_max_attempts 1 live_poller live_record
           (repeat (Tick 1) 120) live_job);
    vm_compute; reflexivity.
Defined.

End JobExamples.
(** ** Demo jobs *)

Section DemoJobs.
Import Js State Research.

Lemma updateJob_catalog (k : nat) (u : JobUpdates) (w : World) :
  allDocuments (updateJob k u w) = allDocuments w
  /\ collectionMembers (updateJob k u w) = collectionMembers w.
Proof. unfold updateJob. destruct (find _ _); auto. Qed.




End DemoJobs.

Section DemoExamples.
Import Js State Research Examples.



End DemoExamples.

(** ** Chat histories *)

Section Histories.
Import Js Chat.

Lemma last_window_length {A} (n : nat) (l : list A) :
  (if Nat.ltb n (length l) then slice_last n l else l)
  = drop (length l - n) l.
Proof.
  unfold slice_last. destruct (Nat.ltb n (length l)) eqn:E; [reflexivity|].
  apply Nat.ltb_ge in E. replace (length l - n) with 0 by lia. reflexivity.
Qed.

(** The history of a context after one [addMessage]. *)
Lemma getHistory_addMessage (key k role content : string) (now : Z)
    (s : Session) :
  getHistory key (addMessage k role content now s)
  = if String.eqb k key
    then let pushed := getHistory key s
                       ++ [{| role := role; content := content; time := now |}] in
         drop (length pushed - HISTORY_LIMIT) pushed
    else getHistory key s.
Proof.
  unfold getHistory, addMessage, push_message, history_of. simpl.
  destruct (String.eqb k key) eqn:E.
  - apply String.eqb_eq in E. subst k. rewrite lookup_insert_eq. simpl.
    apply last_window_length.
  - apply String.eqb_neq in E. rewrite lookup_insert_ne by exact E.
    reflexivity.
Qed.

Lemma appended_cons (key : string) (c : Spec.Append) (calls : list Spec.Append) :
  Spec.appended key (c :: calls)
  = if String.eqb (Spec.a_key c) key
    then {| role := Spec.a_role c; content := Spec.a_content c;
            time := Spec.a_now c |} :: Spec.appended key calls
    else Spec.appended key calls.
Proof.
  unfold Spec.appended. simpl.
  destruct (String.eqb (Spec.a_key c) key); reflexivity.
Qed.

(** C5. After any sequence of [addMessage] calls, made in a session
    whose history for a context holds at most 20 messages (as at the
    start, or after [clearHistory]), the history of that context holds
    at most 20 messages, and it is the end of the sequence of all
    messages of the context, earlier and added, in their order: what
    is missing was evicted from the front, and nothing is missing
    while there are at most 20. *)
Theorem history_keeps_the_20_most_recent
    (calls : list Spec.Append) (key : string) (s : Session) :
  length (getHistory key s) <= 20 ->
  let all := getHistory key s ++ Spec.appended key calls in
  let h := getHistory key (Spec.append_all calls s) in
  length h <= 20
  /\ length h = Nat.min 20 (length all)
  /\ exists evicted, all = evicted ++ h.
Proof.
  revert s. induction calls as [|c calls IH]; intros s Hlen; cbv zeta.
  - unfold Spec.appended, Spec.append_all.
    cbn [fold_left List.filter map]. rewrite app_nil_r.
    split; [exact Hlen|]. split; [lia|]. exists []. reflexivity.
  - simpl Spec.append_all. unfold Spec.append at 2.
    set (s1 := addMessage (Spec.a_key c) (Spec.a_role c) (Spec.a_content c)
                          (Spec.a_now c) s).
    pose proof (getHistory_addMessage key (Spec.a_key c) (Spec.a_role c)
                  (Spec.a_content c) (Spec.a_now c) s) as H1.
    fold s1 in H1. rewrite appended_cons.
    destruct (String.eqb (Spec.a_key c) key) eqn:E.
    + cbv zeta in H1.
      set (m := {| role := Spec.a_role c; content := Spec.a_content c;
                   time := Spec.a_now c |}) in *.
      set (pushed := getHistory key s ++ [m]) in *.
      assert (Hl1 : length (getHistory key s1)
                    = Nat.min 20 (length pushed)).
      { rewrite H1, length_drop. unfold HISTORY_LIMIT. lia. }
      destruct (IH s1) as (Hb & Hmin & evicted & Hev); [lia|].
      fold (Spec.append_all calls s1).
      split; [exact Hb|]. split.
      * rewrite Hmin. rewrite !length_app, Hl1.
        unfold pushed. rewrite length_app. cbn [length]. lia.
      * exists (take (length pushed - HISTORY_LIMIT) pushed ++ evicted).
        transitivity (pushed ++ Spec.appended key calls).
        { unfold pushed. rewrite <- app_assoc. reflexivity. }
        rewrite <- (take_drop (length pushed - HISTORY_LIMIT) pushed) at 1.
        rewrite <- H1, <- !app_assoc. f_equal. exact Hev.
    + rewrite <- H1. fold (Spec.append_all calls s1).
      apply (IH s1). rewrite H1. exact Hlen.
Qed.

End Histories.

Lemma history_keeps_the_20_most_recent_witness :
  length (Chat.getHistory "doc:d1"
            (Spec.append_all (Examples.questions 25)
                             (Examples.empty_session true None))) <= 20.
Proof.
  refine (proj1 (history_keeps_the_20_most_recent (Examples.questions 25)
                   "doc:d1" (Examples.empty_session true None) _)).
  vm_compute. lia.
Defined.

(** ** The answer section *)

Section ExtractAnswer.
Import Js Chat.

Lemma eqb_lower_not_letter (p c : ascii) :
  lower p = p ->
  (forall x, lower x = p -> x = p) ->
  Ascii.eqb (lower p) (lower c) = Ascii.eqb p c.
Proof.
  intros Hp Hinj. rewrite Hp.
  destruct (Ascii.eqb p c) eqn:E.
  - apply Ascii.eqb_eq in E. subst c. rewrite Hp. apply Ascii.eqb_refl.
  - apply Ascii.eqb_neq. intros H. apply Ascii.eqb_neq in E. apply E.
    symmetry. apply Hinj. symmetry. exact H.
Qed.

Lemma lower_star (x : ascii) : lower x = "*"%char -> x = "*"%char.
Proof.
  destruct x as [[] [] [] [] [] [] [] []]; vm_compute; intros H;
    first [reflexivity | discriminate H].
Qed.

Lemma lower_three (x : ascii) : lower x = "3"%char -> x = "3"%char.
Proof.
  destruct x as [[] [] [] [] [] [] [] []]; vm_compute; intros H;
    first [reflexivity | discriminate H].
Qed.

Lemma lower_dot (x : ascii) : lower x = "."%char -> x = "."%char.
Proof.
  destruct x as [[] [] [] [] [] [] [] []]; vm_compute; intros H;
    first [reflexivity | discriminate H].
Qed.

(** A literal is found, case ignored, when the lower-cased text starts
    with the lower-cased literal. *)
Lemma after_literal_spec (lit s : string) :
  after_literal lit s
  = if startsWith (toLowerCase lit) (toLowerCase s)
    then Some (slice_from (String.length lit) s) else None.
Proof.
  revert s. induction lit as [|a lit IH]; intros s; [reflexivity|].
  destruct s as [|b s]; [reflexivity|]. simpl.
  destruct (Ascii.eqb (lower a) (lower b)); [apply IH|reflexivity].
Qed.

Lemma startsWith_bold_three (x : string) :
  startsWith (toLowerCase "**3.") (toLowerCase x) = startsWith "**3." x.
Proof.
  destruct x as [|a [|b [|c [|d x]]]]; cbn [toLowerCase startsWith];
    rewrite ?(eqb_lower_not_letter "*" _ eq_refl lower_star),
            ?(eqb_lower_not_letter "3" _ eq_refl lower_three),
            ?(eqb_lower_not_letter "." _ eq_refl lower_dot);
    reflexivity.
Qed.

(** The marker of the pattern is the marker of the specification. *)
Lemma after_marker_spec (x : string) :
  after_marker x
  = if Spec.starts_with_marker x
    then Some (slice_from 15 (trimStart (slice_from 4 x))) else None.
Proof.
  unfold after_marker, Spec.starts_with_marker.
  rewrite after_literal_spec, startsWith_bold_three.
  destruct (startsWith "**3." x); [|reflexivity].
  rewrite after_literal_spec. reflexivity.
Qed.

Lemma regex_match_eq (s : string) :
  regex_match s
  = match after_marker s with
    | Some r => Some (capture (trimStart r))
    | None => match s with
              | EmptyString => None
              | String _ r => regex_match r
              end
    end.
Proof. destruct s; reflexivity. Qed.

Lemma capture_eq (s : string) :
  capture s
  = if at_section s then EmptyString
    else match s with
         | EmptyString => EmptyString
         | String c r => String c (capture r)
         end.
Proof. destruct s; reflexivity. Qed.

(** The match starts at the leftmost marker. *)
Lemma regex_match_skips (pre rest : string) :
  Spec.no_marker_before pre rest = true ->
  regex_match (pre +:+ rest) = regex_match rest.
Proof.
  induction pre as [|c pre IH]; [reflexivity|].
  cbn [Spec.no_marker_before]. intros H. apply andb_prop in H as [H1 H2].
  apply negb_true_iff in H1.
  rewrite regex_match_eq, after_marker_spec, H1, string_app_cons.
  apply IH, H2.
Qed.

Lemma regex_match_none (s : string) :
  Spec.no_marker_before s "" = true -> regex_match s = None.
Proof.
  intros H. rewrite <- (string_app_nil_r s), (regex_match_skips s "" H).
  reflexivity.
Qed.

Lemma length_toLowerCase (s : string) :
  String.length (toLowerCase s) = String.length s.
Proof. induction s as [|c s IH]; simpl; congruence. Qed.

Lemma toLowerCase_app (a b : string) :
  toLowerCase (a +:+ b) = toLowerCase a +:+ toLowerCase b.
Proof.
  induction a as [|c a IH]; [reflexivity|].
  rewrite string_app_cons. simpl. rewrite IH. reflexivity.
Qed.

Lemma startsWith_app_self (a b : string) : startsWith a (a +:+ b) = true.
Proof.
  induction a as [|c a IH]; [reflexivity|].
  rewrite string_app_cons. simpl. rewrite Ascii.eqb_refl. exact IH.
Qed.

Lemma slice_from_app_length (a b : string) :
  slice_from (String.length a) (a +:+ b) = b.
Proof.
  induction a as [|c a IH]; [destruct b; reflexivity|].
  rewrite string_app_cons. simpl. exact IH.
Qed.

Lemma trimStart_app (a b : string) :
  trimStart a <> EmptyString -> trimStart (a +:+ b) = trimStart a +:+ b.
Proof.
  induction a as [|c a IH]; [intros H; contradiction H; reflexivity|].
  rewrite string_app_cons. simpl. destruct (is_space c); [exact IH|].
  intros _. reflexivity.
Qed.

Lemma startsWith_split (p s : string) :
  startsWith p s = true -> s = p +:+ slice_from (String.length p) s.
Proof.
  revert s. induction p as [|a p IH]; intros s H; [destruct s; reflexivity|].
  destruct s as [|b s]; [discriminate H|]. simpl in H.
  apply andb_prop in H as [H1 H2]. apply Ascii.eqb_eq in H1. subst b.
  rewrite string_app_cons. simpl. f_equal. apply IH, H2.
Qed.

(** Right after a marker the pattern has consumed the marker and
    nothing else. *)
Lemma after_marker_app (m r : string) :
  Spec.is_marker m = true -> after_marker (m +:+ r) = Some r.
Proof.
  unfold Spec.is_marker. intros H. apply andb_prop in H as [H1 H2].
  apply String.eqb_eq in H2.
  rewrite (startsWith_split _ _ H1). change (String.length "**3.") with 4.
  set (y := slice_from 4 m) in *.
  rewrite after_marker_spec. unfold Spec.starts_with_marker.
  rewrite string_app_assoc, startsWith_app_self.
  assert (Hs : slice_from 4 ("**3." +:+ y +:+ r) = y +:+ r) by reflexivity.
  rewrite !Hs. cbn [andb].
  assert (Hne : trimStart y <> EmptyString).
  { intros E. rewrite E in H2. discriminate H2. }
  assert (Hlen : String.length (trimStart y) = 15)
    by (rewrite <- length_toLowerCase, H2; reflexivity).
  rewrite (trimStart_app y r Hne), toLowerCase_app, H2.
  rewrite startsWith_app_self, <- Hlen, slice_from_app_length. reflexivity.
Qed.

Lemma digits_dot_spec (r : string) :
  digits_dot r = startsWith "." (Spec.skip_digits r).
Proof.
  induction r as [|c r IH]; [reflexivity|]. simpl.
  destruct (is_digit c); [exact IH|]. simpl.
  rewrite andb_true_r. apply Ascii.eqb_sym.
Qed.

(** The lookahead of the pattern is the section marker of the
    specification. *)
Lemma at_section_spec (x : string) :
  at_section x = Spec.starts_with_section x.
Proof.
  destruct x as [|a [|b [|d r]]]; try reflexivity. simpl.
  rewrite digits_dot_spec. reflexivity.
Qed.

Lemma capture_body (body post : string) :
  Spec.no_section_before body post = true ->
  Spec.ends_answer post = true ->
  capture (body +:+ post) = body.
Proof.
  intros Hb Hp. induction body as [|c body IH].
  - rewrite string_app_nil_l, capture_eq, at_section_spec.
    unfold Spec.ends_answer in Hp. apply orb_prop in Hp as [Hp|Hp].
    + apply String.eqb_eq in Hp. subst post. reflexivity.
    + rewrite Hp. reflexivity.
  - cbn [Spec.no_section_before] in Hb. apply andb_prop in Hb as [H1 H2].
    apply negb_true_iff in H1.
    rewrite capture_eq, at_section_spec, H1, string_app_cons, (IH H2).
    reflexivity.
Qed.

Lemma trimStart_before_end (body post : string) :
  Spec.ends_answer post = true ->
  trimStart (body +:+ post) = trimStart body +:+ post.
Proof.
  intros Hp. induction body as [|c body IH].
  - rewrite string_app_nil_l. simpl.
    unfold Spec.ends_answer in Hp. apply orb_prop in Hp as [Hp|Hp].
    + apply String.eqb_eq in Hp. subst post. reflexivity.
    + destruct post as [|a post]; [discriminate Hp|]. simpl.
      destruct post as [|b [|d r]]; try discriminate Hp. simpl in Hp.
      destruct (Ascii.eqb a "*") eqn:Ea; [|discriminate Hp].
      apply Ascii.eqb_eq in Ea. subst a. reflexivity.
  - rewrite string_app_cons. simpl. destruct (is_space c); [exact IH|].
    reflexivity.
Qed.

Lemma no_section_before_trimStart (body post : string) :
  Spec.no_section_before body post = true ->
  Spec.no_section_before (trimStart body) post = true.
Proof.
  induction body as [|c body IH]; [intros H; exact H|].
  intros H. simpl trimStart. destruct (is_space c); [|exact H].
  cbn [Spec.no_section_before] in H. apply andb_prop in H as [_ H].
  apply IH, H.
Qed.

Lemma trimStart_idempotent (s : string) : trimStart (trimStart s) = trimStart s.
Proof.
  induction s as [|c s IH]; [reflexivity|]. simpl.
  destruct (is_space c) eqn:E; [exact IH|]. simpl. rewrite E. reflexivity.
Qed.

(** C6, as the code has it. The marker of the answer section is the
    bold one of the specification's example, [**3. Agent Answer:**]:
    two asterisks, [3.], white space or none, [Agent Answer:] in any
    case of letters, two asterisks; and a numbered section begins
    with two asterisks, digits and a dot. [extractAnswer] returns,
    trimmed, the text between the first such marker and the next
    numbered section, or the end of the text. On the example of the
    specification the result is [The value is 42], and a text in
    which no such marker begins, also one that carries
    [3. Agent Answer:] without the asterisks, is returned as it
    is. *)
Theorem extractAnswer_between_bold_markers
    (pre m body post : string) :
  Spec.is_marker m = true ->
  Spec.no_marker_before pre (m +:+ body +:+ post) = true ->
  Spec.no_section_before body post = true ->
  Spec.ends_answer post = true ->
  extractAnswer (pre +:+ m +:+ body +:+ post) = trim body
  /\ extractAnswer "... **3. Agent Answer:** The value is 42 **4. Next:** ..."
     = "The value is 42"
  /\ extractAnswer "plain text, no markers" = "plain text, no markers"
  /\ (forall s, Spec.no_marker_before s "" = true -> extractAnswer s = s).
Proof.
  intros Hm Hpre Hbody Hpost.
  split; [|split; [reflexivity|split; [reflexivity|]]].
  - unfold extractAnswer.
    rewrite (regex_match_skips pre _ Hpre), regex_match_eq.
    rewrite (after_marker_app m _ Hm).
    rewrite (trimStart_before_end body post Hpost).
    rewrite (capture_body _ post (no_section_before_trimStart _ _ Hbody) Hpost).
    unfold trim. rewrite trimStart_idempotent. reflexivity.
  - intros s Hs. unfold extractAnswer. rewrite (regex_match_none s Hs).
    reflexivity.
Qed.

End ExtractAnswer.

Lemma extractAnswer_between_bold_markers_witness :
  Chat.extractAnswer
    ("Thoughts... " +:+ "**3.  agent ANSWER:**" +:+ "  Buy **now**, 2. later  "
       +:+ "**12. Sources:** none")
  = Js.trim "  Buy **now**, 2. later  ".
Proof.
  refine (proj1 (extractAnswer_between_bold_markers
                   "Thoughts... " "**3.  agent ANSWER:**"
                   "  Buy **now**, 2. later  " "**12. Sources:** none"
                   _ _ _ _)); vm_compute; reflexivity.
Defined.

(** The asterisks belong to the marker: a text that carries
    [3. Agent Answer:] without them, or with the asterisks around the
    number only, has no marker and is returned whole, its next section
    included. *)
Lemma extractAnswer_needs_bold_marker :
  let s := "3. Agent Answer: The value is 42 **4. Next:** more" in
  let s' := "**3.** Agent Answer: The value is 42 **4. Next:** more" in
  Js.includes "3. Agent Answer:" s = true
  /\ Chat.extractAnswer s = s
  /\ Chat.extractAnswer s <> "The value is 42"
  /\ Chat.extractAnswer s' = s'
  /\ Chat.extractAnswer s' <> "The value is 42".
Proof.
  vm_compute.
  split; [reflexivity|]. split; [reflexivity|]. split; [discriminate|].
  split; [reflexivity|discriminate].
Qed.
(** ** Chat turns *)

Section ChatTurns.
Import Js State Chat.

Lemma reports_app (key : string) (a b : list Event) :
  Spec.reports key (a ++ b) = Spec.reports key a + Spec.reports key b.
Proof.
  unfold Spec.reports. rewrite List.filter_app, length_app. reflexivity.
Qed.

Lemma reports_deliver (key message : string) (now : Z) (s : Session) :
  Spec.reports key (emitted (world (deliver key message now s)))
  = S (Spec.reports key (emitted (world s))).
Proof.
  unfold deliver. simpl. rewrite reports_app. unfold Spec.reports at 2.
  simpl. rewrite String.eqb_refl. simpl. lia.
Qed.

Lemma reports_fail (key error : string) (s : Session) :
  Spec.reports key (emitted (world (fail key error s)))
  = S (Spec.reports key (emitted (world s))).
Proof.
  unfold fail. simpl. rewrite reports_app. unfold Spec.reports at 2.
  simpl. rewrite String.eqb_refl. simpl. lia.
Qed.

(** While the stream of a document turn is read, either no answer has
    come and the marker still stands, or the turn has reported. *)
Lemma doc_events_report_or_keep_marker (key : string)
    (events : list (Z * Research.StreamData)) (s : Session) :
  let s' := fold_left (on_doc_event key) events s in
  Spec.reports key (emitted (world s)) <= Spec.reports key (emitted (world s'))
  /\ (activeStream s' = activeStream s
      \/ Spec.reports key (emitted (world s))
         < Spec.reports key (emitted (world s'))).
Proof.
  revert s. induction events as [|ev events IH]; intros s; cbv zeta.
  - simpl. split; [lia|left; reflexivity].
  - simpl fold_left. destruct (IH (on_doc_event key s ev)) as [Hle Hor].
    unfold on_doc_event in *. destruct (is_answer (snd ev)).
    + cbn [set_active world] in *. rewrite reports_deliver in *.
      split; [lia|right; lia].
    + split; [exact Hle|exact Hor].
Qed.

(** A document turn on the live path that nobody cancels reports: a
    response or an error is emitted for its context. *)
Lemma sendDocChat_reports_unless_cancelled
    (docId docTitle question : string) (env : Turn) (s : Session) :
  is_live s = true ->
  turn_cancelled env = false ->
  Spec.reports ("doc:" +:+ docId) (emitted (world s))
  < Spec.reports ("doc:" +:+ docId)
      (emitted (world (sendDocChat docId docTitle question env s))).
Proof.
  intros Hlive Hcancel. unfold sendDocChat.
  set (key := "doc:" +:+ docId).
  set (s1 := with_world (emit (ChatUserMessage key question)) _).
  assert (Hl1 : is_live s1 = true) by exact Hlive.
  assert (Hr1 : Spec.reports key (emitted (world s1))
                = Spec.reports key (emitted (world s))).
  { assert (He : emitted (world s1)
                 = emitted (world s) ++ [ChatUserMessage key question])
      by reflexivity.
    rewrite He, reports_app. unfold Spec.reports at 2. simpl. lia. }
  rewrite Hl1. cbn [negb].
  set (s3 := with_world (request _) _).
  assert (Hr3 : Spec.reports key (emitted (world s3))
                = Spec.reports key (emitted (world s))).
  { assert (He : emitted (world s3)
                 = emitted (world s1) ++ [ChatThinking key])
      by reflexivity.
    rewrite He, reports_app, Hr1. unfold Spec.reports at 2. simpl. lia. }
  destruct (turn_execute env) as [[workflowId runId]|msg].
  2:{ cbn [set_active world]. rewrite reports_fail. lia. }
  rewrite Hcancel.
  set (s4 := with_world (request (Api.NetStream workflowId runId)) _).
  assert (Hr4 : Spec.reports key (emitted (world s4))
                = Spec.reports key (emitted (world s))) by exact Hr3.
  destruct (doc_events_report_or_keep_marker key (turn_events env) s4)
    as [Hle Hor].
  set (s5 := fold_left (on_doc_event key) (turn_events env) s4) in *.
  destruct (turn_stream_end env) as [[]|msg].
  2:{ cbn [set_active world]. rewrite reports_fail. lia. }
  destruct (activeStream s5) as [h|] eqn:Ea.
  - destruct (turn_status env) as [run|msg].
    + cbn [set_active world]. destruct (truthy _).
      * rewrite reports_deliver. simpl. lia.
      * rewrite reports_fail. simpl. lia.
    + cbn [set_active world]. rewrite reports_fail. simpl. lia.
  - destruct Hor as [Hsame|Hlt]; [|lia].
    try rewrite Ea in Hsame. discriminate Hsame.
Qed.

(** A workspace turn whose list of documents can be read, whose
    stream delivers no answer and ends normally emits nothing after
    [chat:thinking]: no response, no error, and the history holds
    the question only. *)
Lemma sendWorkspaceChat_silent_without_answer
    (wsId wsName question workflowId runId : string) (docs : list Doc)
    (env : Turn) (s : Session) :
  is_live s = true ->
  workspaceDocs wsId (world s) = Returned docs ->
  turn_execute env = Returned (workflowId, runId) ->
  forallb (fun ev => negb (is_answer (snd ev))) (turn_events env) = true ->
  turn_stream_end env = Returned tt ->
  let s' := sendWorkspaceChat wsId wsName question env s in
  emitted (world s')
  = emitted (world s) ++ [ChatUserMessage ("ws:" +:+ wsId) question;
                          ChatThinking ("ws:" +:+ wsId)]
  /\ Spec.reports ("ws:" +:+ wsId) (emitted (world s'))
     = Spec.reports ("ws:" +:+ wsId) (emitted (world s)).
Proof.
  intros Hlive Hdocs Hexec Hquiet Hend. cbv zeta.
  assert (Hem : emitted (world (sendWorkspaceChat wsId wsName question env s))
                = emitted (world s)
                  ++ [ChatUserMessage ("ws:" +:+ wsId) question;
                      ChatThinking ("ws:" +:+ wsId)]).
  { unfold sendWorkspaceChat.
    set (key := "ws:" +:+ wsId).
    set (s1 := with_world (emit (ChatUserMessage key question)) _).
    assert (Hl1 : is_live s1 = true) by exact Hlive.
    assert (Hd1 : workspaceDocs wsId
                    (world (with_world (emit (ChatThinking key)) s1))
                  = Returned docs) by exact Hdocs.
    rewrite Hl1. cbn [negb]. cbv zeta. rewrite Hd1, Hexec, Hend.
    set (s4 := with_world (request (Api.NetStream workflowId runId)) _).
    assert (Hfold : forall evs t,
               forallb (fun ev => negb (is_answer (snd ev))) evs = true ->
               fold_left (on_workspace_event key) evs t = t).
    { induction evs as [|ev evs IH]; intros t Hq; [reflexivity|].
      simpl in Hq. apply andb_prop in Hq as [Hq1 Hq2].
      apply negb_true_iff in Hq1. simpl. unfold on_workspace_event at 2.
      rewrite Hq1. apply IH, Hq2. }
    rewrite (Hfold _ _ Hquiet). unfold s4, s1. simpl.
    rewrite <- app_assoc. reflexivity. }
  split; [exact Hem|].
  rewrite Hem, reports_app. unfold Spec.reports at 2. simpl. lia.
Qed.

End ChatTurns.

Section ChatExamples.
Import Js State Chat Examples.

Lemma sendDocChat_reports_unless_cancelled_witness :
  Spec.reports "doc:d1" (emitted (world (empty_session true (Some client))))
  < Spec.reports "doc:d1"
      (emitted (world (sendDocChat "d1" "Chips" "Why?" turn_without_answer
                         (empty_session true (Some client))))).
Proof.
  apply (sendDocChat_reports_unless_cancelled "d1" "Chips" "Why?"
           turn_without_answer (empty_session true (Some client)));
    reflexivity.
Defined.

Lemma sendWorkspaceChat_silent_without_answer_witness :
  emitted (world (sendWorkspaceChat "w1" "Chips" "Why?" turn_without_answer
                    (empty_session true (Some client))))
  = emitted (world (empty_session true (Some client)))
    ++ [ChatUserMessage ("ws:" +:+ "w1") "Why?"; ChatThinking ("ws:" +:+ "w1")].
Proof.
  refine (proj1 (sendWorkspaceChat_silent_without_answer "w1" "Chips" "Why?"
                   "wf-1" "run-1" [] turn_without_answer
                   (empty_session true (Some client)) _ _ _ _ _));
    reflexivity.
Defined.

(** C3 on the code. The same live turn, its stream ending without an
    [answer] while the run has a result: the document chat asks for
    the status and emits the response; the workspace chat emits
    neither a response nor an error and appends no answer. *)
Theorem workspace_turn_ends_silently_where_document_turn_reports :
  let s0 := empty_session true (Some client) in
  let doc := sendDocChat "d1" "Chips" "Why?" turn_without_answer s0 in
  let ws := sendWorkspaceChat "w1" "Chips" "Why?" turn_without_answer s0 in
  emitted (world doc)
  = [ChatUserMessage "doc:d1" "Why?"; ChatThinking "doc:d1";
     ChatResponse "doc:d1" "Margins fell."]
  /\ map content (getHistory "doc:d1" doc) = ["Why?"; "Margins fell."]
  /\ emitted (world ws)
     = [ChatUserMessage "ws:w1" "Why?"; ChatThinking "ws:w1"]
  /\ map content (getHistory "ws:w1" ws) = ["Why?"]
  /\ Spec.reports "ws:w1" (emitted (world ws)) = 0.
Proof. vm_compute. repeat split; reflexivity. Qed.

End ChatExamples.

(** * Further properties *)

(** ** The token cache and authenticated requests *)

Section TokenReuse.
Import Js Api.

Lemma getAuthToken_fresh (api : VertesiaAPI) (now : Z)
    (resp : Outcome AuthResponse) (now' : Z) :
  truthy (jwt api) = true ->
  (now < jwtExpiry api - SKEW)%Z ->
  getAuthToken api now resp now'
  = {| ar_api := api; ar_net := []; ar_value := Returned (jwt api) |}.
Proof.
  intros Ht Hn. unfold getAuthToken. rewrite Ht.
  replace (now <? jwtExpiry api - SKEW)%Z with true
    by (symmetry; apply Z.ltb_lt; exact Hn).
  reflexivity.
Qed.

(** X1. A token that an exchange delivered is used again, without any
    request and without touching the cache, by every call made less
    than 3,440,000 ms after it was stored. *)
Theorem getAuthToken_reuses_token_within_lifetime
    (api : VertesiaAPI) (now T now2 now2' : Z) (res : AuthResponse)
    (resp2 : Outcome AuthResponse) :
  (jwtExpiry api - SKEW <= now)%Z ->
  auth_ok res = true ->
  truthy (token_of (auth_data res)) = true ->
  (now2 < T + 3440000)%Z ->
  let first := getAuthToken api now (Returned res) T in
  let second := getAuthToken (ar_api first) now2 resp2 now2' in
  ar_net second = []
  /\ ar_value second = ar_value first
  /\ ar_api second = ar_api first.
Proof.
  intros Hstale Hok Htok Hnow. cbv zeta.
  rewrite (getAuthToken_stale api now (Returned res) T Hstale), Hok.
  cbn [ar_api ar_value].
  rewrite getAuthToken_fresh;
    [repeat split | exact Htok | cbn [jwtExpiry]; unfold ASSUMED_LIFETIME, SKEW; lia].
Qed.

(** X2. An exchange that succeeds without a usable token (none of the
    three names carries a non-empty text) caches nothing that counts:
    the call returns what it found, and the next call sends the
    exchange again at whatever time it is made. *)
Theorem getAuthToken_without_token_asks_again
    (api : VertesiaAPI) (now T now2 now2' : Z) (res : AuthResponse)
    (resp2 : Outcome AuthResponse) :
  (jwtExpiry api - SKEW <= now)%Z ->
  auth_ok res = true ->
  truthy (token_of (auth_data res)) = false ->
  let first := getAuthToken api now (Returned res) T in
  ar_value first = Returned (token_of (auth_data res))
  /\ ar_net (getAuthToken (ar_api first) now2 resp2 now2') = [NetAuth].
Proof.
  intros Hstale Hok Htok. cbv zeta.
  rewrite (getAuthToken_stale api now (Returned res) T Hstale), Hok.
  cbn [ar_api ar_value]. split; [reflexivity|].
  unfold getAuthToken. cbn [jwt]. rewrite Htok. cbn [andb].
  destruct resp2 as [r|m]; [destruct (auth_ok r)|]; reflexivity.
Qed.

End TokenReuse.

Section Calls.
Import Js Api Http.
Context {J : Type} (parse : string -> Outcome J).

(** X3. Two calls in a row, the first with a stale cache and a
    successful exchange stored at [T], the second less than
    3,440,000 ms later: the second sends the endpoint request only,
    under the token of the first, and its result is the error
    [API <status>: <endpoint>] for a failure status, [null] for an
    empty body and the parsed body otherwise. *)
Theorem call_authenticates_once_for_two_calls
    (api : VertesiaAPI) (e1 e2 : string) (o1 o2 : Options)
    (now T now2 now2' : Z) (auth : AuthResponse)
    (auth2 : Outcome AuthResponse) (r1 : Outcome Response) (r2 : Response) :
  (jwtExpiry api - SKEW <= now)%Z ->
  auth_ok auth = true ->
  truthy (token_of (auth_data auth)) = true ->
  (now2 < T + 3440000)%Z ->
  let first := call parse api e1 o1 now (Returned auth) T r1 in
  let second := call parse (cr_api first) e2 o2 now2 auth2 now2' (Returned r2) in
  cr_requests first
  = [AuthRequest; EndpointRequest e1 o1 (bearer (token_of (auth_data auth)))]
  /\ cr_requests second
     = [EndpointRequest e2 o2 (bearer (token_of (auth_data auth)))]
  /\ cr_value second
     = (if negb (http_ok r2)
        then Threw ("API " +:+ pretty (http_status r2) +:+ ": " +:+ e2)
        else if String.eqb (http_text r2) "" then Returned None
        else match parse (http_text r2) with
             | Returned v => Returned (Some v)
             | Threw msg => Threw msg
             end).
Proof.
  intros Hstale Hok Htok Hnow. cbv zeta.
  assert (H1 : getAuthToken api now (Returned auth) T
               = {| ar_api := {| apiKey := apiKey api; envId := envId api;
                                 jwt := token_of (auth_data auth);
                                 jwtExpiry := (T + ASSUMED_LIFETIME)%Z |};
                    ar_net := [NetAuth];
                    ar_value := Returned (token_of (auth_data auth)) |}).
  { rewrite (getAuthToken_stale api now (Returned auth) T Hstale), Hok.
    reflexivity. }
  assert (Hapi : cr_api (call parse api e1 o1 now (Returned auth) T r1)
                 = {| apiKey := apiKey api; envId := envId api;
                      jwt := token_of (auth_data auth);
                      jwtExpiry := (T + ASSUMED_LIFETIME)%Z |}).
  { unfold call. rewrite H1. cbn [ar_value ar_api ar_net].
    destruct r1 as [r|m]; [|reflexivity].
    destruct (negb (http_ok r)); [reflexivity|].
    destruct (String.eqb (http_text r) ""); reflexivity. }
  split.
  { unfold call. rewrite H1. cbn [ar_value ar_api ar_net].
    destruct r1 as [r|m]; [|reflexivity].
    destruct (negb (http_ok r)); [reflexivity|].
    destruct (String.eqb (http_text r) ""); reflexivity. }
  rewrite Hapi. unfold call at 1 2.
  rewrite getAuthToken_fresh;
    [| exact Htok | cbn [jwtExpiry]; unfold ASSUMED_LIFETIME, SKEW; lia].
  cbn [ar_value ar_api ar_net jwt map app].
  destruct (negb (http_ok r2)); [split; reflexivity|].
  destruct (String.eqb (http_text r2) ""); split; reflexivity.
Qed.

(** X4. When the credential exchange fails, by a failure status or by
    a failing request, [call] throws having sent the exchange only:
    the endpoint request is not sent, and the client is as before, so
    that the next call tries the exchange again. *)
Theorem call_sends_nothing_without_token
    (api : VertesiaAPI) (e : string) (o : Options) (now now' : Z)
    (auth : Outcome AuthResponse) (r : Outcome Response) :
  (jwtExpiry api - SKEW <= now)%Z ->
  match auth with
  | Returned a => auth_ok a = false
  | Threw _ => True
  end ->
  let c := call parse api e o now auth now' r in
  cr_requests c = [AuthRequest]
  /\ cr_api c = api
  /\ exists msg, cr_value c = Threw msg.
Proof.
  intros Hstale Hfail. cbv zeta. unfold call.
  rewrite (getAuthToken_stale api now auth now' Hstale).
  destruct auth as [a|m].
  - rewrite Hfail. cbn. repeat split. eexists. reflexivity.
  - cbn. repeat split. eexists. reflexivity.
Qed.

End Calls.

Lemma getAuthToken_reuses_token_within_lifetime_witness :
  let res := {| Api.auth_ok := true;
                Api.auth_data := {| Api.data_token := None;
                                    Api.data_jwt := Some "fresh";
                                    Api.data_access_token := None |} |} in
  Api.ar_net
    (Api.getAuthToken
       (Api.ar_api (Api.getAuthToken Examples.client 500 (Js.Returned res) 510))
       3440509 (Js.Threw "offline") 3440509)
  = [].
Proof.
  cbv zeta.
  refine (proj1 (getAuthToken_reuses_token_within_lifetime Examples.client
                   500 510 3440509 3440509 _ (Js.Threw "offline") _ _ _ _));
    vm_compute; try reflexivity; discriminate.
Defined.

Lemma getAuthToken_without_token_asks_again_witness :
  let res := {| Api.auth_ok := true;
                Api.auth_data := {| Api.data_token := Some "";
                                    Api.data_jwt := None;
                                    Api.data_access_token := None |} |} in
  Api.ar_net
    (Api.getAuthToken
       (Api.ar_api (Api.getAuthToken Examples.client 500 (Js.Returned res) 510))
       511 (Js.Returned res) 512)
  = [Api.NetAuth].
Proof.
  cbv zeta.
  refine (proj2 (getAuthToken_without_token_asks_again Examples.client
                   500 510 511 512 _ _ _ _ _));
    vm_compute; try reflexivity; discriminate.
Defined.

Lemma call_authenticates_once_for_two_calls_witness :
  let auth := {| Api.auth_ok := true;
                 Api.auth_data := {| Api.data_token := Some "tok";
                                     Api.data_jwt := None;
                                     Api.data_access_token := None |} |} in
  let get := {| Http.opt_method := None; Http.opt_body := None |} in
  let first := Http.call Notions.braces_outcome Examples.client "/objects?limit=1000"
                 get 500 (Js.Returned auth) 510
                 (Js.Returned {| Http.http_ok := true; Http.http_status := 200;
                                 Http.http_text := "{a}" |}) in
  Http.cr_requests
    (Http.call Notions.braces_outcome (Http.cr_api first) "/collections/c1"
       {| Http.opt_method := Some "DELETE"; Http.opt_body := None |}
       9000 (Js.Threw "offline") 9000
       (Js.Returned {| Http.http_ok := true; Http.http_status := 204;
                       Http.http_text := "" |}))
  = [Http.EndpointRequest "/collections/c1"
       {| Http.opt_method := Some "DELETE"; Http.opt_body := None |}
       "Bearer tok"].
Proof.
  cbv zeta.
  refine (proj1 (proj2 (call_authenticates_once_for_two_calls
                          Notions.braces_outcome Examples.client _ _ _ _
                          500 510 9000 9000 _ _ _ _ _ _ _ _)));
    vm_compute; try reflexivity; discriminate.
Defined.

Lemma call_sends_nothing_without_token_witness :
  Http.cr_requests
    (Http.call Notions.braces_outcome Examples.client "/objects?limit=1000"
       {| Http.opt_method := None; Http.opt_body := None |}
       500 (Js.Threw "offline") 510
       (Js.Returned {| Http.http_ok := true; Http.http_status := 200;
                       Http.http_text := "{a}" |}))
  = [Http.AuthRequest].
Proof.
  refine (proj1 (call_sends_nothing_without_token Notions.braces_outcome
                   Examples.client _ _ 500 510 (Js.Threw "offline") _ _ _));
    [vm_compute; discriminate | exact I].
Defined.

(** ** The streaming decoder, further *)

Section DecoderFurther.
Import Js Api.
Context {J : Type} (parse : string -> option J).

Lemma concat_chunks_app (a b : list string) :
  Spec.concat_chunks (a ++ b) = Spec.concat_chunks a +:+ Spec.concat_chunks b.
Proof.
  induction a as [|c a IH]; [reflexivity|]. simpl.
  rewrite IH, string_app_assoc. reflexivity.
Qed.

(** X5. The cut of the body into chunks is of no consequence: the
    events delivered are those of the body received in one piece. *)
Theorem streamResponse_ignores_chunk_boundaries
    (tok : option string) (chunks : list string) (failure : option string) :
  sr_events (streamResponse parse (Returned tok)
               (Returned {| res_ok := true; res_chunks := chunks;
                            res_failure := failure |}))
  = sr_events (streamResponse parse (Returned tok)
                 (Returned {| res_ok := true;
                              res_chunks := [Spec.concat_chunks chunks];
                              res_failure := failure |})).
Proof.
  unfold streamResponse. cbn [res_ok res_chunks negb sr_events].
  rewrite !read_loop_lines by reflexivity.
  assert (H : Spec.concat_chunks [Spec.concat_chunks chunks]
              = Spec.concat_chunks chunks) by apply string_app_nil_r.
  rewrite H. reflexivity.
Qed.

(** X6. What follows the last newline of the body is never delivered:
    a body that ends with a frame that no newline closes gives the
    same events as the body without that frame. *)
Theorem streamResponse_drops_unterminated_tail
    (tok : option string) (chunks : list string) (tail : string)
    (failure : option string) :
  Spec.no_newline tail = true ->
  sr_events (streamResponse parse (Returned tok)
               (Returned {| res_ok := true; res_chunks := chunks ++ [tail];
                            res_failure := failure |}))
  = sr_events (streamResponse parse (Returned tok)
                 (Returned {| res_ok := true; res_chunks := chunks;
                              res_failure := failure |})).
Proof.
  intros Ht. unfold streamResponse. cbn [res_ok res_chunks negb sr_events].
  rewrite !read_loop_lines by reflexivity.
  rewrite concat_chunks_app.
  assert (H : Spec.concat_chunks [tail] = tail) by apply string_app_nil_r.
  rewrite H, !string_app_nil_l.
  rewrite (split_nl_app (Spec.concat_chunks chunks) tail).
  assert (Hn : Spec.no_newline
                 (List.last (split_nl (Spec.concat_chunks chunks)) "" +:+ tail)
               = true).
  { pose proof (last_split_nl_no_newline (Spec.concat_chunks chunks)) as Hl.
    revert Hl. generalize (List.last (split_nl (Spec.concat_chunks chunks)) "").
    intros b Hb. induction b as [|c b IH]; [exact Ht|].
    rewrite string_app_cons. simpl in *.
    apply andb_prop in Hb as [H1 H2]. rewrite H1, (IH H2). reflexivity. }
  rewrite (split_nl_no_newline _ Hn), removelast_last. reflexivity.
Qed.

Lemma trimEnd_app_space (s ws : string) :
  Notions.all_space ws = true -> trimEnd (s +:+ ws) = trimEnd s.
Proof.
  intros Hw. induction s as [|c s IH].
  - rewrite string_app_nil_l. induction ws as [|w ws IHw]; [reflexivity|].
    simpl in *. apply andb_prop in Hw as [H1 H2].
    rewrite (IHw H2), H1. reflexivity.
  - rewrite string_app_cons. simpl. rewrite IH. reflexivity.
Qed.

Lemma trimStart_all_space (ws : string) :
  Notions.all_space ws = true -> trimStart ws = "".
Proof.
  induction ws as [|w ws IH]; [reflexivity|]. simpl.
  intros H. apply andb_prop in H as [H1 H2]. rewrite H1. exact (IH H2).
Qed.

Lemma trim_app_space (s ws : string) :
  Notions.all_space ws = true -> trim (s +:+ ws) = trim s.
Proof.
  intros Hw. unfold trim. induction s as [|c s IH].
  - rewrite string_app_nil_l, (trimStart_all_space ws Hw). reflexivity.
  - rewrite string_app_cons. simpl. destruct (is_space c); [exact IH|].
    rewrite <- string_app_cons. apply trimEnd_app_space, Hw.
Qed.

Lemma slice_from_app (n : nat) (a b : string) :
  n <= String.length a -> slice_from n (a +:+ b) = slice_from n a +:+ b.
Proof.
  revert a. induction n as [|n IH]; intros a H; [reflexivity|].
  destruct a as [|c a]; [simpl in H; lia|].
  rewrite string_app_cons. simpl. apply IH. simpl in H. lia.
Qed.

Lemma startsWith_length (p s : string) :
  startsWith p s = true -> String.length p <= String.length s.
Proof.
  revert s. induction p as [|a p IH]; intros s H; [simpl; lia|].
  destruct s as [|b s]; [discriminate H|]. simpl in *.
  apply andb_prop in H as [_ H]. specialize (IH s H). lia.
Qed.

Lemma startsWith_app (p s t : string) :
  startsWith p s = true -> startsWith p (s +:+ t) = true.
Proof.
  revert s. induction p as [|a p IH]; intros s H; [reflexivity|].
  destruct s as [|b s]; [discriminate H|]. rewrite string_app_cons.
  simpl in *. apply andb_prop in H as [H1 H2]. rewrite H1, (IH s H2).
  reflexivity.
Qed.

(** X7. White space at the end of a [data:] line, such as the
    carriage return that a CRLF line end leaves behind, does not
    change what the line delivers. *)
Theorem decode_line_ignores_trailing_space (line ws : string) :
  startsWith "data:" line = true ->
  Notions.all_space ws = true ->
  decode_line parse (line +:+ ws) = decode_line parse line.
Proof.
  intros Hp Hw. unfold decode_line.
  rewrite (startsWith_app _ _ ws Hp), Hp. cbn [negb].
  rewrite slice_from_app by (apply (startsWith_length "data:"), Hp).
  rewrite (trim_app_space _ ws Hw). reflexivity.
Qed.

End DecoderFurther.

Lemma streamResponse_drops_unterminated_tail_witness :
  Api.sr_events
    (Api.streamResponse Spec.braces_parse (Js.Returned (Some "t"))
       (Js.Returned {| Api.res_ok := true;
                       Api.res_chunks := ["data: {a}" +:+ Chat.nl] ++ ["data: {b}"];
                       Api.res_failure := None |}))
  = Api.sr_events
      (Api.streamResponse Spec.braces_parse (Js.Returned (Some "t"))
         (Js.Returned {| Api.res_ok := true;
                         Api.res_chunks := ["data: {a}" +:+ Chat.nl];
                         Api.res_failure := None |})).
Proof.
  apply (streamResponse_drops_unterminated_tail Spec.braces_parse);
    reflexivity.
Defined.

Lemma decode_line_ignores_trailing_space_witness :
  Api.decode_line Spec.braces_parse
    ("data: {a}" +:+ String (ascii_of_N 13) "")
  = Api.decode_line Spec.braces_parse "data: {a}".
Proof.
  apply (decode_line_ignores_trailing_space Spec.braces_parse); reflexivity.
Defined.

(** ** The job list, further *)

Section JobListFurther.
Import Js State.

Lemma without_id_all (jobId : nat) (js : list Job) :
  Forall (fun j => job_id j <> jobId)
         (List.filter (fun j => negb (has_id jobId j)) js).
Proof.
  induction js as [|j js IH]; simpl; [constructor|].
  destruct (has_id jobId j) eqn:E; simpl; [exact IH|].
  constructor; [|exact IH]. unfold has_id in E. apply Nat.eqb_neq, E.
Qed.

Lemma without_id_keep (jobId : nat) (keep : Job -> bool) (js : list Job) :
  (forall j, keep j = true -> job_id j <> jobId) ->
  List.filter keep (List.filter (fun j => negb (has_id jobId j)) js)
  = List.filter keep js.
Proof.
  intros Hk. induction js as [|j js IH]; simpl; [reflexivity|].
  destruct (has_id jobId j) eqn:E; simpl.
  - destruct (keep j) eqn:Ek; [|exact IH].
    unfold has_id in E. apply Nat.eqb_eq in E.
    destruct (Hk j Ek E).
  - rewrite IH. reflexivity.
Qed.

Lemma filter_length_split {A} (p : A -> bool) (l : list A) :
  length (List.filter (fun x => negb (p x)) l) + length (List.filter p l)
  = length l.
Proof.
  induction l as [|x l IH]; simpl; [reflexivity|].
  destruct (p x); simpl; lia.
Qed.

(** X8. [removeJob] takes every job with the id off the list, also an
    older one that a newer job with the same id had shadowed; the
    other jobs stay, in their order: whatever selection of jobs with
    other ids one reads off the list, it reads the same before and
    after. The new list is saved and announced once. *)
Theorem removeJob_removes_every_job_with_the_id (jobId : nat) (w : World) :
  let w' := removeJob jobId w in
  Forall (fun j => job_id j <> jobId) (jobs w')
  /\ find (has_id jobId) (jobs w') = None
  /\ (forall keep : Job -> bool,
        (forall j, keep j = true -> job_id j <> jobId) ->
        List.filter keep (jobs w') = List.filter keep (jobs w))
  /\ jobs w' = List.filter (fun j => negb (Nat.eqb (job_id j) jobId)) (jobs w)
  /\ length (jobs w') + length (List.filter (has_id jobId) (jobs w))
     = length (jobs w)
  /\ savedJobs w' = savedJobs w ++ [jobs w']
  /\ emitted w' = emitted w ++ [JobsChanged (jobs w')].
Proof.
  cbv zeta. unfold removeJob. simpl.
  split; [apply without_id_all|].
  split; [apply find_none_of_no_match, without_id_all|].
  split; [intros keep Hk; apply without_id_keep, Hk|].
  split; [reflexivity|].
  split; [apply filter_length_split|]. split; reflexivity.
Qed.

Lemma assign_first_at (jobId : nat) (u : JobUpdates)
    (pre : list Job) (job : Job) (post : list Job) :
  Forall (fun j => job_id j <> jobId) pre ->
  job_id job = jobId ->
  assign_first jobId u (pre ++ job :: post) = pre ++ assign job u :: post.
Proof.
  intros Hpre Hid. induction Hpre as [|j pre Hj _ IH]; simpl.
  - unfold has_id. rewrite Hid, Nat.eqb_refl. reflexivity.
  - unfold has_id at 1. apply Nat.eqb_neq in Hj. rewrite Hj, IH.
    reflexivity.
Qed.

(** X9. [updateJob] changes the first job with the id and no other:
    the jobs before it and all jobs after it, among them an older job
    with the same id, are as they were; the list is saved and
    announced once. *)
Theorem updateJob_changes_the_first_match_only
    (jobId : nat) (u : JobUpdates) (w : World)
    (pre : list Job) (job : Job) (post : list Job) :
  jobs w = pre ++ job :: post ->
  Forall (fun j => job_id j <> jobId) pre ->
  job_id job = jobId ->
  let w' := updateJob jobId u w in
  jobs w' = pre ++ assign job u :: post
  /\ savedJobs w' = savedJobs w ++ [jobs w']
  /\ emitted w' = emitted w ++ [JobsChanged (jobs w')].
Proof.
  intros Hjobs Hpre Hid. cbv zeta. unfold updateJob.
  assert (Hfind : find (has_id jobId) (jobs w) = Some job).
  { rewrite Hjobs. clear Hjobs. induction Hpre as [|j pre Hj _ IH]; simpl.
    - unfold has_id. rewrite Hid, Nat.eqb_refl. reflexivity.
    - unfold has_id at 1. apply Nat.eqb_neq in Hj. rewrite Hj. exact IH. }
  rewrite Hfind. simpl. rewrite Hjobs, (assign_first_at jobId u pre job post Hpre Hid).
  repeat split.
Qed.

(** *** What is saved is what is listed *)

Lemma in_sync_updateJob (k : nat) (u : JobUpdates) (w : World) :
  Notions.in_sync w -> Notions.in_sync (updateJob k u w).
Proof.
  unfold Notions.in_sync, updateJob. intros H.
  destruct (find (has_id k) (jobs w)); [|exact H].
  simpl. apply last_snoc.
Qed.

Lemma in_sync_addJob (job : Job) (w : World) : Notions.in_sync (addJob job w).
Proof. unfold Notions.in_sync, addJob. simpl. apply last_snoc. Qed.

Lemma in_sync_removeJob (k : nat) (w : World) : Notions.in_sync (removeJob k w).
Proof. unfold Notions.in_sync, removeJob. simpl. apply last_snoc. Qed.

End JobListFurther.

Section SyncFurther.
Import Js State Research.

Lemma reload_catalog_saved (k : nat) (env : Completion) (w : World) :
  jobs (reload_catalog k env w) = jobs w
  /\ savedJobs (reload_catalog k env w) = savedJobs w.
Proof.
  unfold reload_catalog. destruct (api w); [|auto].
  destruct (c_objects env) as [objects|msg]; [|auto]. simpl jobs.
  destruct (find (has_id k) (jobs w)) as [job|]; [|auto].
  destruct (truthy (job_workspaceId job)); [|auto].
  destruct (c_members env); auto.
Qed.

Lemma in_sync_completeJob (k : nat) (env : Completion) (w : World) :
  Notions.in_sync w -> Notions.in_sync (completeJob k env w).
Proof.
  intros H. unfold completeJob, Notions.in_sync. simpl.
  destruct (reload_catalog_saved k env (updateJob k (completion_updates env) w))
    as [-> ->].
  apply (in_sync_updateJob k _ w H).
Qed.

Lemma in_sync_request_via_api (c : Api.NetCall) (w : World) :
  Notions.in_sync w -> Notions.in_sync (request_via_api c w).
Proof. unfold request_via_api. destruct (api w); intros H; exact H. Qed.

Lemma in_sync_step (s : Signal) (t : Tracker) :
  Notions.in_sync (world t) -> Notions.in_sync (world (step s t)).
Proof.
  intros H.
  destruct s as [k|k run env|k data env|k env];
    cbn [step].
  - unfold on_tick. destruct (pollers t !! k) as [p|]; [|exact H].
    destruct (intervalActive p); [|exact H].
    destruct (Nat.ltb MAX_ATTEMPTS _);
      cbn [with_world clearInterval set_poller world].
    + apply in_sync_updateJob, H.
    + apply in_sync_request_via_api, H.
  - unfold on_reply. destruct (pollers t !! k) as [p|]; [|exact H].
    destruct run as [r|msg]; [|exact H].
    destruct (_ || _); cbn [with_world clearInterval set_poller world];
      [apply in_sync_completeJob, H|].
    destruct (_ || _); cbn [with_world clearInterval set_poller world];
      [apply in_sync_updateJob, H|exact H].
  - unfold on_stream_event. destruct (pollers t !! k) as [p|]; [|exact H].
    set (t1 := if is_type "update" data && truthy (data_message data)
               then _ else t).
    assert (H1 : Notions.in_sync (world t1)).
    { unfold t1. destruct (_ && _); [|exact H].
      destruct (bucketStatus _); [|exact H]. cbn [with_world world].
      apply in_sync_updateJob, H. }
    destruct (is_type "answer" data); cbn [with_world world]; [|exact H1].
    apply in_sync_completeJob, H1.
  - unfold on_timer. destruct (existsb _ _); [|exact H].
    cbn [with_world world]. apply in_sync_completeJob. exact H.
Qed.

(** X10. The job list and its saved copy never part: after
    [createJob], and from then on after any signals to the tracker,
    what was written last under the key of the jobs is the list as it
    stands. *)
Theorem saved_jobs_follow_the_job_list
    (p : JobParams) (now : Z) (trace : list Signal) (t : Tracker) :
  Notions.in_sync (world (run trace (snd (createJob p now t)))).
Proof.
  assert (H0 : Notions.in_sync (world (snd (createJob p now t)))).
  { unfold createJob. cbn [snd].
    destruct (jp_isLive p && truthy (jp_workflowId p) && truthy (jp_runId p)).
    - unfold pollForCompletion. cbn [with_world set_poller world].
      apply in_sync_request_via_api, in_sync_addJob.
    - destruct (negb (jp_isLive p)); cbn [with_world world];
        [|apply in_sync_addJob].
      unfold Notions.in_sync, setTimeout. simpl. apply last_snoc. }
  revert H0. generalize (snd (createJob p now t)). clear t.
  induction trace as [|s trace IH]; intros t H; [exact H|].
  simpl. apply IH, in_sync_step, H.
Qed.

Lemma members_of_insert (wsId : string) (memberIds : list string)
    (m : gmap string (list string)) :
  members_of wsId (<[wsId := memberIds]> m) = MemberIds memberIds.
Proof. unfold members_of. rewrite lookup_insert_eq. reflexivity. Qed.

Lemma members_of_insert_other (wsId other : string) (memberIds : list string)
    (m : gmap string (list string)) :
  other <> wsId ->
  wsId <> "__proto__" \/ is_Some (m !! other) ->
  members_of other (<[wsId := memberIds]> m) = members_of other m.
Proof.
  intros Hne Hor. unfold members_of.
  rewrite (lookup_insert_ne m wsId other memberIds) by congruence.
  destruct (m !! other) as [ids|] eqn:E; [reflexivity|].
  destruct Hor as [Hp|[ids Hs]]; [|discriminate Hs].
  rewrite (lookup_insert_ne m wsId "__proto__" memberIds) by exact Hp.
  reflexivity.
Qed.

(** X11. The documents of a workspace are read off its member list:
    after [setCollectionMembers] they are the documents of the
    catalog for the member ids that the catalog knows, in the order
    of the member list, ids without a document being passed over,
    whatever the id of the workspace. What [workspaceDocs] gives for
    another workspace, a list or an exception, is as before, when the
    id written is not [__proto__] or the other workspace has a member
    list of its own. *)
Theorem workspaceDocs_follow_the_member_list
    (wsId other : string) (memberIds : list string) (w : World) :
  let w' := setCollectionMembers wsId memberIds w in
  (exists docs,
      workspaceDocs wsId w' = Returned docs
      /\ map doc_id docs
         = List.filter
             (fun i => existsb (fun d => String.eqb (doc_id d) i)
                               (allDocuments w))
             memberIds
      /\ Forall (fun d => In d (allDocuments w)) docs)
  /\ (other <> wsId ->
      wsId <> "__proto__" \/ is_Some (collectionMembers w !! other) ->
      workspaceDocs other w' = workspaceDocs other w).
Proof.
  cbv zeta.
  assert (Hfind : forall i docs,
             match find (fun d => String.eqb (doc_id d) i) docs with
             | Some d => doc_id d = i /\ In d docs
                         /\ existsb (fun d => String.eqb (doc_id d) i) docs = true
             | None => existsb (fun d => String.eqb (doc_id d) i) docs = false
             end).
  { intros i docs. induction docs as [|d docs IH]; simpl; [reflexivity|].
    destruct (String.eqb (doc_id d) i) eqn:E; simpl.
    - apply String.eqb_eq in E. auto.
    - destruct (find _ docs); [|exact IH].
      destruct IH as (H1 & H2 & H3). auto. }
  split.
  - eexists. split.
    { unfold workspaceDocs, setCollectionMembers.
      cbn [emit collectionMembers allDocuments].
      rewrite members_of_insert. reflexivity. }
    split.
    + induction memberIds as [|i ids IH]; [reflexivity|].
      specialize (Hfind i (allDocuments w)).
      cbn [omap list_omap List.filter].
      destruct (find _ (allDocuments w)) as [d|].
      * destruct Hfind as (H1 & _ & ->). cbn [map]. rewrite H1. f_equal.
        exact IH.
      * rewrite Hfind. exact IH.
    + induction memberIds as [|i ids IH]; [constructor|].
      specialize (Hfind i (allDocuments w)).
      cbn [omap list_omap].
      destruct (find _ (allDocuments w)) as [d|]; [|exact IH].
      destruct Hfind as (_ & H2 & _). constructor; assumption.
  - intros Hne Hor. unfold workspaceDocs, setCollectionMembers.
    cbn [emit collectionMembers allDocuments].
    rewrite (members_of_insert_other wsId other memberIds _ Hne Hor).
    reflexivity.
Qed.

End SyncFurther.

Lemma updateJob_changes_the_first_match_only_witness :
  let older := {| State.job_id := 1; State.job_name := "Old";
                  State.job_status := "completed";
                  State.job_workspaceId := None; State.job_workflowId := None;
                  State.job_runId := None; State.job_isLive := false;
                  State.job_startedAt := 5; State.job_completedAt := Some 9%Z;
                  State.job_docId := None; State.job_statusText := "Complete" |} in
  let w := State.addJob Examples.live_record
             (State.addJob older (Examples.empty_world true None)) in
  State.jobs (State.updateJob 1 {| State.u_status := Some "failed";
                                   State.u_completedAt := None;
                                   State.u_statusText := Some "Timed out" |} w)
  = [] ++ State.assign Examples.live_record
            {| State.u_status := Some "failed"; State.u_completedAt := None;
               State.u_statusText := Some "Timed out" |} :: [older].
Proof.
  cbv zeta.
  refine (proj1 (updateJob_changes_the_first_match_only 1 _ _ [] _ _ _ _ _));
    [reflexivity | constructor | reflexivity].
Defined.

(** The member lists are a plain object: a workspace id that is a name
    of [Object.prototype] reads the inherited value, on which
    [workspaceDocs] throws; and a member list written under
    [__proto__] becomes the prototype, whose indices, [length] and
    methods are then read as member lists of other workspaces. *)
Lemma workspaceDocs_of_inherited_names :
  let w := Examples.empty_world true None in
  let w' := State.setCollectionMembers "__proto__" ["d1"] w in
  State.workspaceDocs "constructor" w = Js.Threw State.NOT_A_FUNCTION
  /\ State.workspaceDocs "length" w = Js.Returned []
  /\ State.workspaceDocs "length" w' = Js.Threw State.NOT_A_FUNCTION
  /\ State.workspaceDocs "0" w' = Js.Threw State.NOT_A_FUNCTION
  /\ State.workspaceDocs "1" w' = Js.Returned []
  /\ State.workspaceDocs "map" w' = Js.Threw State.NOT_A_FUNCTION
  /\ State.workspaceDocs "__proto__" w' = Js.Returned []
  /\ State.workspaceDocs "w1" w' = Js.Returned [].
Proof. vm_compute. repeat split; reflexivity. Qed.
(** ** Preferences *)

Section PrefsFurther.
Import Js State Prefs.

Lemma toggle_twice (x : string) (s : gset string) :
  toggle x (toggle x s) = s.
Proof.
  unfold toggle. destruct (bool_decide (x ∈ s)) eqn:E.
  - apply bool_decide_eq_true in E.
    rewrite bool_decide_eq_false_2 by set_solver.
    apply set_eq. intros y. destruct (decide (y = x)); set_solver.
  - apply bool_decide_eq_false in E.
    rewrite bool_decide_eq_true_2 by set_solver.
    apply set_eq. intros y. destruct (decide (y = x)); set_solver.
Qed.

Lemma elem_of_toggle (x y : string) (s : gset string) :
  bool_decide (y ∈ toggle x s)
  = if String.eqb y x then negb (bool_decide (y ∈ s)) else bool_decide (y ∈ s).
Proof.
  unfold toggle. destruct (String.eqb y x) eqn:Exy.
  - apply String.eqb_eq in Exy. subst y.
    destruct (bool_decide (x ∈ s)) eqn:E; simpl.
    + apply bool_decide_eq_false. set_solver.
    + apply bool_decide_eq_true. set_solver.
  - apply String.eqb_neq in Exy.
    destruct (bool_decide (x ∈ s)) eqn:E;
      apply bool_decide_ext; set_solver.
Qed.

(** X12. [toggleStar] turns the star of that document, and of no
    other, into its opposite, tells the new state in its event and
    saves the new set; toggled twice, the set of stars is as it
    was. *)
Theorem toggleStar_turns_one_star (docId other : string) (p : Prefs) :
  let p' := toggleStar docId p in
  isStarred docId p' = negb (isStarred docId p)
  /\ (other <> docId -> isStarred other p' = isStarred other p)
  /\ pref_emitted p'
     = pref_emitted p ++ [StarredChanged docId (negb (isStarred docId p))]
  /\ pref_saved p' = pref_saved p ++ [SavedSet "ml_starred" (starred p')]
  /\ starred (toggleStar docId p') = starred p.
Proof.
  cbv zeta. unfold isStarred, toggleStar. cbv zeta.
  cbn [starred pref_emitted pref_saved].
  rewrite !elem_of_toggle, String.eqb_refl.
  split; [reflexivity|]. split.
  { intros Hne. apply String.eqb_neq in Hne. rewrite Hne. reflexivity. }
  split; [reflexivity|]. split; [reflexivity|]. apply toggle_twice.
Qed.

(** X13. For a document id that is not a name of [Object.prototype]
    a note is read back as it was set, and a note set to a text of
    white space only, or to the empty text, is taken away and read
    back as the empty text. For an id that is such a name, what is
    read back after the note was taken away is the value inherited
    under that name, not a text, and a note for [__proto__] is not
    kept unless the stored notes carried that name. The notes of
    other documents are as before. *)
Theorem getNote_reads_back_setNote (docId other text : string) (p : Prefs) :
  let p' := setNote docId text p in
  (on_object_prototype docId = false ->
   getNote docId p'
   = NoteText (if String.eqb (trim text) "" then "" else text))
  /\ (on_object_prototype docId = true ->
      getNote docId p'
      = if String.eqb (trim text) "" then NoteInherited docId
        else if String.eqb docId "__proto__"
                && negb (bool_decide (is_Some (notes p !! docId)))
             then NoteInherited docId
             else NoteText text)
  /\ (other <> docId -> getNote other p' = getNote other p)
  /\ pref_emitted p' = pref_emitted p ++ [NotesChanged docId].
Proof.
  cbv zeta. unfold getNote, setNote. cbv zeta. cbn [notes pref_emitted].
  split; [|split; [|split; [|reflexivity]]].
  - intros Hno. destruct (String.eqb (trim text) "") eqn:E; cbn [negb].
    + rewrite lookup_delete_eq, Hno. reflexivity.
    + destruct (String.eqb docId "__proto__") eqn:Ep.
      { apply String.eqb_eq in Ep. subst docId. discriminate Hno. }
      cbn [andb]. rewrite lookup_insert_eq. reflexivity.
  - intros Hyes. destruct (String.eqb (trim text) "") eqn:E; cbn [negb].
    + rewrite lookup_delete_eq, Hyes. reflexivity.
    + destruct (String.eqb docId "__proto__"
                && negb (bool_decide (is_Some (notes p !! docId)))) eqn:Eb.
      * apply andb_prop in Eb as [_ Eb]. apply negb_true_iff in Eb.
        apply bool_decide_eq_false in Eb.
        destruct (notes p !! docId) as [v|] eqn:Ev.
        { exfalso. apply Eb. eexists. reflexivity. }
        rewrite Hyes. reflexivity.
      * rewrite lookup_insert_eq. reflexivity.
  - intros Hne. destruct (negb _).
    + destruct (_ && _); [reflexivity|].
      rewrite lookup_insert_ne by congruence. reflexivity.
    + rewrite lookup_delete_ne by congruence. reflexivity.
Qed.

(** *** The order of the workspaces *)

Lemma compare_workspaces_rank (p : Prefs) (a b : Workspace) :
  (0 <? compare_workspaces p a b)%Z
  = Nat.ltb (Notions.rank p b) (Notions.rank p a).
Proof.
  unfold compare_workspaces, Notions.rank.
  destruct (isPinned (ws_id a) p), (isPinned (ws_id b) p),
           (isCompleted (ws_id a) p), (isCompleted (ws_id b) p); reflexivity.
Qed.

Lemma rank_bound (p : Prefs) (a : Workspace) : Notions.rank p a < 4.
Proof.
  unfold Notions.rank.
  destruct (isPinned _ p), (isCompleted _ p); simpl; lia.
Qed.

(** Inserting into a list that is arranged by rank. *)
Lemma insert_by_ranked (p : Prefs) (x : Workspace)
    (lower rest : list Workspace) :
  Forall (fun y => Notions.rank p y < Notions.rank p x) lower ->
  Forall (fun y => Notions.rank p x <= Notions.rank p y) rest ->
  insert_by (compare_workspaces p) x (lower ++ rest) = lower ++ x :: rest.
Proof.
  intros Hl Hr. induction Hl as [|y lower Hy _ IH]; simpl.
  - destruct rest as [|y rest]; [reflexivity|].
    inversion Hr as [|? ? Hy _]; subst. simpl.
    rewrite compare_workspaces_rank.
    assert (Nat.ltb (Notions.rank p y) (Notions.rank p x) = false) as ->
      by (apply Nat.ltb_ge; lia).
    reflexivity.
  - rewrite compare_workspaces_rank.
    assert (Nat.ltb (Notions.rank p y) (Notions.rank p x) = true) as ->
      by (apply Nat.ltb_lt; lia).
    rewrite IH. reflexivity.
Qed.

Lemma of_rank_cons (p : Prefs) (k : nat) (x : Workspace) (l : list Workspace) :
  Notions.of_rank p k (x :: l)
  = if Nat.eqb (Notions.rank p x) k then x :: Notions.of_rank p k l
    else Notions.of_rank p k l.
Proof. reflexivity. Qed.

Lemma of_rank_all (p : Prefs) (k : nat) (l : list Workspace) :
  Forall (fun y => Notions.rank p y = k) (Notions.of_rank p k l).
Proof.
  induction l as [|x l IH]; [constructor|]. rewrite of_rank_cons.
  destruct (Nat.eqb (Notions.rank p x) k) eqn:E; [|exact IH].
  constructor; [apply Nat.eqb_eq, E|exact IH].
Qed.

Lemma Forall_rank (p : Prefs) (k : nat) (P : nat -> Prop) (l : list Workspace) :
  P k -> Forall (fun y => P (Notions.rank p y)) (Notions.of_rank p k l).
Proof.
  intros HP. eapply List.Forall_impl; [|apply of_rank_all].
  intros y ->. exact HP.
Qed.

(** X14. [sortedWorkspaces] lists the pinned workspaces that are not
    completed, then the pinned completed ones, then the others that
    are not completed, then the other completed ones, each group in
    the order in which the workspaces were. *)
Theorem sortedWorkspaces_groups_in_order (p : Prefs) (w : World) :
  sortedWorkspaces p w
  = Notions.of_rank p 0 (workspaces w) ++ Notions.of_rank p 1 (workspaces w)
    ++ Notions.of_rank p 2 (workspaces w) ++ Notions.of_rank p 3 (workspaces w).
Proof.
  unfold sortedWorkspaces.
  induction (workspaces w) as [|x l IH]; [reflexivity|].
  cbn [sort_by]. rewrite IH, !of_rank_cons.
  pose proof (rank_bound p x) as Hb.
  destruct (Notions.rank p x) as [|[|[|[|k]]]] eqn:Er; [| | | |lia];
    cbn [Nat.eqb].
  - apply (insert_by_ranked p x []); [constructor|].
    rewrite Er. rewrite !Forall_app. repeat split;
      apply (Forall_rank p _ (fun r => 0 <= r)); lia.
  - rewrite (insert_by_ranked p x (Notions.of_rank p 0 l)); [reflexivity| |].
    + rewrite Er. apply (Forall_rank p _ (fun r => r < 1)). lia.
    + rewrite Er. rewrite !Forall_app. repeat split;
        apply (Forall_rank p _ (fun r => 1 <= r)); lia.
  - rewrite app_assoc.
    rewrite (insert_by_ranked p x (Notions.of_rank p 0 l ++ Notions.of_rank p 1 l));
      [rewrite <- app_assoc; reflexivity| |].
    + rewrite Er. rewrite Forall_app. split;
        apply (Forall_rank p _ (fun r => r < 2)); lia.
    + rewrite Er. rewrite Forall_app. split;
        apply (Forall_rank p _ (fun r => 2 <= r)); lia.
  - rewrite !app_assoc.
    rewrite (insert_by_ranked p x
               ((Notions.of_rank p 0 l ++ Notions.of_rank p 1 l)
                  ++ Notions.of_rank p 2 l));
      [rewrite <- !app_assoc; reflexivity| |].
    + rewrite Er. rewrite !Forall_app. repeat split;
        apply (Forall_rank p _ (fun r => r < 3)); lia.
    + rewrite Er. apply (Forall_rank p _ (fun r => 3 <= r)). lia.
Qed.

End PrefsFurther.

(** The notes are a plain object: under a name of [Object.prototype]
    that has no note, [getNote] returns the inherited value; a note for
    [__proto__] is not kept; a note for [constructor] is kept, and once
    it is taken away the inherited value is back. *)
Lemma getNote_of_inherited_names :
  let p := Cases.no_prefs in
  Prefs.getNote "constructor" p = Prefs.NoteInherited "constructor"
  /\ Prefs.getNote "d1" p = Prefs.NoteText ""
  /\ Prefs.getNote "__proto__" (Prefs.setNote "__proto__" "x" p)
     = Prefs.NoteInherited "__proto__"
  /\ Prefs.getNote "constructor" (Prefs.setNote "constructor" "x" p)
     = Prefs.NoteText "x"
  /\ Prefs.getNote "constructor"
       (Prefs.setNote "constructor" " " (Prefs.setNote "constructor" "x" p))
     = Prefs.NoteInherited "constructor".
Proof. vm_compute. repeat split; reflexivity. Qed.
(** ** The job lifecycle, further *)

Section Buckets.
Import Js Research.

Lemma includes_app (p a b : string) : includes p (a +:+ p +:+ b) = true.
Proof.
  induction a as [|c a IH].
  - rewrite string_app_nil_l. destruct p as [|x p]; [destruct b; reflexivity|].
    rewrite string_app_cons. cbn [includes].
    rewrite <- string_app_cons, startsWith_app_self. reflexivity.
  - rewrite string_app_cons. cbn [includes]. rewrite IH. apply orb_true_r.
Qed.

(** X15. A progress text that names a search, in any case of letters
    and anywhere, is shown as [Researching...], whatever else it
    names: the search words are looked for first. *)
Theorem bucketStatus_puts_search_first (pre word post : string) :
  In (toLowerCase word) ["search"; "finding"; "looking"] ->
  bucketStatus (pre +:+ word +:+ post) = Some "Researching...".
Proof.
  intros Hin. unfold bucketStatus. rewrite !toLowerCase_app.
  destruct Hin as [H|[H|[H|[]]]]; rewrite <- H, includes_app;
    rewrite ?orb_true_r; reflexivity.
Qed.

End Buckets.

Section TrackerFurther.
Import Js State Research.

Ltac tsimpl :=
  cbn [with_world clearInterval set_poller world pollers nextJobId step
       attempts intervalActive p_workflowId p_runId].

Lemma assign_first_text_only (k : nat) (text : option string) (js : list Job) :
  let js' := assign_first k {| u_status := None; u_completedAt := None;
                               u_statusText := text |} js in
  map job_status js' = map job_status js
  /\ map job_completedAt js' = map job_completedAt js
  /\ map job_id js' = map job_id js.
Proof.
  cbv zeta. induction js as [|j js (H1 & H2 & H3)]; [auto|].
  simpl. destruct (has_id k j); simpl; [auto|].
  rewrite H1, H2, H3. auto.
Qed.

(** X16. A stream event that is not an [answer] never changes the
    status, the completion time or the id of any job, emits no
    [research:completed] and sends nothing; when its text falls in no
    bucket, or it is of another type than [update], nothing changes
    at all. *)
Theorem progress_updates_change_the_text_only
    (j : nat) (data : StreamData) (env : Completion) (t : Tracker) :
  is_type "answer" data = false ->
  let t' := step (StreamEvent j data env) t in
  map job_status (jobs (world t')) = map job_status (jobs (world t))
  /\ map job_completedAt (jobs (world t')) = map job_completedAt (jobs (world t))
  /\ map job_id (jobs (world t')) = map job_id (jobs (world t))
  /\ net (world t') = net (world t)
  /\ pollers t' = pollers t
  /\ (forall k, Spec.completed_events k (emitted (world t'))
                = Spec.completed_events k (emitted (world t)))
  /\ ((is_type "update" data && truthy (data_message data) = false
       \/ bucketStatus (default "" (data_message data)) = None) -> t' = t).
Proof.
  intros Hna. cbv zeta. cbn [step]. unfold on_stream_event.
  destruct (pollers t !! j) as [p|]; [|repeat split; auto].
  rewrite Hna.
  destruct (is_type "update" data && truthy (data_message data)) eqn:Eu;
    [|repeat split; auto].
  destruct (bucketStatus (default "" (data_message data))) as [bucket|] eqn:Eb;
    [|repeat split; auto].
  tsimpl.
  destruct (updateJob_frame j {| u_status := None; u_completedAt := None;
                                 u_statusText := Some bucket |} (world t))
    as (_ & Hnet & _ & _).
  assert (Hjobs : jobs (updateJob j {| u_status := None; u_completedAt := None;
                                       u_statusText := Some bucket |} (world t))
                  = assign_first j {| u_status := None; u_completedAt := None;
                                      u_statusText := Some bucket |}
                                 (jobs (world t))
                    \/ jobs (updateJob j {| u_status := None;
                                            u_completedAt := None;
                                            u_statusText := Some bucket |}
                                       (world t))
                       = jobs (world t)).
  { unfold updateJob. destruct (find (has_id j) (jobs (world t))); auto. }
  destruct (assign_first_text_only j (Some bucket) (jobs (world t)))
    as (H1 & H2 & H3).
  split; [destruct Hjobs as [-> | ->]; auto|].
  split; [destruct Hjobs as [-> | ->]; auto|].
  split; [destruct Hjobs as [-> | ->]; auto|].
  split; [exact Hnet|]. split; [reflexivity|].
  split; [intros k; apply completed_events_updateJob|].
  intros [H|H]; discriminate H.
Qed.

Lemma failure_is_not_success (run : Outcome (option Run)) :
  Spec.reports_failure run = true -> Spec.reports_success run = false.
Proof.
  unfold Spec.reports_failure, Spec.reports_success.
  destruct run as [r|msg]; [|reflexivity].
  unfold status_is. destruct (status_of r) as [s|]; [|reflexivity].
  intros H. apply orb_prop in H as [H|H]; apply String.eqb_eq in H; subst s;
    reflexivity.
Qed.

(** X17. A status answer that reports [failed] or [error] for a job
    on the list marks the job [failed] with the text
    [Research failed], leaves its completion time alone and clears
    the interval, so that a further tick does nothing; it emits no
    [research:completed] and sends nothing. *)
Theorem poll_failure_fails_the_job
    (j : nat) (p : Poller) (job : Job) (run : Outcome (option Run))
    (env : Completion) (t : Tracker) :
  pollers t !! j = Some p ->
  find (has_id j) (jobs (world t)) = Some job ->
  Spec.reports_failure run = true ->
  let t' := step (Reply j run env) t in
  find (has_id j) (jobs (world t'))
  = Some (assign job {| u_status := Some "failed"; u_completedAt := None;
                        u_statusText := Some "Research failed" |})
  /\ (exists p', pollers t' !! j = Some p' /\ intervalActive p' = false)
  /\ step (Tick j) t' = t'
  /\ net (world t') = net (world t)
  /\ (forall k, Spec.completed_events k (emitted (world t'))
                = Spec.completed_events k (emitted (world t))).
Proof.
  intros Hp Hjob Hf. cbv zeta.
  pose proof (failure_is_not_success run Hf) as Hs.
  cbn [step]. unfold on_reply. rewrite Hp.
  unfold Spec.reports_failure, Spec.reports_success in Hf, Hs.
  destruct run as [r|msg]; [|discriminate Hf].
  rewrite Hs, Hf. tsimpl.
  destruct (updateJob_frame j {| u_status := Some "failed";
                                 u_completedAt := None;
                                 u_statusText := Some "Research failed" |}
                            (world t)) as (_ & Hnet & _ & _).
  split; [rewrite find_updateJob, Nat.eqb_refl, Hjob; reflexivity|].
  split; [rewrite lookup_insert_eq; eexists; split; reflexivity|].
  split; [unfold on_tick; tsimpl; rewrite lookup_insert_eq; reflexivity|].
  split; [exact Hnet|]. intros k. apply completed_events_updateJob.
Qed.

(** *** Jobs that nothing observes *)

Lemma find_step_other (j : nat) (s : Signal) (t : Tracker) :
  Spec.for_job j s = false ->
  find (has_id j) (jobs (world (step s t))) = find (has_id j) (jobs (world t)).
Proof.
  intros H.
  assert (Hu : forall k u w, Nat.eqb k j = false ->
             find (has_id j) (jobs (updateJob k u w)) = find (has_id j) (jobs w)).
  { intros k u w Hk. rewrite find_updateJob, Hk. reflexivity. }
  assert (Hc : forall k env w, Nat.eqb k j = false ->
             find (has_id j) (jobs (completeJob k env w))
             = find (has_id j) (jobs w)).
  { intros k env w Hk.
    destruct (completeJob_frame k env w) as (_ & _ & -> & _).
    apply Hu, Hk. }
  destruct s as [k|k run env|k data env|k env]; simpl in H; tsimpl.
  - unfold on_tick. destruct (pollers t !! k) as [p|]; [|reflexivity].
    destruct (intervalActive p); [|reflexivity].
    destruct (Nat.ltb MAX_ATTEMPTS _); tsimpl; [apply Hu, H|].
    destruct (request_via_api_frame
                (Api.NetGetRunStatus (p_workflowId p) (p_runId p)) (world t))
      as (_ & _ & -> & _). reflexivity.
  - unfold on_reply. destruct (pollers t !! k) as [p|]; [|reflexivity].
    destruct run as [r|msg]; [|reflexivity].
    destruct (_ || _); tsimpl; [apply Hc, H|].
    destruct (_ || _); tsimpl; [apply Hu, H|reflexivity].
  - unfold on_stream_event. destruct (pollers t !! k) as [p|]; [|reflexivity].
    set (t1 := if is_type "update" data && truthy (data_message data)
               then _ else t).
    assert (H1 : find (has_id j) (jobs (world t1))
                 = find (has_id j) (jobs (world t))).
    { unfold t1. destruct (_ && _); [|reflexivity].
      destruct (bucketStatus _); [|reflexivity]. tsimpl. apply Hu, H. }
    destruct (is_type "answer" data); tsimpl; [|exact H1].
    rewrite (Hc _ _ _ H). exact H1.
  - unfold on_timer. destruct (existsb _ _); [|reflexivity]. tsimpl.
    rewrite (Hc _ _ _ H). reflexivity.
Qed.

Lemma no_timer_step (j : nat) (s : Signal) (t : Tracker) :
  Spec.no_timer_for j (timers (world t)) = true ->
  Spec.no_timer_for j (timers (world (step s t))) = true.
Proof.
  intros H.
  destruct s as [k|k run env|k data env|k env]; tsimpl.
  - unfold on_tick. destruct (pollers t !! k) as [p|]; [|exact H].
    destruct (intervalActive p); [|exact H].
    destruct (Nat.ltb MAX_ATTEMPTS _); tsimpl.
    + destruct (updateJob_frame k {| u_status := Some "failed";
                                     u_completedAt := None;
                                     u_statusText := Some "Timed out" |}
                                (world t)) as (_ & _ & -> & _). exact H.
    + destruct (request_via_api_frame
                  (Api.NetGetRunStatus (p_workflowId p) (p_runId p)) (world t))
        as (_ & -> & _). exact H.
  - unfold on_reply. destruct (pollers t !! k) as [p|]; [|exact H].
    destruct run as [r|msg]; [|exact H].
    destruct (_ || _); tsimpl.
    + destruct (completeJob_frame k env (world t)) as (_ & -> & _). exact H.
    + destruct (_ || _); tsimpl; [|exact H].
      destruct (updateJob_frame k {| u_status := Some "failed";
                                     u_completedAt := None;
                                     u_statusText := Some "Research failed" |}
                                (world t)) as (_ & _ & -> & _). exact H.
  - unfold on_stream_event. destruct (pollers t !! k) as [p|]; [|exact H].
    set (t1 := if is_type "update" data && truthy (data_message data)
               then _ else t).
    assert (H1 : timers (world t1) = timers (world t)).
    { unfold t1. destruct (_ && _); [|reflexivity].
      destruct (bucketStatus _) as [bucket|]; [|reflexivity]. tsimpl.
      destruct (updateJob_frame k {| u_status := None; u_completedAt := None;
                                     u_statusText := Some bucket |} (world t))
        as (_ & _ & -> & _). reflexivity. }
    destruct (is_type "answer" data); tsimpl; [|rewrite H1; exact H].
    destruct (completeJob_frame k env (world t1)) as (_ & -> & _).
    rewrite H1. exact H.
  - unfold on_timer. destruct (existsb _ _); [|exact H]. tsimpl.
    destruct (completeJob_frame k env
                (set_timers (disarm (c_now env) k (timers (world t))) (world t)))
      as (_ & -> & _).
    cbn [set_timers timers]. apply no_timer_disarm, H.
Qed.

Lemma unobserved_step (j : nat) (s : Signal) (t : Tracker) :
  Notions.unobserved j t ->
  Notions.unobserved j (step s t)
  /\ find (has_id j) (jobs (world (step s t)))
     = find (has_id j) (jobs (world t)).
Proof.
  intros [Hp Ht]. destruct (Spec.for_job j s) eqn:Hfor.
  - assert (Hsame : step s t = t).
    { destruct s as [k|k run env|k data env|k env]; simpl in Hfor;
        apply Nat.eqb_eq in Hfor; subst k; cbn [step].
      - unfold on_tick. rewrite Hp. reflexivity.
      - unfold on_reply. rewrite Hp. reflexivity.
      - unfold on_stream_event. rewrite Hp. reflexivity.
      - unfold on_timer. rewrite (no_timer_not_due j (c_now env) _ Ht).
        reflexivity. }
    rewrite Hsame. split; [split; assumption|reflexivity].
  - split; [split|].
    + rewrite (poller_step_other j s t Hfor). exact Hp.
    + apply no_timer_step, Ht.
    + apply find_step_other, Hfor.
Qed.

(** X18. A job created as live while the handle lacks its workflow id
    or its run id gets no stream, no polling and no timer, and
    nothing is sent for it; whatever signals reach the tracker from
    then on, the job stays on the list as it was created, [running]
    with the text [Starting...]. *)
Theorem live_job_without_handle_stays_running
    (p : JobParams) (now : Z) (trace : list Signal) (t : Tracker) :
  jp_isLive p = true ->
  truthy (jp_workflowId p) && truthy (jp_runId p) = false ->
  Notions.unobserved (S (nextJobId t)) t ->
  let j := fst (createJob p now t) in
  let t1 := snd (createJob p now t) in
  pollers t1 = pollers t
  /\ timers (world t1) = timers (world t)
  /\ net (world t1) = net (world t)
  /\ exists job,
       find (has_id j) (jobs (world (run trace t1))) = Some job
       /\ job_status job = "running"
       /\ job_statusText job = "Starting..."
       /\ job_completedAt job = None.
Proof.
  intros Hlive Hhandle Hun. cbv zeta. unfold createJob. rewrite Hlive.
  cbn [andb negb fst snd]. rewrite Hhandle.
  split; [reflexivity|]. split; [reflexivity|]. split; [reflexivity|].
  set (n := S (nextJobId t)) in *.
  set (job := {| job_id := n; job_name := jp_name p; job_status := "running";
                 job_workspaceId := or_null (jp_workspaceId p);
                 job_workflowId := or_null (jp_workflowId p);
                 job_runId := or_null (jp_runId p); job_isLive := true;
                 job_startedAt := now; job_completedAt := None;
                 job_docId := None; job_statusText := "Starting..." |}).
  set (t1 := {| world := addJob job (world t); nextJobId := n;
                pollers := pollers t |}).
  exists job.
  assert (H1 : Notions.unobserved n t1) by exact Hun.
  assert (H2 : find (has_id n) (jobs (world t1)) = Some job).
  { simpl. unfold has_id. simpl. rewrite Nat.eqb_refl. reflexivity. }
  split; [|repeat split].
  revert H1 H2. generalize t1. clear t1 Hun.
  induction trace as [|s trace IH]; intros t1 H1 H2; [exact H2|].
  simpl. destruct (unobserved_step n s t1 H1) as [H1' H2'].
  apply IH; [exact H1'|]. rewrite H2'. exact H2.
Qed.

Lemma updateJob_unknown_id_is_noop_lemma (jobId : nat) (u : JobUpdates)
    (w : World) :
  Forall (fun j => job_id j <> jobId) (jobs w) -> updateJob jobId u w = w.
Proof.
  intros H. unfold updateJob. rewrite (find_none_of_no_match jobId _ H).
  reflexivity.
Qed.

(** X19. [completeJob] for an id that no job carries changes and
    saves no job, and yet emits [research:completed] for that id
    and, under a client, requests the catalog. *)
Theorem completeJob_of_unknown_job_still_announces
    (jobId : nat) (env : Completion) (w : World) :
  Forall (fun j => job_id j <> jobId) (jobs w) ->
  let w' := completeJob jobId env w in
  jobs w' = jobs w
  /\ savedJobs w' = savedJobs w
  /\ Spec.completed_events jobId (emitted w')
     = S (Spec.completed_events jobId (emitted w))
  /\ (is_Some (api w) -> Spec.reloads (net w') = S (Spec.reloads (net w))).
Proof.
  intros Hno. cbv zeta.
  pose proof (updateJob_unknown_id_is_noop_lemma jobId (completion_updates env)
                w Hno) as Hsame.
  destruct (completeJob_frame jobId env w) as (_ & _ & Hj & He & _ & Hr).
  unfold completeJob in *. rewrite Hsame in *.
  destruct (reload_catalog_saved jobId env w) as [_ Hs].
  split; [exact Hj|]. split; [exact Hs|].
  split; [rewrite He, Nat.eqb_refl; lia|exact Hr].
Qed.

End TrackerFurther.

Lemma bucketStatus_puts_search_first_witness :
  Research.bucketStatus ("Now " +:+ "Search" +:+ "ing the web for filings")
  = Some "Researching...".
Proof.
  apply (bucketStatus_puts_search_first "Now " "Search" "ing the web for filings").
  vm_compute. left. reflexivity.
Defined.

Lemma progress_updates_change_the_text_only_witness :
  map State.job_status
      (State.jobs (Research.world
         (Research.step
            (Research.StreamEvent 1 Cases.progress (Examples.at_time 2000))
            Examples.live_job)))
  = map State.job_status (State.jobs (Research.world Examples.live_job)).
Proof.
  exact (proj1 (progress_updates_change_the_text_only
                  1 Cases.progress (Examples.at_time 2000) Examples.live_job
                  eq_refl)).
Defined.

Lemma poll_failure_fails_the_job_witness :
  find (State.has_id 1)
       (State.jobs (Research.world
          (Research.step (Research.Reply 1 Cases.failed (Examples.at_time 2000))
                         Examples.live_job)))
  = Some (State.assign Examples.live_record
            {| State.u_status := Some "failed"; State.u_completedAt := None;
               State.u_statusText := Some "Research failed" |}).
Proof.
  refine (proj1 (poll_failure_fails_the_job
                   1 Examples.live_poller Examples.live_record Cases.failed
                   (Examples.at_time 2000) Examples.live_job _ _ _));
    vm_compute; reflexivity.
Defined.

Lemma live_job_without_handle_stays_running_witness :
  Research.pollers
    (snd (Research.createJob Cases.bare_params 1000
            (Examples.fresh true (Some Examples.client))))
  = Research.pollers (Examples.fresh true (Some Examples.client)).
Proof.
  refine (proj1 (live_job_without_handle_stays_running
                   Cases.bare_params 1000
                   [Research.Tick 1; Research.Reply 1 Examples.succeeded
                                       (Examples.at_time 2000)]
                   (Examples.fresh true (Some Examples.client)) _ _ _)).
  - reflexivity.
  - reflexivity.
  - split; vm_compute; reflexivity.
Defined.

Lemma completeJob_of_unknown_job_still_announces_witness :
  State.jobs (Research.completeJob 7 (Examples.at_time 2000)
                (Research.world Examples.live_job))
  = State.jobs (Research.world Examples.live_job).
Proof.
  refine (proj1 (completeJob_of_unknown_job_still_announces
                   7 (Examples.at_time 2000) (Research.world Examples.live_job) _)).
  vm_compute. repeat constructor; lia.
Defined.
Section CatalogFurther.
Import Js State Research.

Lemma mapDoc_titled (o : ApiObject) : doc_title (mapDoc o) <> "".
Proof.
  unfold mapDoc. simpl. unfold truthy.
  destruct (obj_name o) as [s|]; [|discriminate]. simpl.
  destruct (String.eqb s "") eqn:E; simpl; [discriminate|].
  apply String.eqb_neq, E.
Qed.

Lemma reload_catalog_docs (k : nat) (env : Completion) (w : World) :
  is_Some (api w) ->
  match c_objects env with
  | Returned objects =>
      allDocuments (reload_catalog k env w)
      = map mapDoc (List.filter (fun o => truthy (obj_content_source o)) objects)
  | Threw _ =>
      allDocuments (reload_catalog k env w) = allDocuments w
      /\ collectionMembers (reload_catalog k env w) = collectionMembers w
  end.
Proof.
  intros [a Ha]. unfold reload_catalog. rewrite Ha.
  destruct (c_objects env) as [objects|msg]; [|auto]. simpl jobs.
  destruct (find (has_id k) (jobs w)) as [job|]; [|reflexivity].
  destruct (truthy (job_workspaceId job)); [|reflexivity].
  destruct (c_members env); reflexivity.
Qed.

Lemma sourced_docs (objects : list ApiObject) :
  Forall (fun d => truthy (doc_source d) = true /\ doc_title d <> "")
         (map mapDoc (List.filter (fun o => truthy (obj_content_source o))
                                  objects)).
Proof.
  induction objects as [|o objects IH]; simpl; [constructor|].
  destruct (truthy (obj_content_source o)) eqn:Eo; [|exact IH].
  simpl. constructor; [|exact IH].
  split; [exact Eo|apply mapDoc_titled].
Qed.

(** X20. Under a client, a completion whose catalog request succeeds
    replaces the catalog by the listed objects that have a content
    source, in their order, each with a source and with a title that
    is not empty ([Untitled] for an object without a name); a
    completion whose catalog request fails leaves the catalog and
    the member lists as they were. Either way the job is marked
    [completed] and [research:completed] is emitted. *)
Theorem completeJob_reloads_the_catalog
    (jobId : nat) (job : Job) (env : Completion) (w : World) :
  is_Some (api w) ->
  find (has_id jobId) (jobs w) = Some job ->
  let w' := completeJob jobId env w in
  match c_objects env with
  | Returned objects =>
      allDocuments w'
      = map mapDoc (List.filter (fun o => truthy (obj_content_source o)) objects)
      /\ Forall (fun d => truthy (doc_source d) = true /\ doc_title d <> "")
                (allDocuments w')
  | Threw _ =>
      allDocuments w' = allDocuments w
      /\ collectionMembers w' = collectionMembers w
  end
  /\ find (has_id jobId) (jobs w') = Some (assign job (completion_updates env))
  /\ Spec.completed_events jobId (emitted w')
     = S (Spec.completed_events jobId (emitted w)).
Proof.
  intros Hapi Hjob. cbv zeta.
  destruct (completeJob_frame jobId env w) as (_ & _ & Hj & He & _ & _).
  split; [|split].
  - unfold completeJob. cbn [emit allDocuments collectionMembers].
    set (w1 := updateJob jobId (completion_updates env) w).
    destruct (updateJob_frame jobId (completion_updates env) w) as (Ha & _).
    destruct (updateJob_catalog jobId (completion_updates env) w) as [Hd Hm].
    fold w1 in Ha, Hd, Hm.
    assert (Hapi1 : is_Some (api w1)) by (rewrite Ha; exact Hapi).
    pose proof (reload_catalog_docs jobId env w1 Hapi1) as Hr.
    destruct (c_objects env) as [objects|msg].
    + rewrite Hr. split; [reflexivity|apply sourced_docs].
    + destruct Hr as [-> ->]. auto.
  - rewrite Hj, find_updateJob, Nat.eqb_refl, Hjob. reflexivity.
  - rewrite He, Nat.eqb_refl. lia.
Qed.

End CatalogFurther.

Lemma completeJob_reloads_the_catalog_witness :
  State.allDocuments
    (Research.completeJob 1 (Cases.with_catalog 2000)
       (Research.world Examples.live_job))
  = [Research.mapDoc Cases.one_object].
Proof.
  refine (proj1 (proj1 (completeJob_reloads_the_catalog
                          1 Examples.live_record (Cases.with_catalog 2000)
                          (Research.world Examples.live_job) _ _))).
  - exists Examples.client. reflexivity.
  - reflexivity.
Defined.
(** ** Validation and the start of a job *)

Section Validation.
Import Js Start.

Lemma lower_idempotent (c : ascii) : lower (lower c) = lower c.
Proof. destruct c as [[] [] [] [] [] [] [] []]; reflexivity. Qed.

Lemma toLowerCase_idempotent (s : string) :
  toLowerCase (toLowerCase s) = toLowerCase s.
Proof.
  induction s as [|c s IH]; [reflexivity|]. simpl.
  rewrite lower_idempotent, IH. reflexivity.
Qed.

(** A literal is consumed, case ignored, by a text that reads the
    same in lower case. *)
Lemma after_literal_app (lit z r : string) :
  toLowerCase z = toLowerCase lit ->
  Chat.after_literal lit (z +:+ r) = Some r.
Proof.
  intros H. rewrite after_literal_spec, toLowerCase_app, <- H.
  rewrite startsWith_app_self.
  replace (String.length lit) with (String.length z)
    by (rewrite <- (length_toLowerCase z), H; apply length_toLowerCase).
  rewrite slice_from_app_length. reflexivity.
Qed.

Lemma test_from_eq (words : list string) (prev : option ascii) (s : string) :
  test_from words prev s
  = matches_here words prev s
    || match s with
       | EmptyString => false
       | String c r => test_from words (Some c) r
       end.
Proof. destruct s; reflexivity. Qed.

Lemma before_cons (prev : option ascii) (c : ascii) (pre : string) :
  Notions.before prev (String c pre) = Notions.before (Some c) pre.
Proof.
  unfold Notions.before. destruct pre as [|d pre]; [reflexivity|].
  change (Notions.last_char (String c (String d pre)))
    with (Notions.last_char (String d pre)).
  destruct (Notions.last_char (String d pre)) eqn:E; [reflexivity|].
  exfalso. revert d E. induction pre as [|e pre IH]; intros d E;
    [discriminate E|]. apply (IH e). exact E.
Qed.

Lemma test_from_app (words : list string) (pre rest : string)
    (prev : option ascii) :
  matches_here words (Notions.before prev pre) rest = true ->
  test_from words prev (pre +:+ rest) = true.
Proof.
  revert prev. induction pre as [|c pre IH]; intros prev H.
  - rewrite string_app_nil_l, test_from_eq. unfold Notions.before in H. simpl in H.
    rewrite H. reflexivity.
  - rewrite string_app_cons, test_from_eq. rewrite before_cons in H.
    rewrite (IH _ H). apply orb_true_r.
Qed.

Lemma blocked_words_lower :
  Forall (fun w => toLowerCase w = w) Notions.blocked_words.
Proof. repeat constructor. Qed.

(** X21. A context in which one of the fifteen blocked words stands
    as a whole word, in any case of letters, is refused with the
    reason [Please enter a financial services topic.]: the word at
    the start of the text or after a character that is no letter,
    digit or underscore, and at the end of the text or before such a
    character. *)
Theorem validateContext_refuses_whole_words (pre word post : string) :
  In (toLowerCase word) Notions.blocked_words ->
  boundary_before (Notions.last_char pre) = true ->
  boundary_after post = true ->
  validateContext (Some (pre +:+ word +:+ post))
  = {| valid := false;
       reason := Some "Please enter a financial services topic." |}.
Proof.
  intros Hin Hb Ha. unfold validateContext.
  assert (Hne : truthy (Some (pre +:+ word +:+ post)) = true).
  { unfold truthy. apply negb_true_iff, String.eqb_neq. intros E.
    assert (Hw : word = "").
    { destruct pre; [|discriminate E]. rewrite string_app_nil_l in E.
      destruct word; [reflexivity|discriminate E]. }
    subst word. simpl in Hin.
    repeat (destruct Hin as [Hin|Hin]; [discriminate Hin|]). exact Hin. }
  rewrite Hne. cbn [negb default from_option id].
  assert (Ht : existsb (fun p => test p (pre +:+ word +:+ post))
                       BLOCKED_PATTERNS = true).
  { apply in_concat in Hin as (p & Hp & Hw).
    apply existsb_exists. exists p. split; [exact Hp|].
    unfold test. apply test_from_app. unfold matches_here, Notions.before.
    destruct (Notions.last_char pre) as [c|]; cbn [boundary_before] in *.
    - rewrite Hb. cbn [andb]. apply existsb_exists.
      exists (toLowerCase word). split; [exact Hw|].
      rewrite after_literal_app by (symmetry; apply toLowerCase_idempotent).
      exact Ha.
    - cbn [andb]. apply existsb_exists.
      exists (toLowerCase word). split; [exact Hw|].
      rewrite after_literal_app by (symmetry; apply toLowerCase_idempotent).
      exact Ha. }
  rewrite Ht. reflexivity.
Qed.

Lemma startsWith_whole (a b : string) :
  startsWith a b && Nat.leb (String.length b) (String.length a)
  = String.eqb b a.
Proof.
  revert b. induction a as [|x a IH]; intros b.
  - destruct b; reflexivity.
  - destruct b as [|y b]; [reflexivity|]. simpl.
    rewrite Ascii.eqb_sym. destruct (Ascii.eqb y x); [apply IH|reflexivity].
Qed.

Lemma all_word_slice (n : nat) (s : string) :
  Notions.all_word s = true -> Notions.all_word (slice_from n s) = true.
Proof.
  revert s. induction n as [|n IH]; intros s H; [exact H|].
  destruct s as [|c s]; [reflexivity|]. simpl in *.
  apply andb_prop in H as [_ H]. apply IH, H.
Qed.

(** In a text of word characters a blocked word matches at the start
    only when it is the whole text. *)
Lemma word_matches_whole (w text : string) :
  Notions.all_word text = true ->
  match Chat.after_literal w text with
  | Some rest => boundary_after rest
  | None => false
  end
  = String.eqb (toLowerCase text) (toLowerCase w).
Proof.
  intros Hall. rewrite after_literal_spec, <- startsWith_whole.
  rewrite !length_toLowerCase.
  destruct (startsWith (toLowerCase w) (toLowerCase text)) eqn:Es;
    [|reflexivity].
  cbn [andb].
  pose proof (all_word_slice (String.length w) text Hall) as Hs.
  assert (Hlen : forall n s, String.length s <= n -> slice_from n s = "").
  { induction n as [|n IHn]; intros s Hl;
      [destruct s; [reflexivity|simpl in Hl; lia]|].
    destruct s as [|c s]; [reflexivity|]. simpl in *. apply IHn. lia. }
  assert (Hnon : forall n s, n < String.length s -> slice_from n s <> "").
  { induction n as [|n IHn]; intros s Hl;
      [destruct s; [simpl in Hl; lia|discriminate]|].
    destruct s as [|c s]; [simpl in Hl; lia|]. simpl in *. apply IHn. lia. }
  destruct (Nat.leb (String.length text) (String.length w)) eqn:El.
  - apply Nat.leb_le in El. rewrite (Hlen _ _ El). reflexivity.
  - apply Nat.leb_gt in El. specialize (Hnon _ _ El).
    destruct (slice_from (String.length w) text) as [|c r];
      [contradiction Hnon; reflexivity|].
    simpl in *. apply andb_prop in Hs as [Hc _]. rewrite Hc. reflexivity.
Qed.

Lemma test_inside_word (words : list string) (c : ascii) (s : string) :
  is_word c = true -> Notions.all_word s = true ->
  test_from words (Some c) s = false.
Proof.
  revert c. induction s as [|d s IH]; intros c Hc Hs.
  - simpl. unfold matches_here. simpl. rewrite Hc. reflexivity.
  - rewrite test_from_eq. unfold matches_here at 1. cbn [boundary_before].
    rewrite Hc. cbn [negb andb orb]. simpl in Hs.
    apply andb_prop in Hs as [Hd Hs]. apply IH; assumption.
Qed.

Lemma test_single_word (words : list string) (text : string) :
  Forall (fun w => toLowerCase w = w) words ->
  Notions.all_word text = true ->
  test words text = existsb (String.eqb (toLowerCase text)) words.
Proof.
  intros Hlow Hall.
  assert (Hhead : existsb (fun w => match Chat.after_literal w text with
                                    | Some rest => boundary_after rest
                                    | None => false
                                    end) words
                  = existsb (String.eqb (toLowerCase text)) words).
  { induction Hlow as [|w words Hw _ IH]; [reflexivity|]. simpl.
    rewrite (word_matches_whole w text Hall), Hw, IH. reflexivity. }
  unfold test. rewrite test_from_eq.
  assert (Hrest : match text with
                  | EmptyString => false
                  | String c r => test_from words (Some c) r
                  end = false).
  { destruct text as [|c r]; [reflexivity|]. simpl in Hall.
    apply andb_prop in Hall as [Hc Hr]. apply test_inside_word; assumption. }
  rewrite Hrest, orb_false_r. unfold matches_here. cbn [boundary_before andb].
  exact Hhead.
Qed.

Lemma existsb_concat {A} (f : A -> bool) (ls : list (list A)) :
  existsb f (concat ls) = existsb (existsb f) ls.
Proof.
  induction ls as [|l ls IH]; [reflexivity|]. simpl.
  rewrite existsb_app, IH. reflexivity.
Qed.

(** X22. A context that is a single word (letters, digits and
    underscores only) is refused exactly when, in lower case, it is
    one of the blocked words: a word that merely contains one of
    them passes. *)
Theorem validateContext_of_a_single_word (text : string) :
  Notions.all_word text = true ->
  valid (validateContext (Some text))
  = negb (existsb (String.eqb (toLowerCase text)) Notions.blocked_words).
Proof.
  intros Hall. unfold validateContext, Notions.blocked_words.
  rewrite existsb_concat.
  assert (Hp : existsb (fun p => test p text) BLOCKED_PATTERNS
               = existsb (existsb (String.eqb (toLowerCase text)))
                         BLOCKED_PATTERNS).
  { unfold BLOCKED_PATTERNS. cbn [existsb].
    rewrite !test_single_word; try exact Hall; try reflexivity;
      repeat constructor. }
  destruct (truthy (Some text)) eqn:Et; cbn [negb default from_option id].
  - rewrite Hp.
    destruct (existsb (existsb (String.eqb (toLowerCase text)))
                      BLOCKED_PATTERNS); reflexivity.
  - unfold truthy in Et. apply negb_false_iff, String.eqb_eq in Et.
    subst text. reflexivity.
Qed.

End Validation.

Lemma validateContext_refuses_whole_words_witness :
  Start.validateContext (Some ("Could a trader " +:+ "HACK" +:+ "? No."))
  = {| Start.valid := false;
       Start.reason := Some "Please enter a financial services topic." |}.
Proof.
  apply (validateContext_refuses_whole_words "Could a trader " "HACK" "? No.");
    [vm_compute; tauto | reflexivity | reflexivity].
Defined.

Lemma validateContext_of_a_single_word_witness :
  Start.valid (Start.validateContext (Some "Hackathon"))
  = negb (existsb (String.eqb (Js.toLowerCase "Hackathon")) Notions.blocked_words).
Proof.
  apply (validateContext_of_a_single_word "Hackathon"); reflexivity.
Defined.

Section Starting.
Import Js State Research Start.



End Starting.
(** ** Chat turns, further *)

Section ChatFurther.
Import Js State Chat.



Lemma responses_app (key : string) (a b : list Event) :
  Notions.responses key (a ++ b)
  = Notions.responses key a + Notions.responses key b.
Proof.
  unfold Notions.responses. rewrite List.filter_app, length_app. reflexivity.
Qed.

Lemma errors_app (key : string) (a b : list Event) :
  Notions.errors key (a ++ b) = Notions.errors key a + Notions.errors key b.
Proof.
  unfold Notions.errors. rewrite List.filter_app, length_app. reflexivity.
Qed.

Lemma deliver_counts (key message : string) (now : Z) (s : Session) :
  Notions.responses key (emitted (world (deliver key message now s)))
  = S (Notions.responses key (emitted (world s)))
  /\ Notions.errors key (emitted (world (deliver key message now s)))
     = Notions.errors key (emitted (world s))
  /\ net (world (deliver key message now s)) = net (world s)
  /\ activeStream (deliver key message now s) = activeStream s.
Proof.
  unfold deliver. simpl. rewrite responses_app, errors_app.
  unfold Notions.responses at 2, Notions.errors at 2. simpl.
  rewrite String.eqb_refl. simpl. repeat split; lia.
Qed.

Lemma fail_counts (key error : string) (s : Session) :
  Notions.responses key (emitted (world (fail key error s)))
  = Notions.responses key (emitted (world s))
  /\ Notions.errors key (emitted (world (fail key error s)))
     = S (Notions.errors key (emitted (world s)))
  /\ net (world (fail key error s)) = net (world s).
Proof.
  unfold fail. simpl. rewrite responses_app, errors_app.
  unfold Notions.responses at 2, Notions.errors at 2. simpl.
  rewrite String.eqb_refl. simpl. repeat split; lia.
Qed.

(** The stream callback of the document chat, over a whole stream. *)
Lemma doc_events_counts (key : string)
    (events : list (Z * Research.StreamData)) (s : Session) :
  let s' := fold_left (on_doc_event key) events s in
  Notions.responses key (emitted (world s'))
  = Notions.responses key (emitted (world s)) + Notions.answers events
  /\ Notions.errors key (emitted (world s'))
     = Notions.errors key (emitted (world s))
  /\ net (world s') = net (world s)
  /\ activeStream s' = (if Nat.eqb (Notions.answers events) 0 then activeStream s
                        else None).
Proof.
  revert s. induction events as [|ev events IH]; intros s; cbv zeta.
  - unfold Notions.answers. simpl. repeat split. lia.
  - simpl fold_left. destruct (IH (on_doc_event key s ev)) as (H1 & H2 & H3 & H4).
    rewrite H1, H2, H3, H4. unfold Notions.answers. simpl List.filter.
    unfold on_doc_event. destruct (is_answer (snd ev)) eqn:Ea.
    + cbn [set_active world activeStream].
      destruct (deliver_counts key (default "" (Research.data_message (snd ev)))
                  (fst ev) s) as (D1 & D2 & D3 & _).
      rewrite D1, D2, D3. cbn [length Nat.eqb].
      repeat split; try lia.
      destruct (Nat.eqb _ 0); reflexivity.
    + repeat split.
Qed.

(** The stream callback of the workspace chat, over a whole stream. *)
Lemma workspace_events_counts (key : string)
    (events : list (Z * Research.StreamData)) (s : Session) :
  let s' := fold_left (on_workspace_event key) events s in
  Notions.responses key (emitted (world s'))
  = Notions.responses key (emitted (world s)) + Notions.answers events
  /\ Notions.errors key (emitted (world s'))
     = Notions.errors key (emitted (world s))
  /\ net (world s') = net (world s).
Proof.
  revert s. induction events as [|ev events IH]; intros s; cbv zeta.
  - unfold Notions.answers. simpl. repeat split. lia.
  - simpl fold_left.
    destruct (IH (on_workspace_event key s ev)) as (H1 & H2 & H3).
    rewrite H1, H2, H3. unfold Notions.answers. simpl List.filter.
    unfold on_workspace_event. destruct (is_answer (snd ev)) eqn:Ea.
    + destruct (deliver_counts key (default "" (Research.data_message (snd ev)))
                  (fst ev) s) as (D1 & D2 & D3 & _).
      rewrite D1, D2, D3. cbn [length]. repeat split; lia.
    + repeat split.
Qed.


Lemma user_message_counts (key question : string) (now : Z) (s : Session) :
  let s1 := with_world (emit (ChatUserMessage key question))
              (addMessage key "user" question now s) in
  Notions.responses key (emitted (world s1))
  = Notions.responses key (emitted (world s))
  /\ Notions.errors key (emitted (world s1))
     = Notions.errors key (emitted (world s))
  /\ net (world s1) = net (world s)
  /\ is_live s1 = is_live s.
Proof.
  cbv zeta. simpl. rewrite responses_app, errors_app.
  unfold Notions.responses at 2, Notions.errors at 2. simpl.
  repeat split; lia.
Qed.

(** X25. A document turn whose marker is cleared from outside while
    its stream is read, and whose stream ends without an answer,
    ends in silence: the status is not asked for, no response and no
    error is emitted for the context, and only the execute request
    and the stream were sent. *)
Theorem sendDocChat_cancelled_sends_no_status_request
    (docId docTitle question workflowId runId : string) (env : Turn)
    (s : Session) :
  is_live s = true ->
  turn_execute env = Returned (workflowId, runId) ->
  Notions.answers (turn_events env) = 0 ->
  turn_cancelled env = true ->
  turn_stream_end env = Returned tt ->
  let key := "doc:" +:+ docId in
  let s' := sendDocChat docId docTitle question env s in
  Notions.responses key (emitted (world s'))
  = Notions.responses key (emitted (world s))
  /\ Notions.errors key (emitted (world s'))
     = Notions.errors key (emitted (world s))
  /\ activeStream s' = None
  /\ exists task, net (world s')
                  = net (world s) ++ [Api.NetExecuteResearch task;
                                      Api.NetStream workflowId runId].
Proof.
  intros Hlive Hexec Hans Hcancel Hend. cbv zeta. unfold sendDocChat.
  set (key := "doc:" +:+ docId).
  destruct (user_message_counts key question (turn_now env) s)
    as (R1 & E1 & N1 & L1).
  set (s1 := with_world (emit (ChatUserMessage key question)) _) in *.
  rewrite L1, Hlive, Hexec, Hcancel, Hend. cbn [negb].
  set (s4 := with_world (request (Api.NetStream workflowId runId)) _).
  destruct (doc_events_counts key (turn_events env) s4) as (R5 & E5 & N5 & A5).
  set (s5 := fold_left (on_doc_event key) (turn_events env) s4) in *.
  assert (H4 : emitted (world s4) = emitted (world s1) ++ [ChatThinking key])
    by reflexivity.
  cbn [cancelActiveStream set_active activeStream world].
  rewrite R5, E5, N5, Hans, H4, responses_app, errors_app, R1, E1.
  split; [|split; [|split; [reflexivity|]]].
  - unfold Notions.responses at 2. simpl. lia.
  - unfold Notions.errors at 2. simpl. lia.
  - eexists. rewrite <- N1. unfold s4. simpl. rewrite <- app_assoc.
    reflexivity.
Qed.

(** X26. A document turn whose stream breaks after it has delivered
    answers reports twice over: one response for each answer, and
    one error for the failure of the stream. *)
Theorem sendDocChat_reports_answer_and_failure
    (docId docTitle question workflowId runId msg : string) (env : Turn)
    (s : Session) :
  is_live s = true ->
  turn_execute env = Returned (workflowId, runId) ->
  turn_stream_end env = Threw msg ->
  let key := "doc:" +:+ docId in
  let s' := sendDocChat docId docTitle question env s in
  Notions.responses key (emitted (world s'))
  = Notions.responses key (emitted (world s)) + Notions.answers (turn_events env)
  /\ Notions.errors key (emitted (world s'))
     = S (Notions.errors key (emitted (world s)))
  /\ activeStream s' = None.
Proof.
  intros Hlive Hexec Hend. cbv zeta. unfold sendDocChat.
  set (key := "doc:" +:+ docId).
  destruct (user_message_counts key question (turn_now env) s)
    as (R1 & E1 & N1 & L1).
  set (s1 := with_world (emit (ChatUserMessage key question)) _) in *.
  rewrite L1, Hlive, Hexec, Hend. cbn [negb].
  set (s4 := with_world (request (Api.NetStream workflowId runId)) _).
  destruct (doc_events_counts key (turn_events env) s4) as (R5 & E5 & N5 & A5).
  set (s5 := fold_left (on_doc_event key) (turn_events env) s4) in *.
  assert (H4 : emitted (world s4) = emitted (world s1) ++ [ChatThinking key])
    by reflexivity.
  assert (R4 : Notions.responses key (emitted (world s4))
               = Notions.responses key (emitted (world s))).
  { rewrite H4, responses_app, R1. unfold Notions.responses at 2. simpl. lia. }
  assert (E4 : Notions.errors key (emitted (world s4))
               = Notions.errors key (emitted (world s))).
  { rewrite H4, errors_app, E1. unfold Notions.errors at 2. simpl. lia. }
  assert (Hw : forall a x, world (set_active a x) = world x) by reflexivity.
  assert (Hfinal : forall x, world x = world s5 ->
             Notions.responses key
               (emitted (world (set_active None (fail key msg x))))
             = Notions.responses key (emitted (world s))
               + Notions.answers (turn_events env)
             /\ Notions.errors key
                  (emitted (world (set_active None (fail key msg x))))
                = S (Notions.errors key (emitted (world s)))
             /\ activeStream (set_active None (fail key msg x)) = None).
  { intros x Hx. rewrite Hw.
    destruct (fail_counts key msg x) as (F1 & F2 & _).
    rewrite F1, F2, Hx, R5, E5, R4, E4. auto. }
  destruct (turn_cancelled env); apply Hfinal; reflexivity.
Qed.

(** X27. A workspace turn on the live path whose list of documents
    can be read emits one response for each [answer] event of its
    stream and an error exactly when the stream fails; it sends the
    execute request and the stream and never asks for the status of
    the run. When reading the list of documents throws (the id of
    the workspace is a name that the member lists inherit), the turn
    ends with that error and sends nothing. *)
Theorem sendWorkspaceChat_reports_answers_and_failures_only
    (wsId wsName question workflowId runId : string) (env : Turn)
    (s : Session) :
  is_live s = true ->
  turn_execute env = Returned (workflowId, runId) ->
  let key := "ws:" +:+ wsId in
  let s' := sendWorkspaceChat wsId wsName question env s in
  match workspaceDocs wsId (world s) with
  | Returned _ =>
      Notions.responses key (emitted (world s'))
      = Notions.responses key (emitted (world s))
        + Notions.answers (turn_events env)
      /\ Notions.errors key (emitted (world s'))
         = Notions.errors key (emitted (world s))
           + (match turn_stream_end env with Threw _ => 1 | Returned _ => 0 end)
      /\ exists task, net (world s')
                      = net (world s) ++ [Api.NetExecuteResearch task;
                                          Api.NetStream workflowId runId]
  | Threw msg =>
      emitted (world s')
      = emitted (world s) ++ [ChatUserMessage key question; ChatThinking key;
                              ChatError key msg]
      /\ Notions.responses key (emitted (world s'))
         = Notions.responses key (emitted (world s))
      /\ Notions.errors key (emitted (world s'))
         = S (Notions.errors key (emitted (world s)))
      /\ net (world s') = net (world s)
  end.
Proof.
  intros Hlive Hexec. cbv zeta. unfold sendWorkspaceChat.
  set (key := "ws:" +:+ wsId).
  destruct (user_message_counts key question (turn_now env) s)
    as (R1 & E1 & N1 & L1).
  set (s1 := with_world (emit (ChatUserMessage key question)) _) in *.
  rewrite L1, Hlive. cbn [negb]. cbv zeta.
  set (s2 := with_world (emit (ChatThinking key)) s1).
  assert (Hd : workspaceDocs wsId (world s2) = workspaceDocs wsId (world s))
    by reflexivity.
  rewrite Hd.
  assert (H2 : emitted (world s2) = emitted (world s1) ++ [ChatThinking key])
    by reflexivity.
  assert (H1 : emitted (world s1)
               = emitted (world s) ++ [ChatUserMessage key question])
    by reflexivity.
  assert (R2 : Notions.responses key (emitted (world s2))
               = Notions.responses key (emitted (world s))).
  { rewrite H2, responses_app, R1. unfold Notions.responses at 2. simpl. lia. }
  assert (E2 : Notions.errors key (emitted (world s2))
               = Notions.errors key (emitted (world s))).
  { rewrite H2, errors_app, E1. unfold Notions.errors at 2. simpl. lia. }
  destruct (workspaceDocs wsId (world s)) as [docs|msg].
  - rewrite Hexec.
    set (s4 := with_world (request (Api.NetStream workflowId runId)) _).
    destruct (workspace_events_counts key (turn_events env) s4)
      as (R5 & E5 & N5).
    set (s5 := fold_left (on_workspace_event key) (turn_events env) s4) in *.
    assert (R4 : Notions.responses key (emitted (world s4))
                 = Notions.responses key (emitted (world s))) by exact R2.
    assert (E4 : Notions.errors key (emitted (world s4))
                 = Notions.errors key (emitted (world s))) by exact E2.
    assert (N4 : exists task, net (world s4)
                   = net (world s) ++ [Api.NetExecuteResearch task;
                                       Api.NetStream workflowId runId]).
    { eexists. rewrite <- N1. unfold s4. simpl. rewrite <- app_assoc.
      reflexivity. }
    destruct (turn_stream_end env) as [[]|msg].
    + rewrite R5, E5, N5, R4, E4. repeat split; try lia. exact N4.
    + destruct (fail_counts key msg s5) as (F1 & F2 & F3).
      rewrite F1, F2, F3, R5, E5, N5, R4, E4. repeat split; try lia. exact N4.
  - destruct (fail_counts key msg s2) as (F1 & F2 & F3).
    rewrite F1, F2, F3, R2, E2.
    split.
    { unfold fail. cbn [with_world world emit emitted].
      rewrite H2, H1, <- !app_assoc. reflexivity. }
    split; [reflexivity|]. split; [lia|exact N1].
Qed.

End ChatFurther.

Lemma sendDocChat_cancelled_sends_no_status_request_witness :
  Notions.responses ("doc:" +:+ "d1")
    (State.emitted (Chat.world
       (Chat.sendDocChat "d1" "Chips" "Why?" Cases.cancelled_turn
          (Examples.empty_session true (Some Examples.client)))))
  = Notions.responses ("doc:" +:+ "d1")
      (State.emitted (Chat.world
         (Examples.empty_session true (Some Examples.client)))).
Proof.
  refine (proj1 (sendDocChat_cancelled_sends_no_status_request
                   "d1" "Chips" "Why?" "wf-1" "run-1" Cases.cancelled_turn
                   (Examples.empty_session true (Some Examples.client))
                   _ _ _ _ _));
    reflexivity.
Defined.

Lemma sendDocChat_reports_answer_and_failure_witness :
  Notions.errors ("doc:" +:+ "d1")
    (State.emitted (Chat.world
       (Chat.sendDocChat "d1" "Chips" "Why?" Cases.broken_turn
          (Examples.empty_session true (Some Examples.client)))))
  = S (Notions.errors ("doc:" +:+ "d1")
         (State.emitted (Chat.world
            (Examples.empty_session true (Some Examples.client))))).
Proof.
  refine (proj1 (proj2 (sendDocChat_reports_answer_and_failure
                          "d1" "Chips" "Why?" "wf-1" "run-1" "network error"
                          Cases.broken_turn
                          (Examples.empty_session true (Some Examples.client))
                          _ _ _)));
    reflexivity.
Defined.

Lemma sendWorkspaceChat_reports_answers_and_failures_only_witness :
  Notions.responses ("ws:" +:+ "w1")
    (State.emitted (Chat.world
       (Chat.sendWorkspaceChat "w1" "Chips" "Why?" Cases.broken_turn
          (Examples.empty_session true (Some Examples.client)))))
  = Notions.responses ("ws:" +:+ "w1")
      (State.emitted (Chat.world
         (Examples.empty_session true (Some Examples.client))))
    + Notions.answers (Chat.turn_events Cases.broken_turn).
Proof.
  exact (proj1 (sendWorkspaceChat_reports_answers_and_failures_only
                  "w1" "Chips" "Why?" "wf-1" "run-1" Cases.broken_turn
                  (Examples.empty_session true (Some Examples.client))
                  eq_refl eq_refl)).
Defined.

(** A workspace whose id is a name of [Object.prototype]: the turn
    ends with the error of [workspaceDocs] and nothing is sent. *)
Lemma sendWorkspaceChat_of_inherited_name :
  let s := Chat.sendWorkspaceChat "constructor" "Chips" "Why?"
             Examples.turn_without_answer
             (Examples.empty_session true (Some Examples.client)) in
  State.emitted (Chat.world s)
  = [State.ChatUserMessage "ws:constructor" "Why?";
     State.ChatThinking "ws:constructor";
     State.ChatError "ws:constructor" State.NOT_A_FUNCTION]
  /\ State.net (Chat.world s) = [].
Proof. vm_compute. split; reflexivity. Qed.
(** ** The demo answers *)

Section DemoFurther.
Import Js State Chat.




End DemoFurther.

(** ** The router *)

Section RouterFurther.
Import Js Router.

Lemma rooted_emit (e : RouterEvent) (r : Router) :
  Notions.rooted r -> Notions.rooted (emit e r).
Proof. intros H. exact H. Qed.

Lemma rooted_closeReader (r : Router) :
  Notions.rooted r -> Notions.rooted (closeReader r).
Proof. intros H. exact H. Qed.

Lemma rooted_push (v : string) (r : Router) :
  Notions.rooted r -> Notions.rooted (push v r).
Proof.
  intros [Hc Hs]. unfold push.
  destruct (stacks r !! currentTab r) as [stack|] eqn:E; [|split; assumption].
  split; [exact Hc|]. intros tab Ht. simpl.
  destruct (decide (currentTab r = tab)) as [<-|Hne].
  - rewrite lookup_insert_eq. destruct (Hs _ Ht) as [rest Hrest].
    rewrite E in Hrest. injection Hrest as ->.
    exists (rest ++ [v]). reflexivity.
  - rewrite lookup_insert_ne by exact Hne. apply Hs, Ht.
Qed.

Lemma rooted_pop (r : Router) : Notions.rooted r -> Notions.rooted (pop r).
Proof.
  intros [Hc Hs]. unfold pop.
  destruct (stacks r !! currentTab r) as [stack|] eqn:E; [|split; assumption].
  destruct (Nat.leb (length stack) 1) eqn:El; [split; assumption|].
  split; [exact Hc|]. intros tab Ht. simpl.
  destruct (decide (currentTab r = tab)) as [<-|Hne].
  - rewrite lookup_insert_eq. destruct (Hs _ Ht) as [rest Hrest].
    rewrite E in Hrest. injection Hrest as ->.
    destruct rest as [|x rest]; [discriminate El|].
    exists (removelast (x :: rest)). reflexivity.
  - rewrite lookup_insert_ne by exact Hne. apply Hs, Ht.
Qed.

Lemma rooted_apply (o : Op) (r : Router) :
  Notions.rooted r -> Notions.rooted (apply r o).
Proof.
  intros H. destruct o as [tab|v| |tab| | | |sheet| ]; cbn [apply].
  - unfold switchTab. destruct (is_tab tab) eqn:Et; [|exact H]. cbn [negb].
    destruct H as [_ Hs]. split; [exact Et|].
    destruct (readerOpen r); exact Hs.
  - apply rooted_push, H.
  - apply rooted_pop, H.
  - destruct H as [Hc Hs]. split; [exact Hc|]. intros t Ht. simpl.
    destruct (decide (tab = t)) as [<-|Hne].
    + rewrite lookup_insert_eq. exists []. reflexivity.
    + rewrite lookup_insert_ne by exact Hne. apply Hs, Ht.
  - exact H.
  - exact H.
  - unfold on_popstate. destruct (readerOpen r); [exact H|apply rooted_pop, H].
  - unfold openSheet, closeSheet.
    destruct (negb (truthy (activeSheet r))); exact H.
  - unfold closeSheet. destruct (negb (truthy (activeSheet r))); exact H.
Qed.

Lemma rooted_initial : Notions.rooted (switchTab "feed" initial).
Proof.
  split; [reflexivity|]. intros tab Ht. unfold is_tab, TABS in Ht. simpl in Ht.
  repeat (destruct (String.eqb tab _) eqn:E in Ht;
          [apply String.eqb_eq in E; subst tab; eexists; reflexivity|];
          clear E).
  discriminate Ht.
Qed.

(** X29. Whatever the page asks of the router after [init], the
    current tab is one of the five tabs and every tab keeps a stack
    that begins with its root view: the root is never popped, the
    current view always exists and the depth of the stack is at
    least one. *)
Theorem router_never_pops_a_root (ops : list Op) :
  let r := run ops in
  Notions.rooted r
  /\ (exists v, getCurrentView r = Some v)
  /\ (exists n, getStackDepth r = Some (S n)).
Proof.
  cbv zeta.
  assert (H : Notions.rooted (run ops)).
  { unfold run. generalize rooted_initial. generalize (switchTab "feed" initial).
    induction ops as [|o ops IH]; intros r Hr; [exact Hr|].
    simpl. apply IH, rooted_apply, Hr. }
  split; [exact H|]. destruct H as [Hc Hs].
  destruct (Hs _ Hc) as [rest Hrest].
  unfold getCurrentView, getStackDepth. rewrite Hrest. split.
  - assert (Hl : forall (l : list string) x, exists v,
               List.last (map Some (x :: l)) None = Some v).
    { induction l as [|y l IH]; intros x; [eexists; reflexivity|].
      destruct (IH y) as [v Hv]. exists v. exact Hv. }
    apply Hl.
  - eexists. reflexivity.
Qed.

(** X30. A view pushed and popped again leaves every stack and the
    current view as they were, with the two events [view:push] and
    [view:pop] for that view; the entry that [push] put on the
    browser history stays there. *)
Theorem pop_undoes_push (viewId root : string) (rest : list string) (r : Router) :
  stacks r !! currentTab r = Some (root :: rest) ->
  let r' := pop (push viewId r) in
  stacks r' = stacks r
  /\ getCurrentView r' = getCurrentView r
  /\ router_emitted r'
     = router_emitted r ++ [ViewPush (currentTab r) viewId;
                            ViewPop (currentTab r) viewId]
  /\ pushedStates r' = S (pushedStates r)
  /\ currentTab r' = currentTab r.
Proof.
  intros Hs. cbv zeta. unfold push. rewrite Hs. unfold pop.
  cbn [emit currentTab stacks readerOpen activeSheet pushedStates router_emitted].
  rewrite lookup_insert_eq.
  assert (Hlen : Nat.leb (length ((root :: rest) ++ [viewId])) 1 = false).
  { apply Nat.leb_gt. rewrite length_app. simpl. lia. }
  rewrite Hlen.
  cbn [emit currentTab stacks readerOpen activeSheet pushedStates router_emitted].
  assert (Hst : <[currentTab r := removelast ((root :: rest) ++ [viewId])]>
                  (<[currentTab r := (root :: rest) ++ [viewId]]> (stacks r))
                = stacks r).
  { rewrite insert_insert_eq, removelast_last. apply insert_id, Hs. }
  rewrite Hst. split; [reflexivity|].
  split; [unfold getCurrentView; cbn [currentTab stacks]; reflexivity|].
  split; [rewrite last_last, <- app_assoc; reflexivity|].
  split; reflexivity.
Qed.

End RouterFurther.


Lemma pop_undoes_push_witness :
  Router.stacks (Router.pop (Router.push "doc-7" Cases.at_feed))
  = Router.stacks Cases.at_feed.
Proof.
  refine (proj1 (pop_undoes_push "doc-7" "feed" [] Cases.at_feed _)).
  vm_compute. reflexivity.
Defined.
